(** * Utility billing: charge resolution and cost accumulation

    A shallow embedding of [get_charge_array] and [calculate_cost] of
    [code/sample_usage.py], and the properties of the billing specification
    checked against it.

    Conventions of the embedding.
    - Python floats are exact rationals ([Q]); results are compared with
      [==].  A property that depends on which sample of a window passes a
      tier limit assumes running totals that are exact in binary64.
    - The field name [str(limit)] of a structured array is carried as the
      number [float(name)] that [calculate_cost] reads back from it, so the
      name "0.0" is the rational [0].
    - Exceptions are values of [exn]; the two [raise ValueError(...)] of the
      source keep their messages, which tells them apart from the shape
      errors numpy and pandas raise with the same class.
    - [rate_data] has the default integer index of a sheet read by pandas:
      the label of a row is its position.  A consumption [Series] has a
      contiguous integer index, so that [s[i + s.index[0]]] is the sample at
      position [i]. *)

From Stdlib Require Import String ZArith QArith Bool Arith Lia Lqa List Sorted.
Import ListNotations.

Local Open Scope Q_scope.

(** ** Exceptions and results *)

Inductive exn : Type :=
| ValueError (msg : string)
| KeyError (key : string)
| IndexError (msg : string)
| NameError (name : string)
| TypeError (msg : string).

Inductive result (A : Type) : Type :=
| OK (a : A)
| Raise (e : exn).

Arguments OK {A} a.
Arguments Raise {A} e.

Definition bind {A B : Type} (r : result A) (k : A -> result B) : result B :=
  match r with
  | OK a => k a
  | Raise e => Raise e
  end.

Notation "x <- c ;; k" := (bind c (fun x => k))
  (at level 61, c at next level, right associativity).
Notation "' pat <- c ;; k" := (bind c (fun x => match x with pat => k end))
  (at level 61, pat pattern, c at next level, right associativity).

(** ** Numbers and arrays *)

Definition Qlt_bool (a b : Q) : bool := negb (Qle_bool b a).

(** [np.max([a, b])] of two numbers. *)
Definition Qmaxb (a b : Q) : Q := if Qle_bool a b then b else a.

Definition np_zeros (n : nat) : list Q := repeat 0 n.

Definition np_sum (l : list Q) : Q := fold_right Qplus 0 l.

(** [np.max] of a one-dimensional array; numpy refuses an empty one. *)
Fixpoint np_max (l : list Q) : result Q :=
  match l with
  | [] => Raise (ValueError "zero-size array to reduction operation maximum")
  | [x] => OK x
  | x :: l' => m <- np_max l' ;; OK (Qmaxb x m)
  end.

(** Position of the first maximum, with the maximum. *)
Fixpoint argmax_from (l : list Q) (i : nat) (best : nat * Q) : nat * Q :=
  match l with
  | [] => best
  | x :: l' =>
      argmax_from l' (S i) (if Qlt_bool (snd best) x then (i, x) else best)
  end.

Definition np_argmax (l : list Q) : result nat :=
  match l with
  | [] => Raise (ValueError "attempt to get argmax of an empty sequence")
  | x :: l' => OK (fst (argmax_from l' 1%nat (0%nat, x)))
  end.

(** [np.tile(a, reps)]. *)
Fixpoint np_tile {A : Type} (a : list A) (reps : nat) : list A :=
  match reps with
  | O => []
  | S r => a ++ np_tile a r
  end.

(** [np.unique]: the distinct values, ascending. *)
Fixpoint insert_unique (x : Q) (l : list Q) : list Q :=
  match l with
  | [] => [x]
  | y :: l' =>
      if Qlt_bool x y then x :: l
      else if Qeq_bool x y then l
      else y :: insert_unique x l'
  end.

Definition np_unique (l : list Q) : list Q := fold_right insert_unique [] l.

Definition shape_error : exn :=
  ValueError "operands could not be broadcast together".

(** [a += b] on two one-dimensional arrays of equal length; any other pair
    of lengths that reaches it in [get_charge_array] is refused by numpy. *)
Definition np_iadd (a b : list Q) : result (list Q) :=
  if Nat.eqb (length a) (length b)
  then OK (map (fun p => fst p + snd p) (combine a b))
  else Raise shape_error.

(** [series * array]: pandas multiplies the values with numpy broadcasting
    and keeps the index of the series, so the array has the length of the
    series or length one. *)
Definition mul_series (s a : list Q) : result (list Q) :=
  if Nat.eqb (length a) (length s)
  then OK (map (fun p => fst p * snd p) (combine s a))
  else match a with
       | [x] => OK (map (fun c => c * x) s)
       | _ => Raise shape_error
       end.

(** [series[i + series.index[0]]]. *)
Definition getitem (s : list Q) (i : nat) : result Q :=
  match s with
  | [] => Raise (IndexError "index 0 is out of bounds for axis 0 with size 0")
  | _ => match nth_error s i with
         | Some x => OK x
         | None => Raise (KeyError "label")
         end
  end.

(** [lo:hi] on positions. *)
Definition slice {A : Type} (l : list A) (lo hi : nat) : list A :=
  firstn (hi - lo) (skipn lo l).

(** ** The data model *)

(** The three accessors of a timestamp the resolver reads. *)
Record Timestamp : Type := mkTimestamp {
  dt_month : Z;
  dt_weekday : Z;
  dt_hour : Z
}.

(** The consumption frame as [get_charge_array] sees it: its number of rows
    and its ['DateTime'] column, if it has one. *)
Record DataFrame : Type := mkDataFrame {
  shape0 : nat;
  DateTime : option (list Timestamp)
}.

(** One row of the rate sheet. *)
Record Rule : Type := mkRule {
  utility : string;
  type_ : string;
  period : string;
  basic_charge_limit : Q;
  month_start : Z;
  month_end : Z;
  hour_start : Q;
  hour_end : Q;
  weekday_start : Z;
  weekday_end : Z;
  charge : Q
}.

(** Arrays returned by the resolver: a plain array (the customer rates, or
    [np.array([])]), or a structured array of shape [(n,)] or [(n, k)] whose
    fields are named by tier limits.  A two-dimensional field is the list of
    its [k] columns. *)
Inductive ndarray : Type :=
| Plain (vals : list Q)
| Struct1 (n : nat) (fields : list (Q * list Q))
| Struct2 (n k : nat) (fields : list (Q * list (list Q))).

Definition size (a : ndarray) : nat :=
  match a with
  | Plain vals => length vals
  | Struct1 n _ => n
  | Struct2 n k _ => (n * k)%nat
  end.

(** [charges.dtype.names]; [None] for an array without fields. *)
Definition dtype_names (a : ndarray) : option (list Q) :=
  match a with
  | Plain _ => None
  | Struct1 _ fields => Some (map fst fields)
  | Struct2 _ _ fields => Some (map fst fields)
  end.

(** The per-tier buffer [data] of the resolver. *)
Inductive tier_data : Type :=
| Data1 (v : list Q)
| Data2 (n : nat) (cols : list (list Q)).

(** ** [get_charge_array] *)

(** The rows of [rate_data] with their index labels. *)
Definition index_rows (rate_data : list Rule) : list (nat * Rule) :=
  combine (seq 0 (length rate_data)) rate_data.

(** [min(limit_charges.index.values)]. *)
Definition index_min (labels : list nat) : nat :=
  match labels with
  | [] => 0%nat
  | l :: ls => fold_left Nat.min ls l
  end.

(** [consumption_data["DateTime"]]. *)
Definition get_DateTime (consumption_data : DataFrame) : result (list Timestamp) :=
  match DateTime consumption_data with
  | Some col => OK col
  | None => Raise (KeyError "DateTime")
  end.

(** [periods[idx_np]]. *)
Definition get_period (periods : list string) (idx_np : nat) : result string :=
  match nth_error periods idx_np with
  | Some p => OK p
  | None => Raise (IndexError "index is out of bounds for axis 0")
  end.

(** The six range tests of lines 104-111 at one timestamp. *)
Definition applies (c : Rule) (m w : Z) (h : Q) : bool :=
  (month_start c <=? m)%Z && (m <=? month_end c)%Z
  && (weekday_start c <=? w)%Z && (w <=? weekday_end c)%Z
  && Qle_bool (hour_start c) h && Qlt_bool h (hour_end c).

Definition apply_charge_mask (months weekdays : list Z) (hours : list Q)
    (c : Rule) : list bool :=
  map (fun t => applies c (fst (fst t)) (snd (fst t)) (snd t))
      (combine (combine months weekdays) hours).

(** [mask * rate]: the rate where the mask holds, zero elsewhere. *)
Definition mask_times (mask : list bool) (rate : Q) : list Q :=
  map (fun b : bool => if b then rate else 0) mask.

(** [a | b] on boolean arrays. *)
Definition mask_or (a b : list bool) : list bool :=
  map (fun p => orb (fst p) (snd p)) (combine a b).

(** [data[:, i] = v]. *)
Definition set_column (cols : list (list Q)) (i : nat) (v : list Q)
    : result (list (list Q)) :=
  if (i <? length cols)%nat
  then OK (firstn i cols ++ v :: skipn (S i) cols)
  else Raise (IndexError "index is out of bounds for axis 1").

(** The dictionary [periods_seen]: period label to (column, mask). *)
Definition periods_seen_t : Type := list (string * (nat * list bool)).

Fixpoint seen_lookup (p : string) (seen : periods_seen_t)
    : option (nat * list bool) :=
  match seen with
  | [] => None
  | (q, v) :: seen' => if String.eqb p q then Some v else seen_lookup p seen'
  end.

(** Body of the loop of line 100 for [charge_type == "demand"]. *)
Definition demand_rule_step (periods : list string) (months weekdays : list Z)
    (hours : list Q) (base : nat) (st : list (list Q) * periods_seen_t)
    (row : nat * Rule) : result (list (list Q) * periods_seen_t) :=
  let charge_row := snd row in
  let idx_np := (fst row - base)%nat in
  p <- get_period periods idx_np ;;
  let apply_charge := apply_charge_mask months weekdays hours charge_row in
  match seen_lookup p (snd st) with
  | None =>
      cols <- set_column (fst st) idx_np
                (mask_times apply_charge (charge charge_row)) ;;
      OK (cols, (p, (idx_np, apply_charge)) :: snd st)
  | Some (col, mask) =>
      cols <- set_column (fst st) col
                (mask_times (mask_or apply_charge mask) (charge charge_row)) ;;
      OK (cols, snd st)
  end.

(** Body of the loop of line 100 for any other charge type (energy). *)
Definition energy_rule_step (periods : list string) (months weekdays : list Z)
    (hours : list Q) (base : nat) (data : list Q) (row : nat * Rule)
    : result (list Q) :=
  let charge_row := snd row in
  let idx_np := (fst row - base)%nat in
  p <- get_period periods idx_np ;;
  let apply_charge := apply_charge_mask months weekdays hours charge_row in
  np_iadd data (mask_times apply_charge (charge charge_row)).

(** A loop whose body may raise. *)
Fixpoint for_each {S A : Type} (body : S -> A -> result S) (l : list A) (s : S)
    : result S :=
  match l with
  | [] => OK s
  | x :: l' => s' <- body s x ;; for_each body l' s'
  end.

(** Lines 94-121: the buffer [data] of one tier. *)
Definition tier_buffer (is_demand : bool) (nrows : nat)
    (charges : list (nat * Rule)) (periods : list string)
    (months weekdays : list Z) (hours : list Q) (limit : Q)
    : result tier_data :=
  let limit_charges :=
    filter (fun c => Qeq_bool (basic_charge_limit (snd c)) limit) charges in
  let base := index_min (map fst limit_charges) in
  if is_demand then
    st <- for_each (demand_rule_step periods months weekdays hours base)
            limit_charges
            (repeat (np_zeros nrows) (length limit_charges), []) ;;
    OK (Data2 nrows (fst st))
  else
    v <- for_each (energy_rule_step periods months weekdays hours base)
           limit_charges (np_zeros nrows) ;;
    OK (Data1 v).

(** Lines 122-132: the first tier makes the structured array, a later one
    is added as a new field of an array of the same shape, its data
    broadcast to that shape. *)
Definition add_field (charge_array : ndarray) (limit : Q) (data : tier_data)
    : result ndarray :=
  if Nat.eqb (size charge_array) 0 then
    match data with
    | Data1 v => OK (Struct1 (length v) [(limit, v)])
    | Data2 n cols => OK (Struct2 n (length cols) [(limit, cols)])
    end
  else
    match charge_array, data with
    | Struct1 n fields, Data1 v =>
        if Nat.eqb (length v) n
        then OK (Struct1 n (fields ++ [(limit, v)]))
        else Raise shape_error
    | Struct2 n k fields, Data2 n' cols =>
        if Nat.eqb n' n then
          if Nat.eqb (length cols) k
          then OK (Struct2 n k (fields ++ [(limit, cols)]))
          else match cols with
               | [c] => OK (Struct2 n k (fields ++ [(limit, repeat c k)]))
               | _ => Raise shape_error
               end
        else Raise shape_error
    | _, _ => Raise shape_error
    end.

(** Lines 92-134. *)
Definition charge_table (is_demand : bool) (nrows : nat)
    (charges : list (nat * Rule)) (periods : list string)
    (months weekdays : list Z) (hours : list Q) : result ndarray :=
  for_each
    (fun charge_array limit =>
       data <- tier_buffer is_demand nrows charges periods months weekdays
                 hours limit ;;
       add_field charge_array limit data)
    (np_unique (map (fun c => basic_charge_limit (snd c)) charges))
    (Plain []).

(** [np.arange(4) / 4]. *)
Definition quarter_steps : list Q :=
  map (fun i => inject_Z i / 4) [0; 1; 2; 3]%Z.

(** Lines 76-78: the hour of each timestamp, advanced by the quarter of
    the hour its position in the window falls on. *)
Definition window_hours (stamps : list Timestamp) (ndays : nat)
    : result (list Q) :=
  np_iadd (map (fun t => inject_Z (dt_hour t)) stamps)
    (np_tile quarter_steps (24 * ndays)).

(** Lines 68-69: the rows of the charge type, then of the utility. *)
Definition select_charges (rate_data : list Rule) (charge_type utility_ : string)
    : list (nat * Rule) :=
  filter (fun c => String.eqb (utility (snd c)) utility_)
    (filter (fun c => String.eqb (type_ (snd c)) charge_type)
       (index_rows rate_data)).

Definition get_charge_array (consumption_data : DataFrame)
    (rate_data : list Rule) (charge_type utility_ : string) : result ndarray :=
  let ndays := (shape0 consumption_data / 96)%nat in
  let charges := select_charges rate_data charge_type utility_ in
  if String.eqb charge_type "customer" then
    OK (Plain (map (fun c => charge (snd c)) charges))
  else
    let periods := map (fun c => period (snd c)) charges in
    stamps <- get_DateTime consumption_data ;;
    let weekdays := map dt_weekday stamps in
    let months := map dt_month stamps in
    hours <- window_hours stamps ndays ;;
    if String.eqb charge_type "demand" then
      if Nat.eqb (length charges) 0
      then OK (Struct2 (ndays * 96) 1 [(0, [np_zeros (ndays * 96)])])
      else charge_table true (ndays * 96) charges periods months weekdays hours
    else if String.eqb charge_type "energy" then
      if Nat.eqb (length charges) 0
      then OK (Struct1 (ndays * 96) [(0, np_zeros (ndays * 96))])
      else charge_table false (ndays * 96) charges periods months weekdays hours
    else Raise (ValueError ("Invalid charge_type: " ++ charge_type)).

(** ** [calculate_cost] *)

(** Lines 185-196 (and 198-207): the charge of one column of one tier.
    [this] is [float(name)], [next] is [float(next_name)] when there is a
    next tier; a field name is a non-empty string, hence true in
    [if next_name and ...]. *)
Definition peak_demand (col consumption_data : list Q) : result Q :=
  prod <- mul_series consumption_data col ;;
  pos <- np_argmax prod ;;
  getitem consumption_data pos.

(** [np.max((next - this) * column)]: the full width of the tier. *)
Definition flat_charge (this nx : Q) (col : list Q) : result Q :=
  np_max (map (fun r => (nx - this) * r) col).

(** [np.max([np.max((demand - this) * column), 0])]. *)
Definition excess_charge (this demand : Q) (col : list Q) : result Q :=
  m <- np_max (map (fun r => (demand - this) * r) col) ;;
  OK (Qmaxb m 0).

Definition demand_charge (this : Q) (next : option Q)
    (col consumption_data : list Q) : result Q :=
  demand <- peak_demand col consumption_data ;;
  match next with
  | Some nx =>
      if Qlt_bool nx demand
      then flat_charge this nx col
      else excess_charge this demand col
  | None => excess_charge this demand col
  end.

(** The loop over the columns of one tier. *)
Definition demand_columns (this : Q) (next : option Q) (cols : list (list Q))
    (consumption_data : list Q) (cost : Q) : result Q :=
  for_each (fun cost col =>
              c <- demand_charge this next col consumption_data ;;
              OK (cost + c))
           cols cost.

Definition next_name {A : Type} (rest : list (Q * A)) : option Q :=
  match rest with
  | [] => None
  | f :: _ => Some (fst f)
  end.

(** Lines 177-207 on a two-dimensional table. *)
Fixpoint demand_cost2 (fields : list (Q * list (list Q)))
    (consumption_data : list Q) (cost : Q) : result Q :=
  match fields with
  | [] => OK cost
  | (name, cols) :: rest =>
      cost' <- demand_columns name (next_name rest) cols consumption_data cost ;;
      demand_cost2 rest consumption_data cost'
  end.

(** Lines 177-207 on a one-dimensional table: [shape[1]] raises
    [IndexError] before any column is billed, and the handler bills the
    field as a single column. *)
Fixpoint demand_cost1 (fields : list (Q * list Q))
    (consumption_data : list Q) (cost : Q) : result Q :=
  match fields with
  | [] => OK cost
  | (name, col) :: rest =>
      c <- demand_charge name (next_name rest) col consumption_data ;;
      demand_cost1 rest consumption_data (cost + c)
  end.

(** State of the energy scan: [cost], [energy], [start_idx] and the loop
    variable [i], unbound until the inner loop has run once. *)
Record scan_state : Type := mkScan {
  sc_cost : Q;
  sc_energy : Q;
  sc_start : nat;
  sc_i : option nat
}.

(** [np.sum((series / divisor) * rates)]. *)
Definition billed (series rates : list Q) (divisor : Q) : result Q :=
  prod <- mul_series (map (fun c => c / divisor) series) rates ;;
  OK (np_sum prod).

(** Lines 228-251: the inner loop over [i], left by [break] at the sample
    where the running total passes the next limit.  The running total is
    the exact sum of the samples; the code rounds it to binary64 at each
    addition, and the two agree on the sample that crosses whenever the
    totals are binary64 numbers ([exact_running_totals] below). *)
Fixpoint scan_tier (range : list nat) (rates consumption_data : list Q)
    (divisor next : Q) (st : scan_state) : result scan_state :=
  match range with
  | [] => OK st
  | i :: range' =>
      c <- getitem consumption_data i ;;
      let energy := sc_energy st + c in
      if Qlt_bool next (energy / divisor) then
        full <- billed (slice consumption_data (sc_start st) i)
                  (slice rates (sc_start st) i) divisor ;;
        match nth_error rates i with
        | Some rate =>
            OK (mkScan (sc_cost st + full
                        + (next - (energy - c) / divisor) * rate)
                  energy (S i) (Some i))
        | None => Raise (IndexError "index is out of bounds for axis 0")
        end
      else scan_tier range' rates consumption_data divisor next
             (mkScan (sc_cost st) energy (sc_start st) (Some i))
  end.

(** Lines 218-260: the loop over the tiers. *)
Fixpoint energy_tiers (fields : list (Q * list Q)) (consumption_data : list Q)
    (divisor : Q) (st : scan_state) : result Q :=
  match fields with
  | [] => OK (sc_cost st)
  | (name, rates) :: rest =>
      match next_name rest with
      | None =>
          rem <- billed (skipn (sc_start st) consumption_data)
                   (skipn (sc_start st) rates) divisor ;;
          OK (sc_cost st + rem)
      | Some next =>
          st' <- scan_tier
                   (seq (sc_start st) (length rates - sc_start st))
                   rates consumption_data divisor next st ;;
          match sc_i st' with
          | None => Raise (NameError "i")
          | Some i =>
              if Nat.eqb (S i) (length rates) then
                rem <- billed (skipn (sc_start st') consumption_data)
                         (skipn (sc_start st') rates) divisor ;;
                OK (sc_cost st' + rem)
              else energy_tiers rest consumption_data divisor st'
          end
      end
  end.

(** Lines 209-214. *)
Definition energy_divisor (utility_ : string) : result Q :=
  if String.eqb utility_ "electric" then OK 4
  else if String.eqb utility_ "gas" then OK 96
  else Raise (ValueError ("Invalid utility: " ++ utility_)).

(** [consumption_data] is the consumption [Series] of the window.  An array
    without fields has [names = None], and [len(names)] raises.  The energy
    path is embedded for the one-dimensional tables the resolver makes for
    energy; pandas refuses the product of a series with a two-dimensional
    field. *)
Definition calculate_cost (charges : ndarray) (consumption_data : list Q)
    (charge_type utility_ : string) : result Q :=
  if String.eqb charge_type "demand" then
    match charges with
    | Plain _ => Raise (TypeError "object of type 'NoneType' has no len()")
    | Struct1 _ fields => demand_cost1 fields consumption_data 0
    | Struct2 _ _ fields => demand_cost2 fields consumption_data 0
    end
  else if String.eqb charge_type "energy" then
    divisor <- energy_divisor utility_ ;;
    match charges with
    | Plain _ => Raise (TypeError "object of type 'NoneType' has no len()")
    | Struct1 _ fields =>
        energy_tiers fields consumption_data divisor (mkScan 0 0 0%nat None)
    | Struct2 _ _ _ => Raise (ValueError "Data must be 1-dimensional")
    end
  else Raise (ValueError ("Invalid charge_type: " ++ charge_type)).

(** ** Vocabulary of the properties *)

(** *** Exceptions *)

(** The two errors the source raises itself, by their messages. *)
Definition is_usage_error (e : exn) : bool :=
  match e with
  | ValueError msg =>
      String.prefix "Invalid charge_type: " msg
      || String.prefix "Invalid utility: " msg
  | _ => false
  end.

(** What the table construction of lines 92-134 can raise. *)
Definition is_table_error (e : exn) : bool :=
  match e with
  | IndexError _ => true
  | ValueError msg => String.eqb msg "operands could not be broadcast together"
  | _ => false
  end.

Definition resolve_types : list string :=
  ["customer"; "demand"; "energy"]%string.
Definition cost_types : list string := ["demand"; "energy"]%string.
Definition utilities : list string := ["electric"; "gas"]%string.

(** *** Windows and sheets *)

(** The timestamp column is there and has one entry per quarter hour of a
    whole number of days: the reads of lines 74-78 succeed. *)
Definition timestamps_readable (w : DataFrame) : Prop :=
  exists stamps, DateTime w = Some stamps
                 /\ length stamps = (96 * (shape0 w / 96))%nat.

(** Hour of day plus the quarter of the hour at position [k] of the window. *)
Definition fractional_hour (t : Timestamp) (k : nat) : Q :=
  inject_Z (dt_hour t) + inject_Z (Z.of_nat (k mod 4)) / 4.

(** The rules of a charge type and a utility, in the order of the sheet. *)
Definition matching_rules (rate_data : list Rule) (charge_type utility_ : string)
    : list Rule :=
  filter (fun r => String.eqb (type_ r) charge_type
                   && String.eqb (utility r) utility_) rate_data.

(** Selection on a slice of the sheet whose first row has label [start]. *)
Definition select_from (start : nat) (rows : list Rule)
    (charge_type utility_ : string) : list (nat * Rule) :=
  filter (fun c => String.eqb (utility (snd c)) utility_)
    (filter (fun c => String.eqb (type_ (snd c)) charge_type)
       (combine (seq start (length rows)) rows)).

(** Rows whose labels lie in a block of the length of [periods]. *)
Definition in_block (first : nat) (periods : list string) (c : nat * Rule)
    : Prop :=
  (first <= fst c < first + length periods)%nat.

(** *** Tables *)

(** Strictly ascending: each key is below all the later ones. *)
Definition ascending (l : list Q) : Prop := StronglySorted Qlt l.

(** Number of entries of a tier buffer. *)
Definition data_size (data : tier_data) : nat :=
  match data with
  | Data1 v => length v
  | Data2 n cols => (n * length cols)%nat
  end.

(** The table of the fallback for a charge type. *)
Definition zero_table (charge_type : string) (n : nat) : ndarray :=
  if String.eqb charge_type "demand"
  then Struct2 n 1 [(0, [np_zeros n])]
  else Struct1 n [(0, np_zeros n)].

(** *** Bills *)

(** The whole window billed sample by sample at the tier's rate. *)
Definition elementwise_bill (consumption_data rates : list Q) (divisor : Q) : Q :=
  np_sum (map (fun p => fst p / divisor * snd p) (combine consumption_data rates)).

(** Usage billed tier by tier: the part of the total below [limit] at
    [rate1], the part above at [rate2]. *)
Definition blended_bill (consumption_data : list Q) (divisor limit rate1 rate2 : Q)
    : Q :=
  let usage := np_sum consumption_data / divisor in
  if Qle_bool usage limit then usage * rate1
  else limit * rate1 + (usage - limit) * rate2.

(** What is billed, sample by sample, when the first tier's scan crosses
    the next limit at sample [i]: the samples before [i] and the part of
    sample [i] below the limit at the first tier's rates, the samples after
    [i] at the second tier's rates. *)
Definition billed_at_crossing (rates1 rates2 consumption_data : list Q)
    (divisor next : Q) (i : nat) : Q :=
  elementwise_bill (firstn i consumption_data) (firstn i rates1) divisor
  + (next - np_sum (firstn i consumption_data) / divisor) * nth i rates1 0
  + elementwise_bill (skipn (S i) consumption_data) (skipn (S i) rates2)
      divisor.

(** The part of sample [i] above the limit, at the second tier's rate. *)
Definition excess_at_crossing (rates2 consumption_data : list Q)
    (divisor next : Q) (i : nat) : Q :=
  (np_sum (firstn (S i) consumption_data) / divisor - next) * nth i rates2 0.

(** *** Worked inputs *)

(** A day of 96 quarter hours in month [m], on a Wednesday. *)
Definition example_stamps (m : Z) : list Timestamp :=
  map (fun k => mkTimestamp m 2 (Z.of_nat (k / 4))) (seq 0 96).

Definition example_window : DataFrame :=
  mkDataFrame 96 (Some (example_stamps 3)).

(** The hours of [example_window]: 0, 0.25, 0.5, ... 23.75. *)
Definition example_hours : list Q :=
  map (fun k => inject_Z (Z.of_nat (k / 4)) + inject_Z (Z.of_nat (k mod 4)) / 4)
      (seq 0 96).

(** A consumption series for [example_window]. *)
Definition example_consumption : list Q :=
  map (fun k => inject_Z (Z.of_nat k)) (seq 0 96).

(** A demand period "peak" defined on two month ranges. *)
Definition peak_first_half : Rule :=
  mkRule "electric" "demand" "peak" 0 1 6 0 24 0 6 5.
Definition peak_second_half : Rule :=
  mkRule "electric" "demand" "peak" 0 7 12 0 24 0 6 7.

(** A second tier of the demand rate, with a morning and an afternoon
    period. *)
Definition morning_high : Rule :=
  mkRule "electric" "demand" "morning" 100 1 12 0 12 0 6 5.
Definition afternoon_high : Rule :=
  mkRule "electric" "demand" "afternoon" 100 1 12 12 24 0 6 3.

(** An energy rate in two tiers, at 0 and at 100. *)
Definition energy_low : Rule :=
  mkRule "electric" "energy" "all" 0 1 12 0 24 0 6 (1 # 10).
Definition energy_high : Rule :=
  mkRule "electric" "energy" "all" 100 1 12 0 24 0 6 (2 # 10).

(** The worked example of the energy scan: tiers at 0 and 1.0 with rates 1
    and 2, three samples. *)
Definition two_tier_table : ndarray :=
  Struct1 3 [(0, [1; 1; 1]); (1, [2; 2; 2])].

(** A demand rate in two tiers: two periods in the tier at 0 and, in the
    tier at 100, a period "peak" defined on two ranges of hours. *)
Definition off_low : Rule :=
  mkRule "electric" "demand" "off" 0 1 12 0 12 0 6 2.
Definition mid_low : Rule :=
  mkRule "electric" "demand" "mid" 0 1 12 12 24 0 6 3.
Definition peak_a : Rule :=
  mkRule "electric" "demand" "peak" 100 1 12 8 12 0 6 5.
Definition peak_b : Rule :=
  mkRule "electric" "demand" "peak" 100 1 12 16 20 0 6 5.

(** *** Binary floating point *)

(** The finite numbers of IEEE 754 binary64, the [float] of Python and the
    [float64] of numpy: an integer of at most 53 bits times a power of two
    of the format's range. *)
Definition binary64 (q : Q) : Prop :=
  exists m e : Z,
    (Z.abs m < 2 ^ 53)%Z /\ (-1074 <= e <= 971)%Z /\ q == inject_Z m * 2 ^ e.

(** The running totals of the first [n] samples and their quotients by the
    divisor are binary64 numbers.  The sums of line 229 and the divisions
    of line 230 are then exact, and the test of the code, made on the
    rounded running total, is the test on the exact one. *)
Definition exact_running_totals (consumption_data : list Q) (divisor : Q)
    (n : nat) : Prop :=
  forall k, (k < n)%nat ->
    binary64 (np_sum (firstn (S k) consumption_data))
    /\ binary64 (np_sum (firstn (S k) consumption_data) / divisor).

(** ** [last_day_of_month] and the body of the month loop *)

(** A [datetime.datetime]: a date of the proleptic Gregorian calendar and a
    time of day. *)
Record datetime : Type := mkDatetime {
  d_year : Z;
  d_month : Z;
  d_day : Z;
  d_hour : Z;
  d_minute : Z;
  d_second : Z
}.

(** [datetime.MAXYEAR]. *)
Definition MAXYEAR : Z := 9999.

Definition is_leap (y : Z) : bool :=
  (y mod 4 =? 0)%Z && (negb (y mod 100 =? 0)%Z || (y mod 400 =? 0)%Z).

Definition days_in_month (y m : Z) : Z :=
  if (m =? 2)%Z then (if is_leap y then 29 else 28)%Z
  else if (m =? 4)%Z || (m =? 6)%Z || (m =? 9)%Z || (m =? 11)%Z then 30%Z
  else 31%Z.

(** A datetime the constructor accepts. *)
Definition valid_datetime (d : datetime) : Prop :=
  (1 <= d_year d <= MAXYEAR)%Z /\ (1 <= d_month d <= 12)%Z
  /\ (1 <= d_day d <= days_in_month (d_year d) (d_month d))%Z
  /\ (0 <= d_hour d <= 23)%Z /\ (0 <= d_minute d <= 59)%Z
  /\ (0 <= d_second d <= 59)%Z.

(** The same time on the following day; [None] is
    [OverflowError("date value out of range")], past the last year. *)
Definition next_day (d : datetime) : option datetime :=
  if (d_day d <? days_in_month (d_year d) (d_month d))%Z then
    Some (mkDatetime (d_year d) (d_month d) (d_day d + 1)
            (d_hour d) (d_minute d) (d_second d))
  else if (d_month d <? 12)%Z then
    Some (mkDatetime (d_year d) (d_month d + 1) 1
            (d_hour d) (d_minute d) (d_second d))
  else if (d_year d <? MAXYEAR)%Z then
    Some (mkDatetime (d_year d + 1) 1 1 (d_hour d) (d_minute d) (d_second d))
  else None.

(** The same time on the day before; [None] before the first year. *)
Definition prev_day (d : datetime) : option datetime :=
  if (1 <? d_day d)%Z then
    Some (mkDatetime (d_year d) (d_month d) (d_day d - 1)
            (d_hour d) (d_minute d) (d_second d))
  else if (1 <? d_month d)%Z then
    Some (mkDatetime (d_year d) (d_month d - 1)
            (days_in_month (d_year d) (d_month d - 1))
            (d_hour d) (d_minute d) (d_second d))
  else if (1 <? d_year d)%Z then
    Some (mkDatetime (d_year d - 1) 12 31 (d_hour d) (d_minute d) (d_second d))
  else None.

(** [d + timedelta(days=n)] and [d - timedelta(days=n)], a day at a time. *)
Fixpoint add_days (n : nat) (d : datetime) : option datetime :=
  match n with
  | O => Some d
  | S n' => match next_day d with
            | Some d' => add_days n' d'
            | None => None
            end
  end.

Fixpoint sub_days (n : nat) (d : datetime) : option datetime :=
  match n with
  | O => Some d
  | S n' => match prev_day d with
            | Some d' => sub_days n' d'
            | None => None
            end
  end.

(** [d.replace(day=28)]: every month has a 28th, so it does not raise. *)
Definition replace_day_28 (d : datetime) : datetime :=
  mkDatetime (d_year d) (d_month d) 28 (d_hour d) (d_minute d) (d_second d).

(** Lines 267-272. *)
Definition last_day_of_month (any_day : datetime) : option datetime :=
  match add_days 4 (replace_day_28 any_day) with
  | Some next_month => sub_days (Z.to_nat (d_day next_month)) next_month
  | None => None
  end.

(** [d + timedelta(hours=h, minutes=m)] for a delta that is not negative:
    the seconds of the day are added up and the whole days carried. *)
Definition add_hours_minutes (h m : Z) (d : datetime) : option datetime :=
  let total :=
    (d_hour d * 3600 + d_minute d * 60 + d_second d + h * 3600 + m * 60)%Z in
  let secs := (total mod 86400)%Z in
  add_days (Z.to_nat (total / 86400))
    (mkDatetime (d_year d) (d_month d) (d_day d)
       (secs / 3600) (secs mod 3600 / 60) (secs mod 60)).

(** Lines 291-293: [month_start] and [month_end] of the loop, the first and
    the last quarter hour of a month of the billing year. *)
Definition loop_month_start (year month : Z) : datetime :=
  mkDatetime year month 1 0 0 0.

Definition loop_month_end (year month : Z) : option datetime :=
  match last_day_of_month (mkDatetime year month 1 0 0 0) with
  | Some d => add_hours_minutes 23 45 d
  | None => None
  end.

(** [np.sum] of the array of customer charges; numpy does not reduce a
    structured array. *)
Definition np_sum_array (a : ndarray) : result Q :=
  match a with
  | Plain vals => OK (np_sum vals)
  | _ => Raise (TypeError "cannot perform reduce with flexible type")
  end.

(** The six costs of one month (the dictionary [cost]). *)
Record month_cost : Type := mkMonthCost {
  electric_customer : Q;
  electric_demand : Q;
  electric_energy : Q;
  gas_customer : Q;
  gas_demand : Q;
  gas_energy : Q
}.

(** Lines 296-365: the body of the month loop on the window of the month,
    [window] being [energy_df.loc[start_idx:end_idx]] and [elec], [gas] its
    two consumption columns. *)
Definition month_costs (window : DataFrame) (elec gas : list Q)
    (rate_df : list Rule) : result month_cost :=
  electric_customer_charges <-
    get_charge_array window rate_df "customer" "electric" ;;
  electric_demand_charges <-
    get_charge_array window rate_df "demand" "electric" ;;
  electric_energy_charges <-
    get_charge_array window rate_df "energy" "electric" ;;
  gas_customer_charges <- get_charge_array window rate_df "customer" "gas" ;;
  gas_energy_charges <- get_charge_array window rate_df "energy" "gas" ;;
  gas_demand_charges <- get_charge_array window rate_df "demand" "gas" ;;
  electric_customer_cost <- np_sum_array electric_customer_charges ;;
  gas_customer_cost <- np_sum_array gas_customer_charges ;;
  electric_demand_cost <-
    calculate_cost electric_demand_charges elec "demand" "electric" ;;
  electric_energy_cost <-
    calculate_cost electric_energy_charges elec "energy" "electric" ;;
  gas_demand_cost <- calculate_cost gas_demand_charges gas "demand" "gas" ;;
  gas_energy_cost <- calculate_cost gas_energy_charges gas "energy" "gas" ;;
  OK (mkMonthCost electric_customer_cost electric_demand_cost
        electric_energy_cost gas_customer_cost gas_demand_cost
        gas_energy_cost).

(** *** Outcomes and tables of the further properties *)

(** Two outcomes that agree: the same exception, or costs that are equal
    as numbers. *)
Definition same_outcome (r1 r2 : result Q) : Prop :=
  match r1, r2 with
  | OK a, OK b => a == b
  | Raise e1, Raise e2 => e1 = e2
  | _, _ => False
  end.

(** A one-dimensional table read as a table of one column per tier. *)
Definition as_single_columns (fields : list (Q * list Q))
    : list (Q * list (list Q)) :=
  map (fun f => (fst f, [snd f])) fields.

(** No rate of the table is negative. *)
Definition nonneg_entries (fields : list (Q * list (list Q))) : Prop :=
  Forall (fun f => Forall (fun col => Forall (fun r => 0 <= r) col) (snd f))
    fields.

(** Every column of the table has one entry per sample. *)
Definition columns_aligned (fields : list (Q * list (list Q))) (n : nat) : Prop :=
  Forall (fun f => Forall (fun col : list Q => length col = n) (snd f)) fields.

(** Number of rows of the window that [get_charge_array] fills:
    [ndays * 96]. *)
Definition window_rows (w : DataFrame) : nat := (shape0 w / 96 * 96)%nat.

(** Every field of a one-dimensional table has one entry per row. *)
Definition fields_aligned (fields : list (Q * list Q)) (n : nat) : Prop :=
  Forall (fun f => length (snd f) = n) fields.

(** Every field of a two-dimensional table has [k] columns. *)
Definition fields_of_width (fields : list (Q * list (list Q))) (k : nat) : Prop :=
  Forall (fun f => length (snd f) = k) fields.

(** The rules of a tier, and their number. *)
Definition tier_rules (rules : list Rule) (limit : Q) : list Rule :=
  filter (fun r => Qeq_bool (basic_charge_limit r) limit) rules.

Definition rules_in_tier (rules : list Rule) (limit : Q) : nat :=
  length (tier_rules rules limit).

(** What a rule contributes at a timestamp: its rate where it applies. *)
Definition rule_rate (r : Rule) (t : Timestamp) (k : nat) : Q :=
  if applies r (dt_month t) (dt_weekday t) (fractional_hour t k)
  then charge r else 0.

(** The rates of the rules of a tier that apply at a timestamp, summed. *)
Definition tier_rate (rules : list Rule) (limit : Q) (t : Timestamp) (k : nat)
    : Q :=
  np_sum (map (fun r => rule_rate r t k) (tier_rules rules limit)).

(** What the demand loop of a tier keeps: columns of [n] entries, and
    recorded masks of [n] entries. *)
Definition demand_state_ok (n : nat) (st : list (list Q) * periods_seen_t)
    : Prop :=
  Forall (fun col : list Q => length col = n) (fst st)
  /\ Forall (fun e => length (snd (snd e)) = n) (snd st).

(** The fields of a one-dimensional table. *)
Definition struct1_fields (a : ndarray) : list (Q * list Q) :=
  match a with
  | Struct1 _ fields => fields
  | _ => []
  end.

(** *** Columns in a table *)

(** The peak of the consumption over the timestamps where a mask holds: it
    is read at a timestamp of the mask and exceeded at none of them. *)
Definition restricted_peak (mask : list bool) (consumption_data : list Q)
    (peak : Q) : Prop :=
  (exists pos, nth_error mask pos = Some true
               /\ nth_error consumption_data pos = Some peak)
  /\ forall j c, nth_error mask j = Some true ->
                 nth_error consumption_data j = Some c -> c <= peak.

(** The second outcome is the first with [d] more on the cost: the same
    exception, or a cost higher by [d]. *)
Definition outcome_plus (d : Q) (r1 r2 : result Q) : Prop :=
  match r1, r2 with
  | OK a, OK b => b == a + d
  | Raise e1, Raise e2 => e1 = e2
  | _, _ => False
  end.

(** The fields of a two-dimensional table. *)
Definition struct2_fields (a : ndarray) : list (Q * list (list Q)) :=
  match a with
  | Struct2 _ _ fields => fields
  | _ => []
  end.

(** A column as the demand loop of a tier leaves it: zero as allocated,
    the mask of a rule of the tier times the charge of the rule, or the
    mask of a rule [r] joined to the mask recorded for another rule [r1]
    of the tier, times the charge of [r]. *)
Definition written_column (months weekdays : list Z) (hours : list Q)
    (n : nat) (rules : list Rule) (col : list Q) : Prop :=
  col = np_zeros n
  \/ (exists r,
        In r rules
        /\ col = mask_times (apply_charge_mask months weekdays hours r)
                   (charge r))
  \/ (exists r r1,
        In r rules /\ In r1 rules
        /\ col = mask_times
                   (mask_or (apply_charge_mask months weekdays hours r)
                      (apply_charge_mask months weekdays hours r1))
                   (charge r)).

(** * Properties *)

(** ** The result monad *)

Lemma bind_OK_inv {A B : Type} (c : result A) (k : A -> result B) (b : B) :
  bind c k = OK b -> exists a, c = OK a /\ k a = OK b.
Proof.
  destruct c as [a|e]; simpl; [eauto | discriminate].
Qed.

Lemma bind_Raise_inv {A B : Type} (c : result A) (k : A -> result B) (e : exn) :
  bind c k = Raise e -> c = Raise e \/ exists a, c = OK a /\ k a = Raise e.
Proof.
  destruct c as [a|e']; simpl; intros H; [right; eauto | left; congruence].
Qed.

Lemma for_each_raise {S A : Type} (P : exn -> Prop)
    (body : S -> A -> result S) :
  (forall s x e, body s x = Raise e -> P e) ->
  forall l s e, for_each body l s = Raise e -> P e.
Proof.
  intros Hbody l; induction l as [|x l IH]; simpl; intros s e H.
  - discriminate.
  - apply bind_Raise_inv in H as [H | (s' & _ & H)]; eauto.
Qed.

Lemma for_each_app {S A : Type} (body : S -> A -> result S) (l1 l2 : list A)
    (s : S) :
  for_each body (l1 ++ l2) s = (s' <- for_each body l1 s ;; for_each body l2 s').
Proof.
  revert s; induction l1 as [|x l1 IH]; simpl; intros s; [reflexivity|].
  destruct (body s x); simpl; auto.
Qed.

Lemma for_each_invariant {S A : Type} (P : S -> Prop)
    (body : S -> A -> result S) :
  (forall s x s', P s -> body s x = OK s' -> P s') ->
  forall l s s', P s -> for_each body l s = OK s' -> P s'.
Proof.
  intros Hbody l; induction l as [|x l IH]; simpl; intros s s' Hs H.
  - injection H as <-; exact Hs.
  - apply bind_OK_inv in H as (s1 & H1 & H); eauto.
Qed.

Lemma for_each_total {S A : Type} (P : S -> Prop) (Q : A -> Prop)
    (body : S -> A -> result S) :
  (forall s x, P s -> Q x -> exists s', body s x = OK s' /\ P s') ->
  forall l s, P s -> Forall Q l -> exists s', for_each body l s = OK s' /\ P s'.
Proof.
  intros Hbody l; induction l as [|x l IH]; simpl; intros s Hs Hl.
  - eauto.
  - inversion Hl as [|? ? Hx Hrest]; subst.
    destruct (Hbody s x Hs Hx) as (s1 & H1 & Hs1).
    rewrite H1; cbn [bind]; auto.
Qed.

Ltac split_raise H :=
  repeat match type of H with
         | bind _ _ = Raise _ =>
             apply bind_Raise_inv in H as [H | (? & _ & H)]
         end.

(** ** Comparisons on rationals *)

Lemma Qlt_bool_iff (a b : Q) : Qlt_bool a b = true <-> a < b.
Proof.
  unfold Qlt_bool; rewrite negb_true_iff.
  split; intros H.
  - apply Qnot_le_lt; intros Hle; apply Qle_bool_iff in Hle; congruence.
  - destruct (Qle_bool b a) eqn:E; [|reflexivity].
    apply Qle_bool_iff in E; apply Qle_not_lt in E; contradiction.
Qed.

Lemma Qlt_bool_false_iff (a b : Q) : Qlt_bool a b = false <-> b <= a.
Proof.
  unfold Qlt_bool; rewrite negb_false_iff; apply Qle_bool_iff.
Qed.

Lemma Qle_bool_false_iff (a b : Q) : Qle_bool a b = false <-> b < a.
Proof.
  rewrite <- Qlt_bool_iff; unfold Qlt_bool.
  destruct (Qle_bool a b); simpl; intuition congruence.
Qed.

Lemma Qlt_bool_compat (a b a' b' : Q) :
  a == a' -> b == b' -> Qlt_bool a b = Qlt_bool a' b'.
Proof.
  intros Ha Hb.
  destruct (Qlt_bool a' b') eqn:E.
  - apply Qlt_bool_iff; apply Qlt_bool_iff in E; rewrite Ha, Hb; exact E.
  - apply Qlt_bool_false_iff; apply Qlt_bool_false_iff in E.
    rewrite Ha, Hb; exact E.
Qed.

Lemma Qmaxb_spec (a b : Q) :
  (a <= b /\ Qmaxb a b = b) \/ (b < a /\ Qmaxb a b = a).
Proof.
  unfold Qmaxb; destruct (Qle_bool a b) eqn:E.
  - left; split; [apply Qle_bool_iff; exact E | reflexivity].
  - right; split; [apply Qle_bool_false_iff; exact E | reflexivity].
Qed.

(** ** Arrays *)

Lemma np_max_spec (l : list Q) :
  l <> [] ->
  exists m, np_max l = OK m /\ In m l /\ Forall (fun x => x <= m) l.
Proof.
  induction l as [|x [|y l] IH]; intros Hne; [congruence| |].
  - exists x; simpl; repeat split; auto.
    constructor; [apply Qle_refl | constructor].
  - destruct IH as (m & Hm & Hin & Hall); [discriminate|].
    change (np_max (x :: y :: l))
      with (m' <- np_max (y :: l) ;; OK (Qmaxb x m')).
    rewrite Hm; cbn [bind]; eexists; split; [reflexivity|].
    destruct (Qmaxb_spec x m) as [(Hle & ->) | (Hlt & ->)].
    + split; [right; exact Hin|].
      constructor; [exact Hle | exact Hall].
    + split; [left; reflexivity|].
      constructor; [apply Qle_refl|].
      eapply Forall_impl; [|exact Hall].
      intros a Ha; simpl in Ha; lra.
Qed.

Lemma np_max_constant (l : list Q) (v : Q) :
  l <> [] -> Forall (fun x => x == v) l ->
  exists m, np_max l = OK m /\ m == v.
Proof.
  induction l as [|x [|y l] IH]; intros Hne Hall; [congruence| |].
  - inversion Hall; subst; simpl; eauto.
  - inversion Hall as [|? ? Hx Hrest]; subst.
    destruct IH as (m & Hm & Hv); [discriminate | exact Hrest|].
    change (np_max (x :: y :: l))
      with (m' <- np_max (y :: l) ;; OK (Qmaxb x m')).
    rewrite Hm; cbn [bind]; eexists; split; [reflexivity|].
    destruct (Qmaxb_spec x m) as [(_ & ->) | (_ & ->)]; assumption.
Qed.

Lemma argmax_from_bound (l : list Q) (i : nat) (best : nat * Q) :
  (fst best < i)%nat ->
  (fst (argmax_from l i best) < i + length l)%nat.
Proof.
  revert i best; induction l as [|x l IH]; simpl; intros i best Hb; [lia|].
  replace (i + S (length l))%nat with (S i + length l)%nat by lia.
  apply IH; destruct (Qlt_bool (snd best) x); simpl; lia.
Qed.

Lemma np_argmax_bound (l : list Q) (pos : nat) :
  np_argmax l = OK pos -> (pos < length l)%nat.
Proof.
  destruct l as [|x l]; simpl; intros H; [discriminate|].
  injection H as <-.
  pose proof (argmax_from_bound l 1 (0%nat, x)) as Hb; simpl in Hb; lia.
Qed.

Lemma getitem_OK (s : list Q) (i : nat) :
  (i < length s)%nat -> exists x, getitem s i = OK x /\ nth_error s i = Some x.
Proof.
  intros Hi; unfold getitem.
  destruct (nth_error s i) as [x|] eqn:E.
  - destruct s; [simpl in Hi; lia | eauto].
  - apply nth_error_None in E; lia.
Qed.

Lemma np_iadd_length (a b v : list Q) :
  np_iadd a b = OK v -> length v = length a.
Proof.
  unfold np_iadd; destruct (Nat.eqb_spec (length a) (length b)) as [E|];
    [|discriminate].
  intros H; injection H as <-.
  rewrite length_map, length_combine; lia.
Qed.

Lemma np_sum_app (l1 l2 : list Q) :
  np_sum (l1 ++ l2) == np_sum l1 + np_sum l2.
Proof.
  unfold np_sum; induction l1 as [|x l1 IH]; cbn [app fold_right]; [ring|].
  rewrite IH; ring.
Qed.

Lemma np_sum_prefix_S (l : list Q) (k : nat) (c : Q) :
  nth_error l k = Some c ->
  np_sum (firstn (S k) l) == np_sum (firstn k l) + c.
Proof.
  revert k; induction l as [|x l IH]; intros [|k] H; simpl in H;
    try discriminate.
  - injection H as ->; simpl; ring.
  - change (np_sum (firstn (S (S k)) (x :: l)))
      with (x + np_sum (firstn (S k) l)).
    change (np_sum (firstn (S k) (x :: l))) with (x + np_sum (firstn k l)).
    rewrite (IH k H); ring.
Qed.

Lemma length_slice {A : Type} (l : list A) (lo hi : nat) :
  length (slice l lo hi) = Nat.min (hi - lo) (length l - lo).
Proof.
  unfold slice; rewrite length_firstn, length_skipn; reflexivity.
Qed.

Lemma length_np_tile {A : Type} (a : list A) (reps : nat) :
  length (np_tile a reps) = (reps * length a)%nat.
Proof.
  induction reps as [|r IH]; simpl; [reflexivity|].
  rewrite length_app, IH; reflexivity.
Qed.

Lemma nth_error_np_tile {A : Type} (a : list A) (reps k : nat) :
  (k < reps * length a)%nat ->
  nth_error (np_tile a reps) k = nth_error a (k mod length a).
Proof.
  revert k; induction reps as [|r IH]; simpl; intros k Hk; [lia|].
  destruct (Nat.lt_ge_cases k (length a)) as [Hlt|Hge].
  - rewrite nth_error_app1 by exact Hlt.
    rewrite Nat.mod_small by exact Hlt; reflexivity.
  - rewrite nth_error_app2 by exact Hge.
    rewrite IH by lia; f_equal.
    replace k with ((k - length a) + 1 * length a)%nat at 2 by lia.
    rewrite Nat.Div0.mod_add; reflexivity.
Qed.

Lemma nth_error_combine {A B : Type} (l1 : list A) (l2 : list B) (k : nat) :
  nth_error (combine l1 l2) k
  = match nth_error l1 k, nth_error l2 k with
    | Some a, Some b => Some (a, b)
    | _, _ => None
    end.
Proof.
  revert l2 k; induction l1 as [|a l1 IH]; intros [|b l2] [|k]; simpl;
    try reflexivity.
  - destruct (nth_error l1 k); reflexivity.
  - apply IH.
Qed.

Lemma index_min_In (labels : list nat) :
  labels <> [] -> In (index_min labels) labels.
Proof.
  destruct labels as [|l ls]; [congruence|]; intros _; simpl.
  revert l; induction ls as [|x ls IH]; simpl; intros l; [auto|].
  destruct (IH (Nat.min l x)) as [H|H]; [|right; right; exact H].
  rewrite <- H.
  destruct (Nat.min_spec l x) as [(_ & E)|(_ & E)]; rewrite E; auto.
Qed.

Lemma Forall_firstn_repeat (r : Q) (n k : nat) :
  Forall (fun x => x = r) (firstn k (repeat r n)).
Proof.
  apply Forall_forall; intros x Hx.
  apply (repeat_spec n r x).
  rewrite <- (firstn_skipn k (repeat r n)); apply in_or_app; left; exact Hx.
Qed.

Lemma Forall_skipn_repeat (r : Q) (n k : nat) :
  Forall (fun x => x = r) (skipn k (repeat r n)).
Proof.
  apply Forall_forall; intros x Hx.
  apply (repeat_spec n r x).
  rewrite <- (firstn_skipn k (repeat r n)); apply in_or_app; right; exact Hx.
Qed.

(** ** Which exceptions a path can raise *)

Lemma prefix_app (s t : string) : String.prefix s (s ++ t) = true.
Proof.
  induction s as [|c s IH]; simpl.
  - destruct t; reflexivity.
  - destruct (Ascii.ascii_dec c c); [exact IH | congruence].
Qed.

Lemma usage_error_charge_type (s : string) :
  is_usage_error (ValueError ("Invalid charge_type: " ++ s)) = true.
Proof.
  unfold is_usage_error; rewrite prefix_app; reflexivity.
Qed.

Lemma usage_error_utility (s : string) :
  is_usage_error (ValueError ("Invalid utility: " ++ s)) = true.
Proof.
  unfold is_usage_error; rewrite (prefix_app "Invalid utility: " s).
  apply orb_true_r.
Qed.

Lemma table_error_not_usage (e : exn) :
  is_table_error e = true -> is_usage_error e = false.
Proof.
  destruct e as [msg| | | |]; simpl; try reflexivity.
  intros H; apply String.eqb_eq in H; subst msg; reflexivity.
Qed.

Lemma np_iadd_raise (a b : list Q) (e : exn) :
  np_iadd a b = Raise e -> e = shape_error.
Proof.
  unfold np_iadd; destruct (Nat.eqb _ _); congruence.
Qed.

Lemma get_period_raise (periods : list string) (i : nat) (e : exn) :
  get_period periods i = Raise e -> is_table_error e = true.
Proof.
  unfold get_period; destruct (nth_error _ _); [discriminate|].
  intros H; injection H as <-; reflexivity.
Qed.

Lemma set_column_raise (cols : list (list Q)) (i : nat) (v : list Q) (e : exn) :
  set_column cols i v = Raise e -> is_table_error e = true.
Proof.
  unfold set_column; destruct (_ <? _)%nat; [discriminate|].
  intros H; injection H as <-; reflexivity.
Qed.

Lemma demand_rule_step_raise periods months weekdays hours base st row e :
  demand_rule_step periods months weekdays hours base st row = Raise e ->
  is_table_error e = true.
Proof.
  unfold demand_rule_step; intros H.
  apply bind_Raise_inv in H as [H | (p & _ & H)];
    [eapply get_period_raise; eauto|].
  destruct (seen_lookup p (snd st)) as [[col mask]|];
    apply bind_Raise_inv in H as [H | (cols & _ & H)];
    try discriminate; eapply set_column_raise; eauto.
Qed.

Lemma energy_rule_step_raise periods months weekdays hours base data row e :
  energy_rule_step periods months weekdays hours base data row = Raise e ->
  is_table_error e = true.
Proof.
  unfold energy_rule_step; intros H.
  apply bind_Raise_inv in H as [H | (p & _ & H)];
    [eapply get_period_raise; eauto|].
  apply np_iadd_raise in H; subst e; reflexivity.
Qed.

Lemma tier_buffer_raise is_demand nrows charges periods months weekdays hours
    limit e :
  tier_buffer is_demand nrows charges periods months weekdays hours limit
    = Raise e ->
  is_table_error e = true.
Proof.
  unfold tier_buffer; destruct is_demand; intros H;
    apply bind_Raise_inv in H as [H | (x & _ & H)]; try discriminate.
  - eapply (for_each_raise (fun e => is_table_error e = true)); [|exact H].
    intros s x e'; apply demand_rule_step_raise.
  - eapply (for_each_raise (fun e => is_table_error e = true)); [|exact H].
    intros s x e'; apply energy_rule_step_raise.
Qed.

Lemma add_field_raise charge_array limit data e :
  add_field charge_array limit data = Raise e -> e = shape_error.
Proof.
  unfold add_field.
  destruct (Nat.eqb (size charge_array) 0).
  - destruct data; discriminate.
  - destruct charge_array as [vals|n fields|n k fields], data as [v|n' cols];
      try congruence.
    + destruct (Nat.eqb _ _); congruence.
    + destruct (Nat.eqb n' n); [|congruence].
      destruct (Nat.eqb _ _); [congruence|].
      destruct cols as [|c [|c' cols]]; congruence.
Qed.

Lemma charge_table_raise is_demand nrows charges periods months weekdays hours e :
  charge_table is_demand nrows charges periods months weekdays hours = Raise e ->
  is_table_error e = true.
Proof.
  unfold charge_table.
  apply (for_each_raise (fun e => is_table_error e = true)); intros s x e' H.
  apply bind_Raise_inv in H as [H | (d & _ & H)].
  - eapply tier_buffer_raise; eauto.
  - apply add_field_raise in H; subst e'; reflexivity.
Qed.

Lemma np_max_raise (l : list Q) (e : exn) :
  np_max l = Raise e -> is_usage_error e = false.
Proof.
  induction l as [|x [|y l] IH]; simpl; intros H.
  - injection H as <-; reflexivity.
  - discriminate.
  - split_raise H; [auto | discriminate].
Qed.

Lemma mul_series_raise (s a : list Q) (e : exn) :
  mul_series s a = Raise e -> e = shape_error.
Proof.
  unfold mul_series; destruct (Nat.eqb _ _); [discriminate|].
  destruct a as [|x [|y a]]; congruence.
Qed.

Lemma np_argmax_raise (l : list Q) (e : exn) :
  np_argmax l = Raise e -> is_usage_error e = false.
Proof.
  destruct l; simpl; intros H; [injection H as <-; reflexivity | discriminate].
Qed.

Lemma getitem_raise (s : list Q) (i : nat) (e : exn) :
  getitem s i = Raise e -> is_usage_error e = false.
Proof.
  unfold getitem; destruct s; [intros H; injection H as <-; reflexivity|].
  destruct (nth_error _ _); [discriminate|].
  intros H; injection H as <-; reflexivity.
Qed.

Lemma demand_charge_raise this next col consumption_data e :
  demand_charge this next col consumption_data = Raise e ->
  is_usage_error e = false.
Proof.
  unfold demand_charge, peak_demand, flat_charge, excess_charge; intros H.
  split_raise H.
  - apply mul_series_raise in H; subst e; reflexivity.
  - eapply np_argmax_raise; eauto.
  - eapply getitem_raise; eauto.
  - destruct next as [nx|]; [destruct (Qlt_bool _ _)|]; split_raise H;
      try discriminate; eapply np_max_raise; eauto.
Qed.

Lemma demand_cost2_raise fields consumption_data cost e :
  demand_cost2 fields consumption_data cost = Raise e ->
  is_usage_error e = false.
Proof.
  revert cost; induction fields as [|[name cols] rest IH]; simpl; intros cost H.
  - discriminate.
  - split_raise H; [|eauto].
    unfold demand_columns in H.
    eapply (for_each_raise (fun e => is_usage_error e = false)); [|exact H].
    intros s x e' H'; cbv beta in H'; split_raise H'; [|discriminate].
    eapply demand_charge_raise; eauto.
Qed.

Lemma demand_cost1_raise fields consumption_data cost e :
  demand_cost1 fields consumption_data cost = Raise e ->
  is_usage_error e = false.
Proof.
  revert cost; induction fields as [|[name col] rest IH]; simpl; intros cost H.
  - discriminate.
  - split_raise H; [|eauto].
    eapply demand_charge_raise; eauto.
Qed.

Lemma billed_raise series rates divisor e :
  billed series rates divisor = Raise e -> is_usage_error e = false.
Proof.
  unfold billed; intros H; split_raise H; [|discriminate].
  apply mul_series_raise in H; subst e; reflexivity.
Qed.

Lemma scan_tier_raise range rates consumption_data divisor next st e :
  scan_tier range rates consumption_data divisor next st = Raise e ->
  is_usage_error e = false.
Proof.
  revert st; induction range as [|i range IH]; simpl; intros st H.
  - discriminate.
  - split_raise H; [eapply getitem_raise; eauto|].
    destruct (Qlt_bool _ _); [|eauto].
    split_raise H; [eapply billed_raise; eauto|].
    destruct (nth_error rates i); [discriminate|].
    injection H as <-; reflexivity.
Qed.

Lemma energy_tiers_raise fields consumption_data divisor st e :
  energy_tiers fields consumption_data divisor st = Raise e ->
  is_usage_error e = false.
Proof.
  revert st; induction fields as [|[name rates] rest IH]; simpl; intros st H.
  - discriminate.
  - destruct (next_name rest) as [next|].
    + split_raise H; [eapply scan_tier_raise; eauto|].
      destruct (sc_i _) as [i|]; [|injection H as <-; reflexivity].
      match type of H with (if ?c then _ else _) = _ => destruct c end;
        [|eauto].
      split_raise H; [eapply billed_raise; eauto | discriminate].
    + split_raise H; [eapply billed_raise; eauto | discriminate].
Qed.

(** ** The hours of the window *)

Lemma window_hours_OK (stamps : list Timestamp) (ndays : nat) :
  length stamps = (96 * ndays)%nat ->
  exists hours, window_hours stamps ndays = OK hours
                /\ length hours = length stamps.
Proof.
  intros Hlen; unfold window_hours, np_iadd.
  rewrite length_map, length_np_tile.
  replace (length quarter_steps) with 4%nat by reflexivity.
  replace (24 * ndays * 4)%nat with (length stamps) by lia.
  rewrite Nat.eqb_refl; eexists; split; [reflexivity|].
  rewrite length_map, length_combine, length_map, length_np_tile.
  replace (length quarter_steps) with 4%nat by reflexivity. lia.
Qed.

Lemma window_hours_raise (stamps : list Timestamp) (ndays : nat) (e : exn) :
  window_hours stamps ndays = Raise e ->
  e = shape_error /\ length stamps <> (96 * ndays)%nat.
Proof.
  intros H; split; [eapply np_iadd_raise; exact H|].
  intros Hlen; destruct (window_hours_OK stamps ndays Hlen) as (h & Hh & _).
  congruence.
Qed.

Lemma window_hours_OK_inv (stamps : list Timestamp) (ndays : nat)
    (hours : list Q) :
  window_hours stamps ndays = OK hours ->
  length stamps = (96 * ndays)%nat /\ length hours = length stamps.
Proof.
  intros H.
  destruct (Nat.eq_dec (length stamps) (96 * ndays)) as [E|E].
  - split; [exact E|].
    destruct (window_hours_OK stamps ndays E) as (h & Hh & Hl); congruence.
  - unfold window_hours, np_iadd in H.
    rewrite length_map, length_np_tile in H.
    change (length quarter_steps) with 4%nat in H.
    destruct (Nat.eqb_spec (length stamps) (24 * ndays * 4));
      [lia | discriminate].
Qed.

Lemma nth_error_quarter_steps (j : nat) :
  (j < 4)%nat ->
  nth_error quarter_steps j = Some (inject_Z (Z.of_nat j) / 4).
Proof.
  intros Hj; destruct j as [|[|[|[|j]]]]; try reflexivity; lia.
Qed.

Lemma window_hours_nth (stamps : list Timestamp) (ndays : nat) (hours : list Q)
    (k : nat) (t : Timestamp) :
  window_hours stamps ndays = OK hours ->
  nth_error stamps k = Some t ->
  nth_error hours k = Some (fractional_hour t k).
Proof.
  unfold window_hours, np_iadd; intros H Hk.
  rewrite length_map, length_np_tile in H.
  destruct (Nat.eqb_spec (length stamps) (24 * ndays * length quarter_steps))
    as [Hlen|]; [|discriminate].
  injection H as <-.
  assert (Hlt : (k < length stamps)%nat)
    by (apply nth_error_Some; congruence).
  rewrite nth_error_map, nth_error_combine, nth_error_map, Hk.
  rewrite nth_error_np_tile by lia.
  change (length quarter_steps) with 4%nat.
  rewrite nth_error_quarter_steps by (apply Nat.mod_upper_bound; lia).
  reflexivity.
Qed.

(** ** The rows a call selects *)

Lemma map_snd_filter {A B : Type} (f : B -> bool) (l : list (A * B)) :
  map snd (filter (fun c => f (snd c)) l) = filter f (map snd l).
Proof.
  induction l as [|[a b] l IH]; simpl; [reflexivity|].
  destruct (f b); simpl; rewrite IH; reflexivity.
Qed.

Lemma map_snd_labelled (rows : list Rule) (start : nat) :
  map snd (combine (seq start (length rows)) rows) = rows.
Proof.
  revert start; induction rows as [|r l IH]; simpl; intros n; [reflexivity|].
  rewrite IH; reflexivity.
Qed.

Lemma map_snd_index_rows (rate_data : list Rule) :
  map snd (index_rows rate_data) = rate_data.
Proof.
  apply map_snd_labelled.
Qed.

Lemma filter_filter {A : Type} (f g : A -> bool) (l : list A) :
  filter g (filter f l) = filter (fun x => f x && g x) l.
Proof.
  induction l as [|x l IH]; simpl; [reflexivity|].
  destruct (f x); simpl; [destruct (g x); rewrite IH|]; auto.
Qed.

Lemma select_charges_rules (rate_data : list Rule) (charge_type utility_ : string) :
  map snd (select_charges rate_data charge_type utility_)
  = matching_rules rate_data charge_type utility_.
Proof.
  unfold select_charges, matching_rules.
  rewrite (map_snd_filter (fun r => String.eqb (utility r) utility_)).
  rewrite (map_snd_filter (fun r => String.eqb (type_ r) charge_type)).
  rewrite map_snd_index_rows; apply filter_filter.
Qed.

Lemma select_from_app (start : nat) (l1 l2 : list Rule)
    (charge_type utility_ : string) :
  select_from start (l1 ++ l2) charge_type utility_
  = select_from start l1 charge_type utility_
    ++ select_from (start + length l1) l2 charge_type utility_.
Proof.
  unfold select_from.
  rewrite length_app, seq_app.
  assert (Hc : forall (a b : list nat) (x y : list Rule),
             length a = length x ->
             combine (a ++ b) (x ++ y) = combine a x ++ combine b y).
  { induction a as [|n a IH]; intros b [|r x] y Hl; simpl in *;
      try discriminate; [reflexivity|].
    rewrite IH by lia; reflexivity. }
  rewrite Hc by (rewrite length_seq; reflexivity).
  rewrite !filter_app; reflexivity.
Qed.

Lemma select_from_none (start : nat) (rows : list Rule)
    (charge_type utility_ : string) :
  matching_rules rows charge_type utility_ = [] ->
  select_from start rows charge_type utility_ = [].
Proof.
  intros H; unfold select_from, matching_rules in *.
  apply (f_equal (@length _)) in H; simpl in H.
  apply length_zero_iff_nil.
  rewrite <- H, <- (length_map snd).
  rewrite (map_snd_filter (fun r => String.eqb (utility r) utility_)).
  rewrite (map_snd_filter (fun r => String.eqb (type_ r) charge_type)).
  rewrite filter_filter, map_snd_labelled; reflexivity.
Qed.

Lemma select_from_one (start : nat) (r : Rule) (charge_type utility_ : string) :
  type_ r = charge_type -> utility r = utility_ ->
  select_from start [r] charge_type utility_ = [(start, r)].
Proof.
  intros Ht Hu; unfold select_from; simpl.
  rewrite Ht, String.eqb_refl; simpl.
  rewrite Hu, String.eqb_refl; reflexivity.
Qed.

Lemma select_from_all (start : nat) (rows : list Rule)
    (charge_type utility_ : string) :
  Forall (fun r => type_ r = charge_type /\ utility r = utility_) rows ->
  select_from start rows charge_type utility_
  = combine (seq start (length rows)) rows.
Proof.
  unfold select_from; revert start.
  induction rows as [|r rows IH]; intros start Hall; [reflexivity|].
  inversion Hall as [|? ? (Ht & Hu) Hrest]; subst.
  cbn [length seq combine filter snd].
  rewrite String.eqb_refl; cbn [filter snd]; rewrite String.eqb_refl.
  rewrite IH by exact Hrest; reflexivity.
Qed.

Lemma select_charges_pair (before after : list Rule) (r1 r2 : Rule)
    (charge_type utility_ : string) :
  matching_rules before charge_type utility_ = [] ->
  matching_rules after charge_type utility_ = [] ->
  type_ r1 = charge_type -> utility r1 = utility_ ->
  type_ r2 = charge_type -> utility r2 = utility_ ->
  select_charges (before ++ r1 :: r2 :: after) charge_type utility_
  = [(length before, r1); (S (length before), r2)].
Proof.
  intros Hb Ha Ht1 Hu1 Ht2 Hu2.
  change (select_charges (before ++ r1 :: r2 :: after) charge_type utility_)
    with (select_from 0 (before ++ [r1] ++ [r2] ++ after) charge_type utility_).
  rewrite !select_from_app.
  rewrite (select_from_none _ before) by exact Hb.
  rewrite (select_from_none _ after) by exact Ha.
  rewrite !select_from_one by assumption.
  simpl; rewrite Nat.add_1_r; reflexivity.
Qed.

Lemma select_charges_block (before rows after : list Rule)
    (charge_type utility_ : string) :
  matching_rules before charge_type utility_ = [] ->
  matching_rules after charge_type utility_ = [] ->
  Forall (fun r => type_ r = charge_type /\ utility r = utility_) rows ->
  select_charges (before ++ rows ++ after) charge_type utility_
  = combine (seq (length before) (length rows)) rows.
Proof.
  intros Hb Ha Hall.
  change (select_charges (before ++ rows ++ after) charge_type utility_)
    with (select_from 0 (before ++ rows ++ after) charge_type utility_).
  rewrite !select_from_app.
  rewrite (select_from_none _ before) by exact Hb.
  rewrite (select_from_none _ after) by exact Ha.
  rewrite select_from_all by exact Hall.
  rewrite app_nil_r; reflexivity.
Qed.

(** ** Errors of the two entry points *)

Lemma get_charge_array_customer (w : DataFrame) (rate_data : list Rule)
    (utility_ : string) :
  get_charge_array w rate_data "customer" utility_
  = OK (Plain (map charge (matching_rules rate_data "customer" utility_))).
Proof.
  unfold get_charge_array; simpl.
  rewrite <- select_charges_rules, map_map; reflexivity.
Qed.

(** Outcome of a call for a charge type other than "customer". *)
Lemma get_charge_array_other (w : DataFrame) (rate_data : list Rule)
    (charge_type utility_ : string) :
  charge_type <> "customer"%string ->
  (DateTime w = None
   /\ get_charge_array w rate_data charge_type utility_
      = Raise (KeyError "DateTime"))
  \/ (exists stamps, DateTime w = Some stamps
        /\ length stamps <> (96 * (shape0 w / 96))%nat
        /\ get_charge_array w rate_data charge_type utility_
           = Raise shape_error)
  \/ (timestamps_readable w
      /\ In charge_type cost_types
      /\ (forall e, get_charge_array w rate_data charge_type utility_ = Raise e ->
                    is_table_error e = true))
  \/ (timestamps_readable w
      /\ ~ In charge_type resolve_types
      /\ get_charge_array w rate_data charge_type utility_
         = Raise (ValueError ("Invalid charge_type: " ++ charge_type))).
Proof.
  intros Hc; unfold get_charge_array.
  destruct (String.eqb_spec charge_type "customer") as [|_]; [contradiction|].
  unfold get_DateTime; destruct (DateTime w) as [stamps|] eqn:Hdt; cbn [bind];
    [|left; auto].
  right.
  destruct (window_hours stamps (shape0 w / 96)) as [hours|e] eqn:Hh;
    cbn [bind].
  - assert (Hr : timestamps_readable w).
    { exists stamps; split; [exact Hdt|].
      destruct (Nat.eq_dec (length stamps) (96 * (shape0 w / 96))) as [E|E];
        [exact E|].
      unfold window_hours, np_iadd in Hh.
      rewrite length_map, length_np_tile in Hh.
      replace (length quarter_steps) with 4%nat in Hh by reflexivity.
      destruct (Nat.eqb_spec (length stamps) (24 * (shape0 w / 96) * 4));
        [lia | discriminate]. }
    right.
    destruct (String.eqb_spec charge_type "demand") as [->|Hd].
    { left; split; [exact Hr|]; split; [simpl; auto|].
      intros e; destruct (Nat.eqb _ 0);
        [discriminate | apply charge_table_raise]. }
    destruct (String.eqb_spec charge_type "energy") as [->|He].
    { left; split; [exact Hr|]; split; [simpl; auto|].
      intros e; destruct (Nat.eqb _ 0);
        [discriminate | apply charge_table_raise]. }
    right; split; [exact Hr|]; split; [|reflexivity].
    simpl; intuition congruence.
  - apply window_hours_raise in Hh as [-> Hlen].
    left; exists stamps; auto.
Qed.

(** C9.  The customer path of [get_charge_array] returns the rates of the
    selected rules without reading the timestamp column, so it succeeds on
    a frame that has no 'DateTime' column; the missing-column error is the
    outcome exactly when the charge type is not "customer" and the column is
    missing, which covers "demand", "energy" and every invalid charge type
    (the column is read before the charge type is refused). *)
Theorem customer_never_reads_timestamps (w : DataFrame) (rate_data : list Rule)
    (charge_type utility_ : string) :
  get_charge_array (mkDataFrame (shape0 w) None) rate_data "customer" utility_
  = OK (Plain (map charge (matching_rules rate_data "customer" utility_)))
  /\ get_charge_array w rate_data "customer" utility_
     = OK (Plain (map charge (matching_rules rate_data "customer" utility_)))
  /\ (get_charge_array w rate_data charge_type utility_
      = Raise (KeyError "DateTime")
      <-> charge_type <> "customer"%string /\ DateTime w = None).
Proof.
  split; [apply get_charge_array_customer|].
  split; [apply get_charge_array_customer|].
  split.
  - intros H.
    destruct (String.eqb_spec charge_type "customer") as [->|Hc].
    { rewrite get_charge_array_customer in H; discriminate. }
    split; [exact Hc|].
    destruct (get_charge_array_other w rate_data charge_type utility_ Hc)
      as [(Hn & _) | [(s & _ & _ & E) | [(_ & _ & E) | (_ & _ & E)]]].
    + exact Hn.
    + rewrite E in H; discriminate.
    + apply E in H; discriminate.
    + rewrite E in H; discriminate.
  - intros (Hc & Hn).
    destruct (get_charge_array_other w rate_data charge_type utility_ Hc)
      as [(_ & E) | [(s & Hs & _) | [((s & Hs & _) & _) | ((s & Hs & _) & _)]]];
      [exact E | congruence ..].
Qed.

Lemma calculate_cost_demand_raise charges consumption_data utility_ e :
  calculate_cost charges consumption_data "demand" utility_ = Raise e ->
  is_usage_error e = false.
Proof.
  unfold calculate_cost; cbn [String.eqb Ascii.eqb Bool.eqb].
  destruct charges as [vals|n fields|n k fields]; intros H.
  - injection H as <-; reflexivity.
  - eapply demand_cost1_raise; eauto.
  - eapply demand_cost2_raise; eauto.
Qed.

Lemma energy_divisor_spec (utility_ : string) :
  (utility_ = "electric"%string /\ energy_divisor utility_ = OK 4)
  \/ (utility_ = "gas"%string /\ energy_divisor utility_ = OK 96)
  \/ (~ In utility_ utilities
      /\ energy_divisor utility_
         = Raise (ValueError ("Invalid utility: " ++ utility_))).
Proof.
  unfold energy_divisor.
  destruct (String.eqb_spec utility_ "electric") as [->|He]; [left; auto|].
  destruct (String.eqb_spec utility_ "gas") as [->|Hg]; [right; left; auto|].
  right; right; split; [|reflexivity].
  simpl; intuition congruence.
Qed.

Lemma calculate_cost_energy_raise charges consumption_data utility_ e :
  In utility_ utilities ->
  calculate_cost charges consumption_data "energy" utility_ = Raise e ->
  is_usage_error e = false.
Proof.
  unfold calculate_cost; cbn [String.eqb Ascii.eqb Bool.eqb]; intros Hu H.
  destruct (energy_divisor_spec utility_)
    as [(_ & E) | [(_ & E) | (Hn & _)]]; [| |contradiction];
    rewrite E in H; cbn [bind] in H;
    (destruct charges as [vals|n fields|n k fields];
     [injection H as <-; reflexivity
     |eapply energy_tiers_raise; eauto
     |injection H as <-; reflexivity]).
Qed.

Lemma calculate_cost_invalid_type charges consumption_data charge_type utility_ :
  ~ In charge_type cost_types ->
  calculate_cost charges consumption_data charge_type utility_
  = Raise (ValueError ("Invalid charge_type: " ++ charge_type)).
Proof.
  intros Hn; unfold calculate_cost.
  destruct (String.eqb_spec charge_type "demand") as [->|_];
    [exfalso; apply Hn; simpl; auto|].
  destruct (String.eqb_spec charge_type "energy") as [->|_];
    [exfalso; apply Hn; simpl; auto|].
  reflexivity.
Qed.

Lemma calculate_cost_invalid_utility charges consumption_data utility_ :
  ~ In utility_ utilities ->
  calculate_cost charges consumption_data "energy" utility_
  = Raise (ValueError ("Invalid utility: " ++ utility_)).
Proof.
  intros Hn; unfold calculate_cost; cbn [String.eqb Ascii.eqb Bool.eqb].
  destruct (energy_divisor_spec utility_)
    as [(-> & _) | [(-> & _) | (_ & E)]].
  - exfalso; apply Hn; simpl; auto.
  - exfalso; apply Hn; simpl; auto.
  - rewrite E; reflexivity.
Qed.

(** C10.  The demand path of [calculate_cost] does not depend on the
    utility: any two utility strings, valid or not, give the same outcome,
    and no outcome of the demand path is a usage error, so the utility is
    not validated there. *)
Theorem demand_cost_ignores_utility (charges : ndarray)
    (consumption_data : list Q) (u1 u2 : string) :
  calculate_cost charges consumption_data "demand" u1
  = calculate_cost charges consumption_data "demand" u2
  /\ (forall e, calculate_cost charges consumption_data "demand" u1 = Raise e ->
                is_usage_error e = false).
Proof.
  split; [reflexivity|].
  intros e; apply calculate_cost_demand_raise.
Qed.

(** C8 as stated fails on [get_charge_array]: with a charge type outside
    {customer, demand, energy} and a frame without the 'DateTime' column
    the call raises [KeyError], not the usage error. *)
Lemma usage_error_preempted_by_missing_column :
  ~ In "rent"%string resolve_types
  /\ get_charge_array (mkDataFrame 96 None) [] "rent" "electric"
     = Raise (KeyError "DateTime")
  /\ ~ (exists msg, get_charge_array (mkDataFrame 96 None) [] "rent" "electric"
                    = Raise (ValueError msg)).
Proof.
  split; [simpl; intuition discriminate|].
  split; [reflexivity|].
  intros (msg & H); discriminate H.
Qed.

(** C8, amended.  [get_charge_array] raises the usage error
    [ValueError("Invalid charge_type: ...")] exactly when the charge type is
    outside {customer, demand, energy} and the reads of the timestamp
    column that come first succeed; it raises no other usage error.
    [calculate_cost] raises [ValueError("Invalid charge_type: ...")]
    exactly when the charge type is outside {demand, energy}, and
    [ValueError("Invalid utility: ...")] exactly when the charge type is
    "energy" and the utility is outside {electric, gas}; it raises no other
    usage error, so an invalid utility is refused only on the energy path.
    The errors reach the caller as raised. *)
Theorem usage_errors (w : DataFrame) (rate_data : list Rule) (charges : ndarray)
    (consumption_data : list Q) (charge_type utility_ : string) :
  (get_charge_array w rate_data charge_type utility_
   = Raise (ValueError ("Invalid charge_type: " ++ charge_type))
   <-> ~ In charge_type resolve_types /\ timestamps_readable w)
  /\ (forall e, get_charge_array w rate_data charge_type utility_ = Raise e ->
                is_usage_error e = true ->
                e = ValueError ("Invalid charge_type: " ++ charge_type))
  /\ (calculate_cost charges consumption_data charge_type utility_
      = Raise (ValueError ("Invalid charge_type: " ++ charge_type))
      <-> ~ In charge_type cost_types)
  /\ (calculate_cost charges consumption_data charge_type utility_
      = Raise (ValueError ("Invalid utility: " ++ utility_))
      <-> charge_type = "energy"%string /\ ~ In utility_ utilities)
  /\ (forall e, calculate_cost charges consumption_data charge_type utility_
                = Raise e ->
                is_usage_error e = true ->
                e = ValueError ("Invalid charge_type: " ++ charge_type)
                \/ e = ValueError ("Invalid utility: " ++ utility_)).
Proof.
  assert (Hres : forall e,
             get_charge_array w rate_data charge_type utility_ = Raise e ->
             is_usage_error e = true ->
             e = ValueError ("Invalid charge_type: " ++ charge_type)
             /\ ~ In charge_type resolve_types /\ timestamps_readable w).
  { intros e H Hu.
    destruct (String.eqb_spec charge_type "customer") as [->|Hc].
    { rewrite get_charge_array_customer in H; discriminate. }
    destruct (get_charge_array_other w rate_data charge_type utility_ Hc)
      as [(_ & E) | [(s & _ & _ & E) | [(_ & _ & E) | (Hr & Hn & E)]]].
    - rewrite E in H; injection H as <-; discriminate.
    - rewrite E in H; injection H as <-; discriminate.
    - apply E, table_error_not_usage in H; congruence.
    - rewrite E in H; injection H as <-; auto. }
  assert (Hcost : forall e,
             calculate_cost charges consumption_data charge_type utility_
             = Raise e ->
             is_usage_error e = true ->
             (e = ValueError ("Invalid charge_type: " ++ charge_type)
              /\ ~ In charge_type cost_types)
             \/ (e = ValueError ("Invalid utility: " ++ utility_)
                 /\ charge_type = "energy"%string /\ ~ In utility_ utilities)).
  { intros e H Hu.
    destruct (String.eqb_spec charge_type "demand") as [->|Hd].
    { apply calculate_cost_demand_raise in H; congruence. }
    destruct (String.eqb_spec charge_type "energy") as [->|He].
    - right.
      destruct (energy_divisor_spec utility_)
        as [(-> & _) | [(-> & _) | (Hn & _)]].
      + apply calculate_cost_energy_raise in H; [congruence | simpl; auto].
      + apply calculate_cost_energy_raise in H; [congruence | simpl; auto].
      + rewrite calculate_cost_invalid_utility in H by exact Hn.
        injection H as <-; auto.
    - left.
      assert (Hn : ~ In charge_type cost_types) by (simpl; intuition congruence).
      rewrite calculate_cost_invalid_type in H by exact Hn.
      injection H as <-; auto. }
  split; [split|].
  - intros H; apply Hres in H; [tauto | apply usage_error_charge_type].
  - intros (Hn & Hr).
    assert (Hc : charge_type <> "customer"%string)
      by (intros ->; apply Hn; simpl; auto).
    destruct (get_charge_array_other w rate_data charge_type utility_ Hc)
      as [(Hnone & _) | [(s & Hs & Hlen & _) | [(_ & Hin & _) | (_ & _ & E)]]].
    + destruct Hr as (s & Hs & _); congruence.
    + destruct Hr as (s' & Hs' & Hlen'); congruence.
    + exfalso; apply Hn; simpl in Hin |- *; tauto.
    + exact E.
  - split; [intros e H Hu; apply (Hres e H Hu)|].
    split; [split|].
    + intros H; apply Hcost in H; [|apply usage_error_charge_type].
      destruct H as [(_ & Hn) | (E & _)]; [exact Hn|].
      simpl in E; discriminate E.
    + apply calculate_cost_invalid_type.
    + split; [split|].
      * intros H; apply Hcost in H; [|apply usage_error_utility].
        destruct H as [(E & _) | (_ & Hn)]; [|exact Hn].
        simpl in E; discriminate E.
      * intros (-> & Hn); apply calculate_cost_invalid_utility; exact Hn.
      * intros e H Hu; destruct (Hcost e H Hu) as [(E & _) | (E & _)]; auto.
Qed.

(** ** The applicability mask *)

Lemma applies_iff (c : Rule) (m w : Z) (h : Q) :
  applies c m w h = true
  <-> (month_start c <= m <= month_end c)%Z
      /\ (weekday_start c <= w <= weekday_end c)%Z
      /\ hour_start c <= h /\ h < hour_end c.
Proof.
  unfold applies.
  rewrite !andb_true_iff, !Z.leb_le, Qle_bool_iff, Qlt_bool_iff; tauto.
Qed.

Lemma apply_charge_mask_nth (stamps : list Timestamp) (hours : list Q)
    (c : Rule) (k : nat) (t : Timestamp) (h : Q) :
  nth_error stamps k = Some t ->
  nth_error hours k = Some h ->
  nth_error (apply_charge_mask (map dt_month stamps) (map dt_weekday stamps)
               hours c) k
  = Some (applies c (dt_month t) (dt_weekday t) h).
Proof.
  intros Ht Hh; unfold apply_charge_mask.
  rewrite nth_error_map, !nth_error_combine, !nth_error_map, Ht, Hh.
  reflexivity.
Qed.

Lemma apply_charge_mask_length (months weekdays : list Z) (hours : list Q)
    (c : Rule) (n : nat) :
  length months = n -> length weekdays = n -> length hours = n ->
  length (apply_charge_mask months weekdays hours c) = n.
Proof.
  intros Hm Hw Hh; unfold apply_charge_mask.
  rewrite length_map, !length_combine; lia.
Qed.

(** The table of a single energy rule: at each timestamp the rate of the
    rule where its mask holds, zero elsewhere. *)
Lemma single_rule_energy_table (w : DataFrame) (before after : list Rule)
    (r : Rule) (utility_ : string) (stamps : list Timestamp) :
  matching_rules before "energy" utility_ = [] ->
  matching_rules after "energy" utility_ = [] ->
  type_ r = "energy"%string -> utility r = utility_ ->
  DateTime w = Some stamps ->
  length stamps = shape0 w ->
  (shape0 w mod 96 = 0)%nat ->
  exists col,
    get_charge_array w (before ++ r :: after) "energy" utility_
    = OK (Struct1 (shape0 w) [(basic_charge_limit r, col)])
    /\ length col = shape0 w
    /\ forall k t,
         nth_error stamps k = Some t ->
         exists x,
           nth_error col k = Some x
           /\ x == (if applies r (dt_month t) (dt_weekday t)
                         (fractional_hour t k)
                    then charge r else 0).
Proof.
  intros Hb Ha Ht Hu Hdt Hlen Hmod.
  assert (Hn : (shape0 w / 96 * 96)%nat = shape0 w).
  { pose proof (Nat.div_mod_eq (shape0 w) 96); lia. }
  destruct (window_hours_OK stamps (shape0 w / 96)) as (hours & Hh & Hhl);
    [lia|].
  unfold get_charge_array, get_DateTime.
  cbn [String.eqb Ascii.eqb Bool.eqb].
  rewrite Hdt; cbn [bind]; rewrite Hh; cbn [bind].
  assert (Hsel : select_charges (before ++ r :: after) "energy" utility_
                 = [(length before, r)]).
  { change (select_charges (before ++ r :: after) "energy" utility_)
      with (select_from 0 (before ++ [r] ++ after) "energy" utility_).
    rewrite !select_from_app.
    rewrite (select_from_none _ before) by exact Hb.
    rewrite (select_from_none _ after) by exact Ha.
    rewrite select_from_one by assumption; reflexivity. }
  rewrite Hsel; cbn [length Nat.eqb map snd fst].
  unfold charge_table; cbn [map snd fst np_unique fold_right insert_unique].
  cbn [for_each]; unfold tier_buffer; cbn [filter snd].
  assert (E : Qeq_bool (basic_charge_limit r) (basic_charge_limit r) = true)
    by (apply Qeq_bool_iff; reflexivity).
  rewrite E; cbn [map fst index_min fold_left for_each].
  unfold energy_rule_step; cbn [fst snd].
  rewrite Nat.sub_diag; cbn [get_period nth_error bind].
  set (mask := apply_charge_mask (map dt_month stamps) (map dt_weekday stamps)
                 hours r).
  assert (Hml : length mask = shape0 w).
  { apply apply_charge_mask_length; rewrite ?length_map; lia. }
  unfold np_iadd, mask_times, np_zeros.
  rewrite repeat_length, length_map, Hml, Hn, Nat.eqb_refl.
  cbn [bind add_field size length Nat.eqb].
  eexists; split; [|split].
  - rewrite length_map, length_combine, repeat_length, length_map, Hml,
      Nat.min_id; reflexivity.
  - rewrite length_map, length_combine, repeat_length, length_map, Hml; lia.
  - intros k t Hk.
    assert (Hlt : (k < shape0 w)%nat)
      by (rewrite <- Hlen; apply nth_error_Some; congruence).
    rewrite nth_error_map, nth_error_combine, nth_error_repeat by exact Hlt.
    rewrite nth_error_map.
    unfold mask; rewrite (apply_charge_mask_nth stamps hours r k t
                            (fractional_hour t k) Hk)
      by (eapply window_hours_nth; eauto).
    cbn [option_map fst snd]; eexists; split; [reflexivity|].
    apply Qplus_0_l.
Qed.

(** ** Energy billing on a single tier *)

Lemma billed_aligned (series rates : list Q) (divisor : Q) :
  length rates = length series ->
  billed series rates divisor = OK (elementwise_bill series rates divisor).
Proof.
  intros Hlen; unfold billed, mul_series, elementwise_bill.
  rewrite length_map, Hlen, Nat.eqb_refl; cbn [bind]; do 2 f_equal.
  clear Hlen; revert rates; induction series as [|c s IH]; intros [|r rates];
    simpl; try reflexivity.
  rewrite IH; reflexivity.
Qed.

Lemma single_tier_cost (n : nat) (name : Q) (rates consumption_data : list Q)
    (utility_ : string) (divisor : Q) :
  energy_divisor utility_ = OK divisor ->
  length rates = length consumption_data ->
  calculate_cost (Struct1 n [(name, rates)]) consumption_data "energy" utility_
  = OK (0 + elementwise_bill consumption_data rates divisor).
Proof.
  intros Hd Hlen; unfold calculate_cost; cbn [String.eqb Ascii.eqb Bool.eqb].
  rewrite Hd; cbn [bind energy_tiers next_name sc_start sc_cost skipn].
  rewrite billed_aligned by exact Hlen; reflexivity.
Qed.

(** C4.  On an energy table with a single tier the cost is the sum over the
    whole window of (consumption / divisor) x the tier's rate at that
    timestamp; the cursor and the running total play no part. *)
Theorem single_tier_energy (n : nat) (name : Q) (rates consumption_data : list Q)
    (utility_ : string) (divisor : Q) :
  energy_divisor utility_ = OK divisor ->
  length rates = length consumption_data ->
  exists cost,
    calculate_cost (Struct1 n [(name, rates)]) consumption_data "energy" utility_
    = OK cost
    /\ cost == elementwise_bill consumption_data rates divisor.
Proof.
  intros Hd Hlen; eexists; split.
  - apply single_tier_cost; eassumption.
  - apply Qplus_0_l.
Qed.

Lemma single_tier_energy_witness :
  exists cost,
    calculate_cost (Struct1 3 [(0, [1; 1; 1])]) [2; 2; 2] "energy" "electric"
    = OK cost
    /\ cost == elementwise_bill [2; 2; 2] [1; 1; 1] 4.
Proof.
  apply (single_tier_energy 3 0 [1; 1; 1] [2; 2; 2] "electric" 4);
    reflexivity.
Defined.

(** ** The fallback for an empty selection *)

(** The peak is read whenever the column is aligned with a non-empty
    series. *)
Lemma peak_demand_OK (col consumption_data : list Q) :
  length col = length consumption_data ->
  (0 < length consumption_data)%nat ->
  exists demand, peak_demand col consumption_data = OK demand
                 /\ In demand consumption_data.
Proof.
  intros Hlen Hpos; unfold peak_demand, mul_series.
  rewrite Hlen, Nat.eqb_refl; cbn [bind].
  destruct (np_argmax _) as [pos|e] eqn:Ha.
  - apply np_argmax_bound in Ha.
    rewrite length_map, length_combine in Ha.
    destruct (getitem_OK consumption_data pos) as (x & Hx & Hn); [lia|].
    cbn [bind]; rewrite Hx; eauto using nth_error_In.
  - destruct consumption_data as [|c s]; [simpl in Hpos; lia|].
    destruct col; discriminate.
Qed.

Lemma excess_charge_zero_column (this demand : Q) (n : nat) :
  (0 < n)%nat ->
  exists c, excess_charge this demand (np_zeros n) = OK c /\ c == 0.
Proof.
  intros Hn; unfold excess_charge.
  destruct (np_max_constant
              (map (fun r => (demand - this) * r) (np_zeros n)) 0)
    as (m & Hm & Hv).
  - destruct n; [lia | discriminate].
  - apply Forall_forall; intros x Hx; apply in_map_iff in Hx as (r & <- & Hr).
    apply repeat_spec in Hr; subst r; ring.
  - rewrite Hm; cbn [bind]; eexists; split; [reflexivity|].
    destruct (Qmaxb_spec m 0) as [(_ & ->) | (_ & ->)];
      [reflexivity | exact Hv].
Qed.

Lemma elementwise_bill_zero_rates (consumption_data : list Q) (divisor : Q) :
  elementwise_bill consumption_data
    (np_zeros (length consumption_data)) divisor == 0.
Proof.
  unfold elementwise_bill, np_zeros.
  induction consumption_data as [|c s IH]; simpl; [reflexivity|].
  unfold np_sum in IH; rewrite IH; ring.
Qed.

(** C5.  When no rule of the sheet matches the charge type and the utility,
    [get_charge_array] for "demand" or "energy" on a window with its
    timestamps (a whole number of days of 96 samples) returns, without an
    error, a table with the single tier 0.0 whose one column is zero at
    every timestamp, and [calculate_cost] on that table and the window's
    consumption is 0. *)
Theorem empty_selection_fallback (w : DataFrame) (rate_data : list Rule)
    (charge_type utility_ : string) (stamps : list Timestamp)
    (consumption_data : list Q) :
  In charge_type cost_types ->
  matching_rules rate_data charge_type utility_ = [] ->
  DateTime w = Some stamps ->
  length stamps = shape0 w ->
  (0 < shape0 w)%nat ->
  (shape0 w mod 96 = 0)%nat ->
  length consumption_data = shape0 w ->
  (charge_type = "energy"%string -> In utility_ utilities) ->
  get_charge_array w rate_data charge_type utility_
  = OK (zero_table charge_type (shape0 w))
  /\ exists cost,
       calculate_cost (zero_table charge_type (shape0 w)) consumption_data
         charge_type utility_ = OK cost
       /\ cost == 0.
Proof.
  intros Hct Hempty Hdt Hlen Hpos Hmod Hcons Hutil.
  assert (Hn : (shape0 w / 96 * 96)%nat = shape0 w).
  { pose proof (Nat.div_mod_eq (shape0 w) 96); lia. }
  assert (Hsel : length (select_charges rate_data charge_type utility_) = 0%nat).
  { rewrite <- (length_map snd), select_charges_rules, Hempty; reflexivity. }
  destruct (window_hours_OK stamps (shape0 w / 96)) as (hours & Hh & _);
    [lia|].
  assert (Hres : get_charge_array w rate_data charge_type utility_
                 = OK (zero_table charge_type (shape0 w))).
  { unfold get_charge_array, get_DateTime, zero_table.
    rewrite Hdt; cbn [bind]; rewrite Hh; cbn [bind].
    rewrite Hsel, Hn.
    destruct Hct as [<-|[<-|[]]]; reflexivity. }
  split; [exact Hres|].
  destruct Hct as [<-|[<-|[]]]; unfold zero_table;
    cbn [String.eqb Ascii.eqb Bool.eqb].
  - unfold calculate_cost; cbn [String.eqb Ascii.eqb Bool.eqb].
    cbn [demand_cost2 demand_columns for_each next_name].
    unfold demand_charge.
    destruct (peak_demand_OK (np_zeros (shape0 w)) consumption_data)
      as (demand & Hd & _);
      [unfold np_zeros; rewrite repeat_length; lia | lia |].
    rewrite Hd; cbn [bind].
    destruct (excess_charge_zero_column 0 demand (shape0 w) Hpos)
      as (c & Hc & Hz).
    rewrite Hc; cbn [bind]; eexists; split; [reflexivity|].
    rewrite Hz; reflexivity.
  - destruct (energy_divisor_spec utility_)
      as [(_ & E) | [(_ & E) | (Hbad & _)]];
      [| |exfalso; apply Hbad, Hutil; reflexivity];
      (rewrite (single_tier_cost _ _ _ _ _ _ E)
         by (unfold np_zeros; rewrite repeat_length; lia);
       eexists; split; [reflexivity|];
       rewrite <- Hcons, elementwise_bill_zero_rates; reflexivity).
Qed.

Lemma empty_selection_fallback_witness :
  get_charge_array example_window [peak_first_half; energy_low] "demand" "gas"
  = OK (zero_table "demand" (shape0 example_window))
  /\ exists cost,
       calculate_cost (zero_table "demand" (shape0 example_window))
         example_consumption "demand" "gas" = OK cost
       /\ cost == 0.
Proof.
  apply (empty_selection_fallback example_window [peak_first_half; energy_low]
           "demand" "gas" (example_stamps 3) example_consumption).
  - simpl; auto.
  - reflexivity.
  - reflexivity.
  - reflexivity.
  - simpl; lia.
  - reflexivity.
  - reflexivity.
  - intros H; discriminate H.
Defined.

(** ** The demand charge of one column *)

(** The largest entry of [(d) * (mask * rate)] when [d] and [rate] are not
    negative and the mask holds somewhere. *)
Lemma np_max_scaled_column (d rate : Q) (mask : list bool) :
  0 <= d -> 0 <= rate -> In true mask ->
  exists m, np_max (map (fun r => d * r) (mask_times mask rate)) = OK m
            /\ m == d * rate.
Proof.
  intros Hd Hr Hin.
  destruct (np_max_spec (map (fun r => d * r) (mask_times mask rate)))
    as (m & Hm & Hmem & Hall).
  { destruct mask; [contradiction | discriminate]. }
  exists m; split; [exact Hm|].
  apply Qle_antisym.
  - apply in_map_iff in Hmem as (r & <- & Hr').
    unfold mask_times in Hr'; apply in_map_iff in Hr' as ([|] & <- & _).
    + apply Qle_refl.
    + assert (0 <= d * rate) by (apply Qmult_le_0_compat; assumption). lra.
  - rewrite Forall_forall in Hall; apply Hall.
    apply in_map_iff; exists rate; split; [reflexivity|].
    unfold mask_times; apply in_map_iff; exists true; auto.
Qed.

Lemma demand_charge_branches (this : Q) (next : option Q)
    (col consumption_data : list Q) (peak : Q) :
  peak_demand col consumption_data = OK peak ->
  demand_charge this next col consumption_data
  = match next with
    | Some nx => if Qlt_bool nx peak then flat_charge this nx col
                 else excess_charge this peak col
    | None => excess_charge this peak col
    end.
Proof.
  intros Hp; unfold demand_charge; rewrite Hp; reflexivity.
Qed.

(** On a table of two tiers of one column each the demand cost is the
    charge of the lower column, with the upper limit as its next limit,
    plus the charge of the upper column, which has no next limit. *)
Lemma demand_cost_two_tiers (n : nat) (this nx : Q) (col col' : list Q)
    (consumption_data : list Q) (utility_ : string) :
  calculate_cost (Struct2 n 1 [(this, [col]); (nx, [col'])])
    consumption_data "demand" utility_
  = (c <- demand_charge this (Some nx) col consumption_data ;;
     c' <- demand_charge nx None col' consumption_data ;;
     OK (0 + c + c')).
Proof.
  unfold calculate_cost; cbn [String.eqb Ascii.eqb Bool.eqb].
  cbn [demand_cost2 demand_columns for_each next_name fst].
  destruct (demand_charge this (Some nx) col consumption_data) as [c|e];
    cbn [bind]; [|reflexivity].
  destruct (demand_charge nx None col' consumption_data) as [c'|e];
    reflexivity.
Qed.

(** ** The keys of a resolved table *)

Lemma insert_unique_In (x y : Q) (l : list Q) :
  In y (insert_unique x l) -> y = x \/ In y l.
Proof.
  induction l as [|z l IH]; simpl; intros H.
  - destruct H as [<-|[]]; auto.
  - destruct (Qlt_bool x z).
    + destruct H as [<-|H]; auto.
    + destruct (Qeq_bool x z); [auto|].
      destruct H as [<-|H]; [auto|].
      destruct (IH H); auto.
Qed.

Lemma np_unique_In (y : Q) (l : list Q) : In y (np_unique l) -> In y l.
Proof.
  induction l as [|x l IH]; simpl; intros H; [exact H|].
  apply insert_unique_In in H as [<-|H]; auto.
Qed.

Lemma insert_unique_covers (x y : Q) (l : list Q) :
  y == x \/ (exists z, In z l /\ z == y) ->
  exists z, In z (insert_unique x l) /\ z == y.
Proof.
  induction l as [|a l IH]; simpl; intros H.
  - destruct H as [H|(z & [] & _)]; exists x; split; [auto|].
    symmetry; exact H.
  - destruct (Qlt_bool x a) eqn:E1.
    + destruct H as [H|(z & Hz & Hzy)].
      * exists x; split; [left; reflexivity | symmetry; exact H].
      * exists z; split; [right; exact Hz | exact Hzy].
    + destruct (Qeq_bool x a) eqn:E2.
      * destruct H as [H|(z & Hz & Hzy)].
        -- apply Qeq_bool_iff in E2.
           exists a; split; [left; reflexivity|].
           rewrite <- E2; symmetry; exact H.
        -- exists z; split; assumption.
      * destruct H as [H|(z & [<-|Hz] & Hzy)].
        -- destruct IH as (z & Hz & Hzy); [left; exact H|].
           exists z; split; [right; exact Hz | exact Hzy].
        -- exists a; split; [left; reflexivity | exact Hzy].
        -- destruct IH as (z' & Hz' & Hzy'); [right; exists z; auto|].
           exists z'; split; [right; exact Hz' | exact Hzy'].
Qed.

Lemma np_unique_covers (y : Q) (l : list Q) :
  In y l -> exists z, In z (np_unique l) /\ z == y.
Proof.
  induction l as [|x l IH]; simpl; intros H; [contradiction|].
  apply insert_unique_covers.
  destruct H as [->|H]; [left; reflexivity|].
  right; apply IH; exact H.
Qed.

Lemma insert_unique_ascending (x : Q) (l : list Q) :
  ascending l -> ascending (insert_unique x l).
Proof.
  unfold ascending; induction l as [|a l IH]; simpl; intros Hs.
  - repeat constructor.
  - inversion Hs as [|? ? Hl Ha]; subst.
    destruct (Qlt_bool x a) eqn:E1.
    + apply Qlt_bool_iff in E1.
      constructor; [exact Hs|].
      constructor; [exact E1|].
      eapply Forall_impl; [|exact Ha]; intros b Hb; simpl in Hb; lra.
    + destruct (Qeq_bool x a) eqn:E2; [exact Hs|].
      apply Qlt_bool_false_iff in E1.
      assert (Hne : ~ x == a).
      { intros Heq; apply Qeq_bool_iff in Heq; congruence. }
      constructor; [apply IH; exact Hl|].
      apply Forall_forall; intros b Hb.
      apply insert_unique_In in Hb as [->|Hb].
      * apply Qle_lteq in E1 as [E1|E1]; [exact E1|].
        exfalso; apply Hne; symmetry; exact E1.
      * rewrite Forall_forall in Ha; apply Ha; exact Hb.
Qed.

Lemma np_unique_ascending (l : list Q) : ascending (np_unique l).
Proof.
  induction l as [|x l IH]; simpl.
  - constructor.
  - apply insert_unique_ascending; exact IH.
Qed.

(** No two keys of an ascending list are equal. *)
Lemma ascending_distinct (l : list Q) (i j : nat) (a b : Q) :
  ascending l -> (i < j)%nat ->
  nth_error l i = Some a -> nth_error l j = Some b -> a < b.
Proof.
  unfold ascending; intros Hs; revert i j.
  induction Hs as [|x l Hs IH Hx]; intros i j Hij Ha Hb.
  - destruct i; discriminate.
  - destruct j as [|j]; [lia|].
    destruct i as [|i]; simpl in Ha, Hb.
    + injection Ha as <-.
      rewrite Forall_forall in Hx; apply Hx.
      eapply nth_error_In; exact Hb.
    + apply (IH i j); [lia | assumption ..].
Qed.

Lemma ascending_NoDup (l : list Q) : ascending l -> NoDup l.
Proof.
  unfold ascending; induction 1 as [|x l Hs IH Hx]; constructor; [|exact IH].
  intros Hin; rewrite Forall_forall in Hx.
  apply Hx in Hin; apply Qlt_irrefl in Hin; exact Hin.
Qed.

Lemma np_unique_pair (a b : Q) : a == b -> np_unique [a; b] = [b].
Proof.
  intros H; unfold np_unique; simpl.
  assert (E1 : Qlt_bool a b = false) by (apply Qlt_bool_false_iff; lra).
  assert (E2 : Qeq_bool a b = true) by (apply Qeq_bool_iff; exact H).
  rewrite E1, E2; reflexivity.
Qed.

Lemma set_column_length (cols : list (list Q)) (i : nat) (v : list Q)
    (cols' : list (list Q)) :
  set_column cols i v = OK cols' -> length cols' = length cols.
Proof.
  unfold set_column; destruct (Nat.ltb_spec i (length cols)) as [Hi|];
    [|discriminate].
  intros H; injection H as <-.
  rewrite length_app, length_firstn; cbn [length].
  change (match cols with [] => [] | _ :: l => skipn i l end)
    with (skipn (S i) cols).
  rewrite length_skipn; lia.
Qed.

Lemma demand_rule_step_length periods months weekdays hours base st row st' :
  demand_rule_step periods months weekdays hours base st row = OK st' ->
  length (fst st') = length (fst st).
Proof.
  unfold demand_rule_step; intros H.
  apply bind_OK_inv in H as (p & _ & H).
  destruct (seen_lookup p (snd st)) as [[col mask]|];
    apply bind_OK_inv in H as (cols & Hc & H); injection H as <-;
    simpl; eapply set_column_length; eauto.
Qed.

Lemma tier_buffer_size is_demand nrows charges periods months weekdays hours
    limit data :
  tier_buffer is_demand nrows charges periods months weekdays hours limit
    = OK data ->
  data_size data
  = if is_demand
    then (nrows * length (filter (fun c => Qeq_bool (basic_charge_limit (snd c))
                                              limit) charges))%nat
    else nrows.
Proof.
  unfold tier_buffer; destruct is_demand; intros H;
    apply bind_OK_inv in H as (x & Hx & H); injection H as <-; simpl.
  - f_equal.
    eapply (for_each_invariant
              (fun st => length (fst st) = length (filter _ charges)))
      in Hx; [exact Hx | | simpl; apply repeat_length].
    intros s r s' Hs Hstep.
    apply demand_rule_step_length in Hstep; congruence.
  - eapply (for_each_invariant (fun v => length v = nrows)) in Hx;
      [exact Hx | | apply repeat_length].
    intros s r s' Hs Hstep; unfold energy_rule_step in Hstep.
    apply bind_OK_inv in Hstep as (p & _ & Hstep).
    apply np_iadd_length in Hstep; congruence.
Qed.

Lemma add_field_names charge_array limit data t :
  add_field charge_array limit data = OK t ->
  (size charge_array = 0%nat
   /\ dtype_names t = Some [limit] /\ size t = data_size data)
  \/ (size charge_array <> 0%nat
      /\ exists names, dtype_names charge_array = Some names
                       /\ dtype_names t = Some (names ++ [limit])
                       /\ size t = size charge_array).
Proof.
  unfold add_field.
  destruct (Nat.eqb_spec (size charge_array) 0) as [E|E].
  - intros H; left; split; [exact E|].
    destruct data; injection H as <-; simpl; auto.
  - intros H; right; split; [exact E|].
    destruct charge_array as [vals|n fields|n k fields], data as [v|n' cols];
      try discriminate.
    + destruct (Nat.eqb _ _); [|discriminate].
      injection H as <-; simpl; rewrite map_app; eauto.
    + destruct (Nat.eqb n' n); [|discriminate].
      destruct (Nat.eqb _ _).
      * injection H as <-; simpl; rewrite map_app; eauto.
      * destruct cols as [|c [|c' cols]]; try discriminate.
        injection H as <-; simpl; rewrite map_app; eauto.
Qed.

(** Once the table has entries, each further tier appends its key. *)
Lemma later_tiers_names is_demand nrows charges periods months weekdays hours
    (limits : list Q) :
  forall charge_array names t,
    size charge_array <> 0%nat ->
    dtype_names charge_array = Some names ->
    for_each
      (fun charge_array limit =>
         data <- tier_buffer is_demand nrows charges periods months weekdays
                   hours limit ;;
         add_field charge_array limit data)
      limits charge_array = OK t ->
    dtype_names t = Some (names ++ limits).
Proof.
  induction limits as [|limit limits IH]; simpl; intros ca names t Hsz Hn H.
  - injection H as <-; rewrite app_nil_r; exact Hn.
  - apply bind_OK_inv in H as (ca' & Hstep & H).
    apply bind_OK_inv in Hstep as (data & _ & Hadd).
    apply add_field_names in Hadd
      as [(E & _) | (_ & names' & Hn' & Hn'' & Hsz')]; [contradiction|].
    assert (names' = names) by congruence; subst names'.
    rewrite (IH ca' (names ++ [limit]) t); [| congruence | exact Hn'' | exact H].
    rewrite <- app_assoc; reflexivity.
Qed.

Lemma charge_table_names is_demand nrows charges periods months weekdays hours t :
  (0 < nrows)%nat ->
  charges <> [] ->
  charge_table is_demand nrows charges periods months weekdays hours = OK t ->
  dtype_names t
  = Some (np_unique (map (fun c => basic_charge_limit (snd c)) charges)).
Proof.
  intros Hrows Hne; unfold charge_table.
  pose proof (fun y => np_unique_In y
                (map (fun c => basic_charge_limit (snd c)) charges)) as Hin.
  destruct (np_unique _) as [|limit limits] eqn:Hu.
  - destruct charges as [|c charges]; [congruence|].
    destruct (np_unique_covers (basic_charge_limit (snd c))
                (map (fun c => basic_charge_limit (snd c)) (c :: charges)))
      as (z & Hz & _); [left; reflexivity|].
    rewrite Hu in Hz; contradiction.
  - cbn [for_each]; intros H.
    apply bind_OK_inv in H as (ca & Hstep & H).
    apply bind_OK_inv in Hstep as (data & Hbuf & Hadd).
    apply add_field_names in Hadd as [(_ & Hn & Hsz) | (E & _)];
      [|simpl in E; congruence].
    apply tier_buffer_size in Hbuf; rewrite Hbuf in Hsz.
    assert (Hpos : size ca <> 0%nat).
    { rewrite Hsz; destruct is_demand; [|lia].
      specialize (Hin limit (or_introl eq_refl)).
      apply in_map_iff in Hin as (c & Hc & Hcin).
      assert (Hf : In c (filter (fun c => Qeq_bool (basic_charge_limit (snd c))
                                            limit) charges)).
      { apply filter_In; split; [exact Hcin|].
        apply Qeq_bool_iff; rewrite Hc; reflexivity. }
      destruct (filter _ charges); [contradiction | simpl; lia]. }
    apply (later_tiers_names _ _ _ _ _ _ _ _ _ _ _ Hpos Hn H).
Qed.

(** C7.  For a non-empty selection of demand or energy rules and a
    non-empty window, the tier keys of the table [get_charge_array] returns
    are the distinct values of [tier_limit] of the selected rules: every
    key is the limit of a selected rule, every selected rule's limit is
    (numerically) a key, no key occurs twice, and the keys ascend strictly
    by numeric value. *)
Theorem resolved_keys (w : DataFrame) (rate_data : list Rule)
    (charge_type utility_ : string) (stamps : list Timestamp) (t : ndarray) :
  In charge_type cost_types ->
  matching_rules rate_data charge_type utility_ <> [] ->
  DateTime w = Some stamps ->
  length stamps = shape0 w ->
  (0 < shape0 w)%nat ->
  get_charge_array w rate_data charge_type utility_ = OK t ->
  exists keys,
    dtype_names t = Some keys
    /\ keys = np_unique (map basic_charge_limit
                           (matching_rules rate_data charge_type utility_))
    /\ ascending keys
    /\ NoDup keys
    /\ (forall key, In key keys ->
          exists r, In r (matching_rules rate_data charge_type utility_)
                    /\ basic_charge_limit r = key)
    /\ (forall r, In r (matching_rules rate_data charge_type utility_) ->
          exists key, In key keys /\ key == basic_charge_limit r).
Proof.
  intros Hct Hne Hdt Hlen Hpos Hres.
  set (limits := map basic_charge_limit
                   (matching_rules rate_data charge_type utility_)).
  exists (np_unique limits).
  assert (Hnames : dtype_names t = Some (np_unique limits)).
  { unfold get_charge_array, get_DateTime in Hres.
    assert (Hc : String.eqb charge_type "customer" = false).
    { destruct Hct as [<-|[<-|[]]]; reflexivity. }
    rewrite Hc, Hdt in Hres; cbn [bind] in Hres.
    apply bind_OK_inv in Hres as (hours & Hh & Hres).
    apply window_hours_OK_inv in Hh as (Hdays & _).
    assert (Hrows : (0 < shape0 w / 96 * 96)%nat) by lia.
    assert (Hsel : select_charges rate_data charge_type utility_ <> []).
    { intros E; apply Hne.
      rewrite <- select_charges_rules, E; reflexivity. }
    assert (Hl : Nat.eqb (length (select_charges rate_data charge_type
                                    utility_)) 0 = false).
    { apply Nat.eqb_neq; destruct (select_charges _ _ _);
        [congruence | discriminate]. }
    rewrite Hl in Hres.
    assert (Hlim : map (fun c => basic_charge_limit (snd c))
                     (select_charges rate_data charge_type utility_)
                   = limits).
    { unfold limits; rewrite <- select_charges_rules, map_map; reflexivity. }
    rewrite <- Hlim.
    destruct Hct as [<-|[<-|[]]]; cbn [String.eqb Ascii.eqb Bool.eqb] in Hres;
      eapply charge_table_names; eauto. }
  split; [exact Hnames|].
  split; [reflexivity|].
  split; [apply np_unique_ascending|].
  split; [apply ascending_NoDup, np_unique_ascending|].
  split.
  - intros key Hk; apply np_unique_In in Hk.
    unfold limits in Hk; apply in_map_iff in Hk as (r & Hr & Hin); eauto.
  - intros r Hr; apply np_unique_covers.
    unfold limits; apply in_map; exact Hr.
Qed.

Lemma resolved_keys_witness :
  exists t,
    get_charge_array example_window [energy_high; peak_first_half; energy_low]
      "energy" "electric" = OK t
    /\ exists keys,
         dtype_names t = Some keys
         /\ keys = np_unique
                     (map basic_charge_limit
                        (matching_rules
                           [energy_high; peak_first_half; energy_low]
                           "energy" "electric"))
         /\ ascending keys
         /\ NoDup keys
         /\ (forall key, In key keys ->
               exists r,
                 In r (matching_rules
                         [energy_high; peak_first_half; energy_low]
                         "energy" "electric")
                 /\ basic_charge_limit r = key)
         /\ (forall r,
               In r (matching_rules
                       [energy_high; peak_first_half; energy_low]
                       "energy" "electric") ->
               exists key, In key keys /\ key == basic_charge_limit r).
Proof.
  eexists; split; [vm_compute; reflexivity|].
  apply (resolved_keys example_window
           [energy_high; peak_first_half; energy_low] "energy" "electric"
           (example_stamps 3)).
  - simpl; auto.
  - vm_compute; discriminate.
  - reflexivity.
  - reflexivity.
  - simpl; lia.
  - vm_compute; reflexivity.
Defined.

(** ** The energy table is returned for a sheet laid out in blocks *)

Lemma energy_buffer_total (n : nat) (charges : list (nat * Rule))
    (periods : list string) (months weekdays : list Z) (hours : list Q)
    (limit : Q) (first : nat) :
  length months = n -> length weekdays = n -> length hours = n ->
  Forall (in_block first periods) charges ->
  exists v,
    tier_buffer false n charges periods months weekdays hours limit
    = OK (Data1 v)
    /\ length v = n.
Proof.
  intros Hm Hw Hh Hall; unfold tier_buffer.
  set (limit_charges := filter _ charges).
  assert (Hsub : Forall (in_block first periods) limit_charges).
  { rewrite Forall_forall in Hall |- *; intros c Hc.
    apply filter_In in Hc as (Hc & _); auto. }
  assert (Hbase : limit_charges <> [] ->
                  (first <= index_min (map fst limit_charges))%nat).
  { intros Hne.
    assert (Hin : In (index_min (map fst limit_charges))
                     (map fst limit_charges)).
    { apply index_min_In; destruct limit_charges; [congruence | discriminate]. }
    apply in_map_iff in Hin as (c & <- & Hc).
    rewrite Forall_forall in Hsub; apply Hsub in Hc; unfold in_block in Hc; lia. }
  destruct (for_each_total (fun v : list Q => length v = n)
              (fun c => In c limit_charges)
              (energy_rule_step periods months weekdays hours
                 (index_min (map fst limit_charges))))
    with (l := limit_charges) (s := np_zeros n) as (v & Hv & Hlen).
  - intros data c Hdata Hc; unfold energy_rule_step.
    assert (Hne : limit_charges <> []) by (intros E; rewrite E in Hc; exact Hc).
    rewrite Forall_forall in Hsub; pose proof (Hsub c Hc) as Hblk.
    unfold in_block in Hblk; specialize (Hbase Hne).
    destruct (nth_error periods (fst c - index_min (map fst limit_charges)))
      as [p|] eqn:Ep; [|apply nth_error_None in Ep; lia].
    unfold get_period; rewrite Ep; cbn [bind].
    unfold np_iadd, mask_times.
    rewrite length_map, (apply_charge_mask_length _ _ _ _ n), Hdata,
      Nat.eqb_refl by assumption.
    eexists; split; [reflexivity|].
    rewrite length_map, length_combine, length_map,
      (apply_charge_mask_length _ _ _ _ n) by assumption; lia.
  - apply repeat_length.
  - apply Forall_forall; auto.
  - rewrite Hv; cbn [bind]; eauto.
Qed.

Lemma energy_table_total (n : nat) (charges : list (nat * Rule))
    (periods : list string) (months weekdays : list Z) (hours : list Q)
    (first : nat) :
  length months = n -> length weekdays = n -> length hours = n ->
  Forall (in_block first periods) charges ->
  exists t, charge_table false n charges periods months weekdays hours = OK t.
Proof.
  intros Hm Hw Hh Hall; unfold charge_table.
  destruct (for_each_total
              (fun ca => ca = Plain [] \/ exists fields, ca = Struct1 n fields)
              (fun _ : Q => True)
              (fun charge_array limit =>
                 data <- tier_buffer false n charges periods months weekdays
                           hours limit ;;
                 add_field charge_array limit data))
    with (l := np_unique (map (fun c => basic_charge_limit (snd c)) charges))
         (s := Plain []) as (t & Ht & _).
  - intros ca limit Hca _.
    destruct (energy_buffer_total n charges periods months weekdays hours
                limit first Hm Hw Hh Hall) as (v & Hv & Hlen).
    rewrite Hv; cbn [bind]; unfold add_field.
    destruct Hca as [->|(fields & ->)]; cbn [size length Nat.eqb].
    + rewrite Hlen; eauto.
    + destruct (Nat.eqb n 0); [rewrite Hlen; eauto|].
      rewrite Hlen, Nat.eqb_refl; eauto.
  - auto.
  - apply Forall_forall; auto.
  - eauto.
Qed.

(** When the energy rules of a utility are consecutive rows of the sheet,
    [get_charge_array] returns a table for every window whose timestamps
    can be read. *)
Lemma energy_resolution_succeeds (w : DataFrame) (before rows after : list Rule)
    (utility_ : string) (stamps : list Timestamp) :
  matching_rules before "energy" utility_ = [] ->
  matching_rules after "energy" utility_ = [] ->
  Forall (fun r => type_ r = "energy"%string /\ utility r = utility_) rows ->
  DateTime w = Some stamps ->
  length stamps = (96 * (shape0 w / 96))%nat ->
  exists t,
    get_charge_array w (before ++ rows ++ after) "energy" utility_ = OK t.
Proof.
  intros Hb Ha Hall Hdt Hlen.
  unfold get_charge_array, get_DateTime.
  cbn [String.eqb Ascii.eqb Bool.eqb].
  rewrite Hdt; cbn [bind].
  destruct (window_hours_OK stamps (shape0 w / 96) Hlen) as (hours & Hh & Hhl).
  rewrite Hh; cbn [bind].
  destruct (Nat.eqb _ 0); [eauto|].
  rewrite (select_charges_block before rows after "energy" utility_)
    by assumption.
  apply (energy_table_total (shape0 w / 96 * 96) _ _ _ _ _ (length before));
    rewrite ?length_map; try lia.
  apply Forall_forall; intros c Hc; unfold in_block.
  rewrite length_map, length_combine, length_seq, Nat.min_id.
  assert (Hin : In (fst c) (seq (length before) (length rows))).
  { destruct c as [l r]; eapply in_combine_l; exact Hc. }
  apply in_seq in Hin; simpl; lia.
Qed.

(** ** Two rules of one period in one tier *)

(** The second of two rules of one period: its data go to the column of
    the first, under the union of the two masks and at its own rate; the
    column at its own position keeps its zeros. *)
Lemma demand_pair_buffer (periods : list string) (months weekdays : list Z)
    (hours : list Q) (base n : nat) (r1 r2 : Rule) :
  periods = [period r1; period r2] ->
  period r1 = period r2 ->
  for_each (demand_rule_step periods months weekdays hours base)
    [(base, r1); (S base, r2)]
    (repeat (np_zeros n) 2, [])
  = OK ([mask_times
           (mask_or (apply_charge_mask months weekdays hours r2)
                    (apply_charge_mask months weekdays hours r1))
           (charge r2);
         np_zeros n],
        [(period r1, (0%nat, apply_charge_mask months weekdays hours r1))]).
Proof.
  intros -> Hp; cbn [for_each].
  unfold demand_rule_step at 1; cbn [fst snd].
  rewrite Nat.sub_diag; cbn [get_period nth_error bind seen_lookup].
  cbn [set_column repeat length Nat.ltb Nat.leb firstn skipn app bind].
  unfold demand_rule_step; cbn [fst snd].
  replace (S base - base)%nat with 1%nat by lia.
  cbn [get_period nth_error bind seen_lookup].
  rewrite <- Hp, String.eqb_refl.
  reflexivity.
Qed.

(** For two demand rules of one period in one tier the tier of the
    returned table has two columns, one per rule, not one. *)
Lemma merged_period_keeps_two_columns :
  exists merged spare,
    get_charge_array example_window [peak_first_half; peak_second_half]
      "demand" "electric"
    = OK (Struct2 96 2 [(0, [merged; spare])])
    /\ spare = np_zeros 96
    /\ ~ (exists col, [merged; spare] = [col]).
Proof.
  eexists; eexists; split; [vm_compute; reflexivity|].
  split; [reflexivity|].
  intros (col & H); discriminate H.
Qed.

Lemma mask_or_nth (a b : list bool) (k : nat) (x y : bool) :
  nth_error a k = Some x -> nth_error b k = Some y ->
  nth_error (mask_or a b) k = Some (x || y).
Proof.
  intros Ha Hb; unfold mask_or.
  rewrite nth_error_map, nth_error_combine, Ha, Hb; reflexivity.
Qed.

(** When the selected demand rules are two adjacent rows of the sheet with
    the same period label and the same tier limit, the tier of the
    returned table keeps one column per rule: the column of the
    first rule holds, at each timestamp, the rate of the second rule if the
    mask of either rule holds there (the logical OR of the two masks) and
    zero otherwise, and the column of the second rule is zero at every
    timestamp. *)
Theorem period_merge (w : DataFrame) (before after : list Rule) (r1 r2 : Rule)
    (utility_ : string) (stamps : list Timestamp) :
  matching_rules before "demand" utility_ = [] ->
  matching_rules after "demand" utility_ = [] ->
  type_ r1 = "demand"%string -> utility r1 = utility_ ->
  type_ r2 = "demand"%string -> utility r2 = utility_ ->
  period r1 = period r2 ->
  basic_charge_limit r1 == basic_charge_limit r2 ->
  DateTime w = Some stamps ->
  length stamps = shape0 w ->
  (shape0 w mod 96 = 0)%nat ->
  exists merged,
    get_charge_array w (before ++ r1 :: r2 :: after) "demand" utility_
    = OK (Struct2 (shape0 w) 2
            [(basic_charge_limit r2, [merged; np_zeros (shape0 w)])])
    /\ length merged = shape0 w
    /\ forall k t,
         nth_error stamps k = Some t ->
         nth_error merged k
         = Some (if applies r1 (dt_month t) (dt_weekday t)
                      (fractional_hour t k)
                    || applies r2 (dt_month t) (dt_weekday t)
                         (fractional_hour t k)
                 then charge r2 else 0).
Proof.
  intros Hb Ha Ht1 Hu1 Ht2 Hu2 Hp Hl Hdt Hlen Hmod.
  assert (Hn : (shape0 w / 96 * 96)%nat = shape0 w).
  { pose proof (Nat.div_mod_eq (shape0 w) 96); lia. }
  destruct (window_hours_OK stamps (shape0 w / 96)) as (hours & Hh & Hhl);
    [lia|].
  set (m1 := apply_charge_mask (map dt_month stamps) (map dt_weekday stamps)
               hours r1).
  set (m2 := apply_charge_mask (map dt_month stamps) (map dt_weekday stamps)
               hours r2).
  exists (mask_times (mask_or m2 m1) (charge r2)).
  split; [|split].
  - unfold get_charge_array, get_DateTime.
    cbn [String.eqb Ascii.eqb Bool.eqb].
    rewrite Hdt; cbn [bind]; rewrite Hh; cbn [bind].
    rewrite (select_charges_pair before after r1 r2 "demand" utility_)
      by assumption.
    cbn [length Nat.eqb map snd fst].
    unfold charge_table; cbn [map snd fst].
    rewrite (np_unique_pair _ _ Hl); cbn [for_each].
    unfold tier_buffer; cbn [filter snd].
    assert (E1 : Qeq_bool (basic_charge_limit r1) (basic_charge_limit r2)
                 = true)
      by (apply Qeq_bool_iff; exact Hl).
    assert (E2 : Qeq_bool (basic_charge_limit r2) (basic_charge_limit r2)
                 = true)
      by (apply Qeq_bool_iff; reflexivity).
    rewrite E1, E2; cbn [map fst length index_min fold_left].
    rewrite Nat.min_l by lia.
    rewrite (demand_pair_buffer _ _ _ _ _ _ r1 r2 eq_refl Hp).
    cbn [bind fst add_field size length Nat.eqb]; rewrite Hn; reflexivity.
  - unfold mask_times, mask_or, m1, m2.
    rewrite length_map, length_map, length_combine,
      !(apply_charge_mask_length _ _ _ _ (shape0 w))
      by (rewrite ?length_map; lia).
    apply Nat.min_id.
  - intros k t Hk.
    pose proof (window_hours_nth _ _ _ _ _ Hh Hk) as Hhk.
    unfold mask_times; rewrite nth_error_map.
    rewrite (mask_or_nth m2 m1 k _ _
               (apply_charge_mask_nth stamps hours r2 k t _ Hk Hhk)
               (apply_charge_mask_nth stamps hours r1 k t _ Hk Hhk)).
    cbn [option_map]; rewrite orb_comm; reflexivity.
Qed.

Lemma period_merge_witness :
  exists merged,
    get_charge_array example_window
      ([] ++ peak_first_half :: peak_second_half :: []) "demand" "electric"
    = OK (Struct2 (shape0 example_window) 2
            [(basic_charge_limit peak_second_half,
              [merged; np_zeros (shape0 example_window)])])
    /\ length merged = shape0 example_window
    /\ forall k t,
         nth_error (example_stamps 3) k = Some t ->
         nth_error merged k
         = Some (if applies peak_first_half (dt_month t) (dt_weekday t)
                      (fractional_hour t k)
                    || applies peak_second_half (dt_month t) (dt_weekday t)
                         (fractional_hour t k)
                 then charge peak_second_half else 0).
Proof.
  apply (period_merge example_window [] [] peak_first_half peak_second_half
           "electric" (example_stamps 3)).
  - reflexivity.
  - reflexivity.
  - reflexivity.
  - reflexivity.
  - reflexivity.
  - reflexivity.
  - reflexivity.
  - reflexivity.
  - reflexivity.
  - reflexivity.
  - reflexivity.
Defined.

(** The period of a row is read from the periods of all the selected rows,
    at the offset of the row in its tier (line 103).  After a first tier
    whose two rows are "peak", the rows of the second tier are both read as
    "peak" and share a column, whatever their own labels. *)
Lemma period_read_at_tier_offset :
  get_charge_array example_window
    [peak_first_half; peak_second_half; morning_high; afternoon_high]
    "demand" "electric"
  = OK (Struct2 96 2
          [(0, [repeat 7 96; np_zeros 96]);
           (100, [repeat 3 96; np_zeros 96])]).
Proof.
  vm_compute; reflexivity.
Qed.

(** C2.  Two demand rules of one period label and disjoint hours in one
    tier are not given one column.  In the sheet
    [off_low; mid_low; peak_a; peak_b] the two "peak" rules of the tier at
    100 keep a column each, the column of a rule holding its rate at its
    own hours only (8:00 and 16:00 are told apart), so that no column has
    the OR of the two masks: the labels of the two rows are read at the
    offsets of the tier from the periods of all the selected rows, as
    "off" and "mid".  In the sheet of the two rules alone their masks are
    merged in the first column, and the tier still has a second column,
    zero at every timestamp. *)
Theorem period_merge_missed :
  (exists col_a col_b,
     get_charge_array example_window [off_low; mid_low; peak_a; peak_b]
       "demand" "electric"
     = OK (Struct2 96 2
             [(0, [mask_times
                     (apply_charge_mask (map dt_month (example_stamps 3))
                        (map dt_weekday (example_stamps 3)) example_hours
                        off_low) 2;
                   mask_times
                     (apply_charge_mask (map dt_month (example_stamps 3))
                        (map dt_weekday (example_stamps 3)) example_hours
                        mid_low) 3]);
              (100, [col_a; col_b])])
     /\ col_a
        = mask_times
            (apply_charge_mask (map dt_month (example_stamps 3))
               (map dt_weekday (example_stamps 3)) example_hours peak_a) 5
     /\ col_b
        = mask_times
            (apply_charge_mask (map dt_month (example_stamps 3))
               (map dt_weekday (example_stamps 3)) example_hours peak_b) 5
     /\ nth_error col_a 32 = Some 5 /\ nth_error col_a 64 = Some 0
     /\ nth_error col_b 32 = Some 0 /\ nth_error col_b 64 = Some 5)
  /\ (exists merged spare,
        get_charge_array example_window [peak_a; peak_b] "demand" "electric"
        = OK (Struct2 96 2 [(100, [merged; spare])])
        /\ nth_error merged 32 = Some 5 /\ nth_error merged 64 = Some 5
        /\ spare = np_zeros 96).
Proof.
  split.
  - eexists; eexists; split; [vm_compute; reflexivity|].
    repeat split; vm_compute; reflexivity.
  - eexists; eexists; split; [vm_compute; reflexivity|].
    repeat split; vm_compute; reflexivity.
Qed.

(** ** Energy billing across a tier boundary *)

Section Crossing.

Variables (rates consumption_data : list Q) (divisor next : Q) (i : nat).

Hypothesis aligned : length rates = length consumption_data.

(** Sample [i] is the first at which the running total, in units, is
    above the next tier's limit. *)
Hypothesis crosses :
  next < np_sum (firstn (S i) consumption_data) / divisor.
Hypothesis first_crossing :
  forall k, (k < i)%nat ->
            np_sum (firstn (S k) consumption_data) / divisor <= next.

Lemma scan_tier_crossing (gap : nat) :
  forall (s len : nat) (st : scan_state),
    i = (s + gap)%nat ->
    (i < s + len)%nat ->
    (s + len <= length consumption_data)%nat ->
    sc_energy st == np_sum (firstn s consumption_data) ->
    (sc_start st <= s)%nat ->
    exists st',
      scan_tier (seq s len) rates consumption_data divisor next st = OK st'
      /\ sc_cost st'
         == sc_cost st
            + elementwise_bill (slice consumption_data (sc_start st) i)
                (slice rates (sc_start st) i) divisor
            + (next - np_sum (firstn i consumption_data) / divisor)
              * nth i rates 0
      /\ sc_energy st' == np_sum (firstn (S i) consumption_data)
      /\ sc_start st' = S i
      /\ sc_i st' = Some i.
Proof.
  induction gap as [|gap IH]; intros s len st Hi Hlen Hbound He Hstart.
  - rewrite Nat.add_0_r in Hi; subst s.
    destruct len as [|len]; [lia|].
    cbn [seq scan_tier].
    destruct (getitem_OK consumption_data i) as (c & Hc & Hn); [lia|].
    rewrite Hc; cbn [bind].
    assert (Hsum : sc_energy st + c
                   == np_sum (firstn (S i) consumption_data)).
    { rewrite (np_sum_prefix_S _ _ _ Hn), He; reflexivity. }
    assert (Htest : Qlt_bool next ((sc_energy st + c) / divisor) = true).
    { rewrite (Qlt_bool_compat next _ next
                 (np_sum (firstn (S i) consumption_data) / divisor));
        [apply Qlt_bool_iff; exact crosses | reflexivity |].
      rewrite Hsum; reflexivity. }
    rewrite Htest.
    rewrite billed_aligned
      by (rewrite !length_slice, aligned; reflexivity).
    cbn [bind].
    assert (Hr : nth_error rates i = Some (nth i rates 0))
      by (apply nth_error_nth'; lia).
    rewrite Hr; eexists; split; [reflexivity|].
    cbn [sc_cost sc_energy sc_start sc_i].
    split; [|split; [exact Hsum | split; reflexivity]].
    assert (Hprev : (sc_energy st + c - c) / divisor
                    == np_sum (firstn i consumption_data) / divisor).
    { rewrite <- He; unfold Qdiv; ring. }
    rewrite Hprev; reflexivity.
  - destruct len as [|len]; [lia|].
    cbn [seq scan_tier].
    destruct (getitem_OK consumption_data s) as (c & Hc & Hn); [lia|].
    rewrite Hc; cbn [bind].
    assert (Hsum : sc_energy st + c
                   == np_sum (firstn (S s) consumption_data)).
    { rewrite (np_sum_prefix_S _ _ _ Hn), He; reflexivity. }
    assert (Htest : Qlt_bool next ((sc_energy st + c) / divisor) = false).
    { rewrite (Qlt_bool_compat next _ next
                 (np_sum (firstn (S s) consumption_data) / divisor));
        [apply Qlt_bool_false_iff; apply first_crossing; lia
        | reflexivity |].
      rewrite Hsum; reflexivity. }
    rewrite Htest.
    destruct (IH (S s) len
                (mkScan (sc_cost st) (sc_energy st + c) (sc_start st)
                   (Some s)))
      as (st' & Hscan & Hcost & Hen & Hst & Hiv);
      [lia | lia | lia | exact Hsum | cbn [sc_start]; lia |].
    exists st'; split; [exact Hscan|].
    cbn [sc_cost sc_start] in Hcost; auto.
Qed.

End Crossing.

Lemma two_tier_crossing_cost (n : nat) (name next : Q)
    (rates1 rates2 consumption_data : list Q) (utility_ : string)
    (divisor : Q) (i : nat) :
  energy_divisor utility_ = OK divisor ->
  length rates1 = length consumption_data ->
  length rates2 = length consumption_data ->
  (i < length consumption_data)%nat ->
  next < np_sum (firstn (S i) consumption_data) / divisor ->
  (forall k, (k < i)%nat ->
             np_sum (firstn (S k) consumption_data) / divisor <= next) ->
  exists cost,
    calculate_cost (Struct1 n [(name, rates1); (next, rates2)])
      consumption_data "energy" utility_ = OK cost
    /\ cost == billed_at_crossing rates1 rates2 consumption_data divisor next i.
Proof.
  intros Hd Hl1 Hl2 Hi Hcross Hfirst.
  unfold calculate_cost; cbn [String.eqb Ascii.eqb Bool.eqb].
  rewrite Hd; cbn [bind energy_tiers next_name fst sc_start].
  rewrite Nat.sub_0_r.
  destruct (scan_tier_crossing rates1 consumption_data divisor next i
              Hl1 Hcross Hfirst i 0 (length rates1) (mkScan 0 0 0 None))
    as (st' & Hscan & Hcost & _ & Hst & Hiv);
    [reflexivity | lia | lia | reflexivity | cbn [sc_start]; lia |].
  rewrite Hscan; cbn [bind]; rewrite Hiv.
  cbn [sc_cost sc_start] in Hcost.
  assert (Hslice : forall l : list Q, slice l 0 i = firstn i l).
  { intros l; unfold slice; rewrite Nat.sub_0_r; reflexivity. }
  rewrite !Hslice in Hcost.
  unfold billed_at_crossing.
  destruct (Nat.eqb_spec (S i) (length rates1)) as [Hlast|Hmore].
  - rewrite Hst, billed_aligned
      by (rewrite !length_skipn, Hl1; reflexivity).
    cbn [bind]; eexists; split; [reflexivity|].
    rewrite Hcost.
    rewrite !(skipn_all2 (n := S i)) by lia.
    unfold elementwise_bill at 2 4; simpl; ring.
  - cbn [energy_tiers next_name].
    rewrite Hst, billed_aligned
      by (rewrite !length_skipn, Hl2; reflexivity).
    cbn [bind]; eexists; split; [reflexivity|].
    rewrite Hcost; ring.
Qed.

Lemma elementwise_bill_constant (l rates : list Q) (divisor r : Q) :
  length rates = length l ->
  Forall (fun x => x = r) rates ->
  elementwise_bill l rates divisor == np_sum l / divisor * r.
Proof.
  unfold elementwise_bill; revert rates.
  induction l as [|c l IH]; intros [|x rates] Hlen Hall; simpl in Hlen;
    try discriminate.
  - simpl; unfold Qdiv; ring.
  - inversion Hall as [|? ? Hx Hrest]; subst.
    simpl; rewrite IH by (auto; lia).
    unfold Qdiv; ring.
Qed.

(** With one rate per tier, what the scan bills at a crossing and the part
    it leaves out add up to the tier-by-tier bill of the window. *)
Lemma crossing_shortfall (consumption_data : list Q) (divisor next r1 r2 : Q)
    (i : nat) :
  (i < length consumption_data)%nat ->
  next < np_sum consumption_data / divisor ->
  billed_at_crossing (repeat r1 (length consumption_data))
    (repeat r2 (length consumption_data)) consumption_data divisor next i
  + excess_at_crossing (repeat r2 (length consumption_data)) consumption_data
      divisor next i
  == blended_bill consumption_data divisor next r1 r2.
Proof.
  intros Hi Htotal.
  unfold billed_at_crossing, excess_at_crossing, blended_bill.
  assert (E : Qle_bool (np_sum consumption_data / divisor) next = false)
    by (apply Qle_bool_false_iff; exact Htotal).
  rewrite E.
  rewrite !nth_repeat_lt by exact Hi.
  rewrite (elementwise_bill_constant (firstn i consumption_data) _ divisor r1);
    [|rewrite !length_firstn, repeat_length; reflexivity
     |apply Forall_firstn_repeat].
  rewrite (elementwise_bill_constant (skipn (S i) consumption_data) _ divisor r2);
    [|rewrite !length_skipn, repeat_length; reflexivity
     |apply Forall_skipn_repeat].
  assert (Htot : np_sum consumption_data
                 == np_sum (firstn (S i) consumption_data)
                    + np_sum (skipn (S i) consumption_data)).
  { rewrite <- np_sum_app, firstn_skipn; reflexivity. }
  rewrite Htot; unfold Qdiv; ring.
Qed.

(** Whenever the running total passes the next limit at some sample, the
    cost returned for two tiers of constant rates is the tier-by-tier bill
    less the part of the crossing sample above the limit. *)
Lemma crossing_underbills (name next r1 r2 : Q) (consumption_data : list Q)
    (utility_ : string) (divisor : Q) (i : nat) :
  energy_divisor utility_ = OK divisor ->
  (i < length consumption_data)%nat ->
  next < np_sum (firstn (S i) consumption_data) / divisor ->
  (forall k, (k < i)%nat ->
             np_sum (firstn (S k) consumption_data) / divisor <= next) ->
  next < np_sum consumption_data / divisor ->
  0 < r2 ->
  exists cost,
    calculate_cost
      (Struct1 (length consumption_data)
         [(name, repeat r1 (length consumption_data));
          (next, repeat r2 (length consumption_data))])
      consumption_data "energy" utility_ = OK cost
    /\ cost == blended_bill consumption_data divisor next r1 r2
               - excess_at_crossing (repeat r2 (length consumption_data))
                   consumption_data divisor next i
    /\ cost < blended_bill consumption_data divisor next r1 r2.
Proof.
  intros Hd Hi Hcross Hfirst Htotal Hr2.
  destruct (two_tier_crossing_cost (length consumption_data) name next
              (repeat r1 (length consumption_data))
              (repeat r2 (length consumption_data))
              consumption_data utility_ divisor i)
    as (cost & Hcost & Heq);
    try assumption; try apply repeat_length.
  exists cost; split; [exact Hcost|].
  pose proof (crossing_shortfall consumption_data divisor next r1 r2 i
                Hi Htotal) as Hs.
  assert (Hex : 0 < excess_at_crossing (repeat r2 (length consumption_data))
                      consumption_data divisor next i).
  { unfold excess_at_crossing; rewrite nth_repeat_lt by exact Hi.
    apply Qmult_lt_0_compat; [lra | exact Hr2]. }
  split; lra.
Qed.

(** C1.  On the worked example (consumption [2, 2, 2], divisor 4, tiers 0
    and 1.0, rates 1 and 2) the blended bill is 1.0 x 1 + 0.5 x 2 = 2, and
    [calculate_cost] returns 1: the part of the crossing sample above the
    next tier's limit is billed at no tier.  The same holds when the
    boundary falls inside a sample (consumption [2, 3, 2]: blended 2.5,
    returned 2). *)
Theorem energy_crossing_drops_excess :
  (exists cost,
     calculate_cost two_tier_table [2; 2; 2] "energy" "electric" = OK cost
     /\ cost == 1
     /\ blended_bill [2; 2; 2] 4 1 1 2 == 2
     /\ ~ cost == blended_bill [2; 2; 2] 4 1 1 2)
  /\ (exists cost,
        calculate_cost two_tier_table [2; 3; 2] "energy" "electric" = OK cost
        /\ cost == 2
        /\ blended_bill [2; 3; 2] 4 1 1 2 == 5 # 2
        /\ ~ cost == blended_bill [2; 3; 2] 4 1 1 2).
Proof.
  split; eexists; (split; [vm_compute; reflexivity|]);
    repeat split; try reflexivity; intros H; vm_compute in H; discriminate H.
Qed.

(** * Further properties *)

(** ** The last day of a month *)

Lemma days_in_month_cases (y m : Z) :
  days_in_month y m = 28%Z \/ days_in_month y m = 29%Z
  \/ days_in_month y m = 30%Z \/ days_in_month y m = 31%Z.
Proof.
  unfold days_in_month.
  destruct (m =? 2)%Z; [destruct (is_leap y); auto|].
  destruct ((m =? 4)%Z || (m =? 6)%Z || (m =? 9)%Z || (m =? 11)%Z); auto.
Qed.

Lemma next_day_same_month (d : datetime) :
  (d_day d < days_in_month (d_year d) (d_month d))%Z ->
  next_day d
  = Some (mkDatetime (d_year d) (d_month d) (d_day d + 1)
            (d_hour d) (d_minute d) (d_second d)).
Proof.
  intros H; unfold next_day.
  apply Z.ltb_lt in H; rewrite H; reflexivity.
Qed.

Lemma next_day_next_month (d : datetime) :
  (days_in_month (d_year d) (d_month d) <= d_day d)%Z ->
  (d_month d < 12)%Z ->
  next_day d
  = Some (mkDatetime (d_year d) (d_month d + 1) 1
            (d_hour d) (d_minute d) (d_second d)).
Proof.
  intros H Hm; unfold next_day.
  apply Z.ltb_ge in H; apply Z.ltb_lt in Hm; rewrite H, Hm; reflexivity.
Qed.

Lemma next_day_next_year (d : datetime) :
  (days_in_month (d_year d) (d_month d) <= d_day d)%Z ->
  (12 <= d_month d)%Z ->
  (d_year d < MAXYEAR)%Z ->
  next_day d
  = Some (mkDatetime (d_year d + 1) 1 1 (d_hour d) (d_minute d) (d_second d)).
Proof.
  intros H Hm Hy; unfold next_day.
  apply Z.ltb_ge in H; apply Z.ltb_ge in Hm; apply Z.ltb_lt in Hy.
  rewrite H, Hm, Hy; reflexivity.
Qed.

Lemma next_day_overflow (d : datetime) :
  (days_in_month (d_year d) (d_month d) <= d_day d)%Z ->
  (12 <= d_month d)%Z ->
  (MAXYEAR <= d_year d)%Z ->
  next_day d = None.
Proof.
  intros H Hm Hy; unfold next_day.
  apply Z.ltb_ge in H; apply Z.ltb_ge in Hm; apply Z.ltb_ge in Hy.
  rewrite H, Hm, Hy; reflexivity.
Qed.

Lemma prev_day_same_month (d : datetime) :
  (1 < d_day d)%Z ->
  prev_day d
  = Some (mkDatetime (d_year d) (d_month d) (d_day d - 1)
            (d_hour d) (d_minute d) (d_second d)).
Proof.
  intros H; unfold prev_day; apply Z.ltb_lt in H; rewrite H; reflexivity.
Qed.

Lemma prev_day_prev_month (d : datetime) :
  (d_day d <= 1)%Z ->
  (1 < d_month d)%Z ->
  prev_day d
  = Some (mkDatetime (d_year d) (d_month d - 1)
            (days_in_month (d_year d) (d_month d - 1))
            (d_hour d) (d_minute d) (d_second d)).
Proof.
  intros H Hm; unfold prev_day.
  apply Z.ltb_ge in H; apply Z.ltb_lt in Hm; rewrite H, Hm; reflexivity.
Qed.

Lemma prev_day_prev_year (d : datetime) :
  (d_day d <= 1)%Z ->
  (d_month d <= 1)%Z ->
  (1 < d_year d)%Z ->
  prev_day d
  = Some (mkDatetime (d_year d - 1) 12 31
            (d_hour d) (d_minute d) (d_second d)).
Proof.
  intros H Hm Hy; unfold prev_day.
  apply Z.ltb_ge in H; apply Z.ltb_ge in Hm; apply Z.ltb_lt in Hy.
  rewrite H, Hm, Hy; reflexivity.
Qed.

(** Days added or taken inside one month. *)
Lemma add_days_same_month (n : nat) :
  forall d,
    (d_day d + Z.of_nat n <= days_in_month (d_year d) (d_month d))%Z ->
    add_days n d
    = Some (mkDatetime (d_year d) (d_month d) (d_day d + Z.of_nat n)
              (d_hour d) (d_minute d) (d_second d)).
Proof.
  induction n as [|n IH]; intros d H.
  - destruct d; cbn [add_days d_year d_month d_day d_hour d_minute d_second
                     Z.of_nat].
    rewrite Z.add_0_r; reflexivity.
  - cbn [add_days]; rewrite next_day_same_month by lia.
    rewrite IH by (cbn [d_year d_month d_day]; lia).
    cbn [d_year d_month d_day d_hour d_minute d_second].
    do 2 f_equal; lia.
Qed.

Lemma sub_days_same_month (n : nat) :
  forall d,
    (Z.of_nat n < d_day d)%Z ->
    sub_days n d
    = Some (mkDatetime (d_year d) (d_month d) (d_day d - Z.of_nat n)
              (d_hour d) (d_minute d) (d_second d)).
Proof.
  induction n as [|n IH]; intros d H.
  - destruct d; cbn [sub_days d_year d_month d_day d_hour d_minute d_second
                     Z.of_nat].
    rewrite Z.sub_0_r; reflexivity.
  - cbn [sub_days]; rewrite prev_day_same_month by lia.
    rewrite IH by (cbn [d_year d_month d_day]; lia).
    cbn [d_year d_month d_day d_hour d_minute d_second].
    do 2 f_equal; lia.
Qed.

Lemma add_days_plus (a b : nat) (d : datetime) :
  add_days (a + b) d
  = match add_days a d with
    | Some d' => add_days b d'
    | None => None
    end.
Proof.
  revert d; induction a as [|a IH]; intros d; cbn [add_days Nat.add];
    [reflexivity|].
  destruct (next_day d); [apply IH | reflexivity].
Qed.

Lemma sub_days_plus (a b : nat) (d : datetime) :
  sub_days (a + b) d
  = match sub_days a d with
    | Some d' => sub_days b d'
    | None => None
    end.
Proof.
  revert d; induction a as [|a IH]; intros d; cbn [sub_days Nat.add];
    [reflexivity|].
  destruct (prev_day d); [apply IH | reflexivity].
Qed.

(** Four days after the 28th: day [32 - days_in_month] of the next month. *)
Lemma four_days_after_28th (y m h mi s : Z) :
  (1 <= m <= 12)%Z ->
  (m = 12%Z -> y < MAXYEAR)%Z ->
  add_days 4 (mkDatetime y m 28 h mi s)
  = Some (mkDatetime (if (m <? 12)%Z then y else (y + 1)%Z)
            (if (m <? 12)%Z then (m + 1)%Z else 1%Z)
            (32 - days_in_month y m) h mi s).
Proof.
  intros Hm Hy.
  set (j := Z.to_nat (days_in_month y m - 28)).
  assert (Hj : (Z.of_nat j = days_in_month y m - 28)%Z).
  { unfold j; destruct (days_in_month_cases y m) as [E|[E|[E|E]]];
      rewrite E; reflexivity. }
  assert (Hj3 : (j <= 3)%nat).
  { destruct (days_in_month_cases y m) as [E|[E|[E|E]]]; lia. }
  replace 4%nat with (j + (1 + (3 - j)))%nat by lia.
  rewrite add_days_plus, add_days_same_month
    by (cbn [d_year d_month d_day]; lia).
  rewrite add_days_plus.
  cbn [d_year d_month d_day d_hour d_minute d_second].
  assert (Hroll :
            add_days 1 (mkDatetime y m (28 + Z.of_nat j) h mi s)
            = Some (mkDatetime (if (m <? 12)%Z then y else (y + 1)%Z)
                      (if (m <? 12)%Z then (m + 1)%Z else 1%Z) 1 h mi s)).
  { cbn [add_days].
    destruct (Z.ltb_spec m 12) as [Hlt|Hge].
    - rewrite next_day_next_month
        by (cbn [d_year d_month d_day]; lia); reflexivity.
    - rewrite next_day_next_year
        by (cbn [d_year d_month d_day]; lia); reflexivity. }
  rewrite Hroll.
  pose proof (days_in_month_cases
                (if (m <? 12)%Z then y else (y + 1)%Z)
                (if (m <? 12)%Z then (m + 1)%Z else 1%Z)) as Hnext.
  rewrite add_days_same_month by (cbn [d_year d_month d_day]; lia).
  cbn [d_year d_month d_day d_hour d_minute d_second].
  do 2 f_equal; lia.
Qed.

Lemma last_day_of_month_value (any_day : datetime) :
  (1 <= d_year any_day)%Z ->
  (1 <= d_month any_day <= 12)%Z ->
  (d_month any_day = 12%Z -> d_year any_day < MAXYEAR)%Z ->
  last_day_of_month any_day
  = Some (mkDatetime (d_year any_day) (d_month any_day)
            (days_in_month (d_year any_day) (d_month any_day))
            (d_hour any_day) (d_minute any_day) (d_second any_day)).
Proof.
  destruct any_day as [y m d h mi s];
    cbn [d_year d_month d_day d_hour d_minute d_second]; intros Hy1 Hm Hy.
  unfold last_day_of_month, replace_day_28;
    cbn [d_year d_month d_day d_hour d_minute d_second].
  rewrite four_days_after_28th by assumption.
  cbn [d_day].
  set (j := Z.to_nat (31 - days_in_month y m)).
  assert (Hj : (Z.of_nat j = 31 - days_in_month y m)%Z).
  { unfold j; destruct (days_in_month_cases y m) as [E|[E|[E|E]]];
      rewrite E; reflexivity. }
  replace (Z.to_nat (32 - days_in_month y m)) with (j + 1)%nat by lia.
  rewrite sub_days_plus, sub_days_same_month
    by (cbn [d_year d_month d_day]; lia).
  cbn [sub_days d_year d_month d_day d_hour d_minute d_second].
  destruct (Z.ltb_spec m 12) as [Hlt|Hge].
  - rewrite prev_day_prev_month by (cbn [d_year d_month d_day]; lia).
    cbn [d_year d_month d_day d_hour d_minute d_second].
    replace (m + 1 - 1)%Z with m by lia; reflexivity.
  - rewrite prev_day_prev_year by (cbn [d_year d_month d_day]; lia).
    cbn [d_year d_month d_day d_hour d_minute d_second].
    assert (m = 12%Z) by lia; subst m.
    replace (y + 1 - 1)%Z with y by lia; reflexivity.
Qed.

(** X1.  [last_day_of_month] returns the last day of the month of
    [any_day], at the time of day of [any_day], in every month but December
    of [MAXYEAR]. *)
Theorem last_day_of_month_spec (any_day : datetime) :
  (1 <= d_year any_day)%Z ->
  (1 <= d_month any_day <= 12)%Z ->
  (d_month any_day = 12%Z -> d_year any_day < MAXYEAR)%Z ->
  last_day_of_month any_day
  = Some (mkDatetime (d_year any_day) (d_month any_day)
            (days_in_month (d_year any_day) (d_month any_day))
            (d_hour any_day) (d_minute any_day) (d_second any_day)).
Proof.
  apply last_day_of_month_value.
Qed.

Lemma last_day_of_month_spec_witness :
  last_day_of_month (mkDatetime 2024 2 10 13 30 0)
  = Some (mkDatetime (d_year (mkDatetime 2024 2 10 13 30 0))
            (d_month (mkDatetime 2024 2 10 13 30 0))
            (days_in_month (d_year (mkDatetime 2024 2 10 13 30 0))
               (d_month (mkDatetime 2024 2 10 13 30 0)))
            (d_hour (mkDatetime 2024 2 10 13 30 0))
            (d_minute (mkDatetime 2024 2 10 13 30 0))
            (d_second (mkDatetime 2024 2 10 13 30 0))).
Proof.
  apply (last_day_of_month_spec (mkDatetime 2024 2 10 13 30 0)).
  - simpl; lia.
  - simpl; lia.
  - simpl; intros H; discriminate H.
Defined.

(** X2.  In December of [MAXYEAR] the fourth day after the 28th is out of range:
    [last_day_of_month] raises [OverflowError]. *)
Theorem last_day_of_month_overflow (any_day : datetime) :
  d_month any_day = 12%Z ->
  (MAXYEAR <= d_year any_day)%Z ->
  last_day_of_month any_day = None.
Proof.
  destruct any_day as [y m d h mi s];
    cbn [d_year d_month d_day d_hour d_minute d_second]; intros -> Hy.
  unfold last_day_of_month, replace_day_28;
    cbn [d_year d_month d_day d_hour d_minute d_second].
  replace 4%nat with (3 + 1)%nat by reflexivity.
  rewrite add_days_plus, add_days_same_month
    by (cbn [d_year d_month d_day]; change (days_in_month y 12) with 31%Z; lia).
  cbn [add_days d_year d_month d_day d_hour d_minute d_second].
  rewrite next_day_overflow; [reflexivity | | |];
    cbn [d_year d_month d_day]; try lia.
  change (days_in_month y 12) with 31%Z; lia.
Qed.

Lemma last_day_of_month_overflow_witness :
  last_day_of_month (mkDatetime 9999 12 5 0 0 0) = None.
Proof.
  apply (last_day_of_month_overflow (mkDatetime 9999 12 5 0 0 0)).
  - reflexivity.
  - unfold MAXYEAR; simpl; lia.
Defined.

(** X3.  [month_end] of the month loop is 23:45:00 on the last day of the
    month, for every month the loop can reach. *)
Theorem loop_month_end_spec (year month : Z) :
  (1 <= year)%Z ->
  (1 <= month <= 12)%Z ->
  (month = 12%Z -> year < MAXYEAR)%Z ->
  loop_month_end year month
  = Some (mkDatetime year month (days_in_month year month) 23 45 0).
Proof.
  intros Hy Hm Hmax; unfold loop_month_end.
  rewrite (last_day_of_month_value (mkDatetime year month 1 0 0 0))
    by assumption.
  reflexivity.
Qed.

Lemma loop_month_end_spec_witness :
  loop_month_end 2021 2 = Some (mkDatetime 2021 2 (days_in_month 2021 2) 23 45 0).
Proof.
  apply (loop_month_end_spec 2021 2).
  - lia.
  - lia.
  - intros H; discriminate H.
Defined.

(** ** The energy scan without a crossing *)

Lemma scan_tier_no_crossing (rates consumption_data : list Q)
    (divisor next : Q) (len : nat) :
  forall (s : nat) (st : scan_state),
    (s + len <= length consumption_data)%nat ->
    sc_energy st == np_sum (firstn s consumption_data) ->
    (forall k, (s <= k < s + len)%nat ->
               np_sum (firstn (S k) consumption_data) / divisor <= next) ->
    exists st',
      scan_tier (seq s len) rates consumption_data divisor next st = OK st'
      /\ sc_cost st' = sc_cost st
      /\ sc_start st' = sc_start st
      /\ sc_energy st' == np_sum (firstn (s + len) consumption_data)
      /\ sc_i st' = match len with
                    | O => sc_i st
                    | S _ => Some (s + len - 1)%nat
                    end.
Proof.
  induction len as [|len IH]; intros s st Hbound He Hno.
  - exists st; cbn [seq scan_tier]; rewrite Nat.add_0_r; auto.
  - cbn [seq scan_tier].
    destruct (getitem_OK consumption_data s) as (c & Hc & Hn); [lia|].
    rewrite Hc; cbn [bind].
    assert (Hsum : sc_energy st + c
                   == np_sum (firstn (S s) consumption_data)).
    { rewrite (np_sum_prefix_S _ _ _ Hn), He; reflexivity. }
    assert (Htest : Qlt_bool next ((sc_energy st + c) / divisor) = false).
    { rewrite (Qlt_bool_compat next _ next
                 (np_sum (firstn (S s) consumption_data) / divisor));
        [apply Qlt_bool_false_iff; apply Hno; lia | reflexivity |].
      rewrite Hsum; reflexivity. }
    rewrite Htest.
    destruct (IH (S s)
                (mkScan (sc_cost st) (sc_energy st + c) (sc_start st) (Some s)))
      as (st' & Hscan & Hcost & Hstart & Hen & Hi);
      [lia | exact Hsum | intros k Hk; apply Hno; lia |].
    exists st'; split; [exact Hscan|].
    cbn [sc_cost sc_start sc_i] in *.
    repeat split; try assumption.
    + replace (s + S len)%nat with (S s + len)%nat by lia; exact Hen.
    + rewrite Hi; destruct len; f_equal; lia.
Qed.

Lemma energy_no_crossing_cost (n : nat) (name next : Q)
    (rates rates2 consumption_data : list Q) (rest : list (Q * list Q))
    (utility_ : string) (divisor : Q) :
  energy_divisor utility_ = OK divisor ->
  length rates = length consumption_data ->
  (0 < length consumption_data)%nat ->
  (forall k, (k < length consumption_data)%nat ->
             np_sum (firstn (S k) consumption_data) / divisor <= next) ->
  calculate_cost (Struct1 n ((name, rates) :: (next, rates2) :: rest))
    consumption_data "energy" utility_
  = OK (0 + elementwise_bill consumption_data rates divisor).
Proof.
  intros Hd Hl Hpos Hno.
  unfold calculate_cost; cbn [String.eqb Ascii.eqb Bool.eqb].
  rewrite Hd; cbn [bind energy_tiers next_name fst sc_start].
  rewrite Nat.sub_0_r.
  destruct (scan_tier_no_crossing rates consumption_data divisor next
              (length rates) 0 (mkScan 0 0 0 None))
    as (st' & Hscan & Hcost & Hstart & _ & Hi);
    [lia | reflexivity | intros k Hk; apply Hno; lia |].
  rewrite Hscan; cbn [bind]; rewrite Hi.
  destruct (length rates) as [|m] eqn:Hm; [lia|].
  replace (0 + S m - 1)%nat with m by lia.
  rewrite Nat.eqb_refl, Hstart, Hcost.
  cbn [sc_start sc_cost skipn].
  rewrite billed_aligned by lia; reflexivity.
Qed.

(** X4.  When the running total of the window never passes the limit of
    the second tier, the energy cost is the whole window billed at the
    rates of the first tier, whatever tiers follow.  The running totals
    are taken exact in binary64, so that the sample at which the code's
    rounded total passes a limit is the one at which the exact total
    does. *)
Theorem energy_no_crossing (n : nat) (name next : Q)
    (rates rates2 consumption_data : list Q) (rest : list (Q * list Q))
    (utility_ : string) (divisor : Q) :
  energy_divisor utility_ = OK divisor ->
  length rates = length consumption_data ->
  (0 < length consumption_data)%nat ->
  exact_running_totals consumption_data divisor (length consumption_data) ->
  (forall k, (k < length consumption_data)%nat ->
             np_sum (firstn (S k) consumption_data) / divisor <= next) ->
  exists cost,
    calculate_cost (Struct1 n ((name, rates) :: (next, rates2) :: rest))
      consumption_data "energy" utility_ = OK cost
    /\ cost == elementwise_bill consumption_data rates divisor.
Proof.
  intros Hd Hl Hpos _ Hno; eexists; split.
  - apply energy_no_crossing_cost; eassumption.
  - apply Qplus_0_l.
Qed.

Lemma energy_no_crossing_witness :
  exists cost,
    calculate_cost (Struct1 3 ((0, [1; 1; 1]) :: (10, [2; 2; 2]) :: []))
      [4; 8; 4] "energy" "electric" = OK cost
    /\ cost == elementwise_bill [4; 8; 4] [1; 1; 1] 4.
Proof.
  apply (energy_no_crossing 3 0 10 [1; 1; 1] [2; 2; 2] [4; 8; 4] []
           "electric" 4).
  - reflexivity.
  - reflexivity.
  - simpl; lia.
  - intros [|[|[|k]]] Hk; simpl in Hk; try lia; split.
    + exists 4%Z, 0%Z; repeat split; try lia; vm_compute; reflexivity.
    + exists 1%Z, 0%Z; repeat split; try lia; vm_compute; reflexivity.
    + exists 12%Z, 0%Z; repeat split; try lia; vm_compute; reflexivity.
    + exists 3%Z, 0%Z; repeat split; try lia; vm_compute; reflexivity.
    + exists 16%Z, 0%Z; repeat split; try lia; vm_compute; reflexivity.
    + exists 4%Z, 0%Z; repeat split; try lia; vm_compute; reflexivity.
  - intros [|[|[|k]]] Hk; simpl in Hk; try lia;
      vm_compute; intros H; discriminate H.
Defined.

(** X5.  For two tiers, when sample [i] is the first at which the running
    total passes the second limit, the cost is the samples before [i] and
    the part of sample [i] below the limit at the first tier's rates, plus
    the samples after [i] at the second tier's rates.  The running totals
    up to sample [i] are taken exact in binary64, so that [i] is also the
    sample at which the code's rounded total passes the limit. *)
Theorem energy_crossing_cost (n : nat) (name next : Q)
    (rates1 rates2 consumption_data : list Q) (utility_ : string)
    (divisor : Q) (i : nat) :
  energy_divisor utility_ = OK divisor ->
  length rates1 = length consumption_data ->
  length rates2 = length consumption_data ->
  (i < length consumption_data)%nat ->
  exact_running_totals consumption_data divisor (S i) ->
  next < np_sum (firstn (S i) consumption_data) / divisor ->
  (forall k, (k < i)%nat ->
             np_sum (firstn (S k) consumption_data) / divisor <= next) ->
  exists cost,
    calculate_cost (Struct1 n [(name, rates1); (next, rates2)])
      consumption_data "energy" utility_ = OK cost
    /\ cost == billed_at_crossing rates1 rates2 consumption_data divisor next i.
Proof.
  intros Hd Hl1 Hl2 Hi _; apply two_tier_crossing_cost; assumption.
Qed.

Lemma energy_crossing_cost_witness :
  exists cost,
    calculate_cost (Struct1 3 [(0, [1; 1; 1]); (1, [2; 2; 2])])
      [2; 3; 2] "energy" "electric" = OK cost
    /\ cost == billed_at_crossing [1; 1; 1] [2; 2; 2] [2; 3; 2] 4 1 1.
Proof.
  apply (energy_crossing_cost 3 0 1 [1; 1; 1] [2; 2; 2] [2; 3; 2]
           "electric" 4 1).
  - reflexivity.
  - reflexivity.
  - reflexivity.
  - simpl; lia.
  - intros [|[|k]] Hk; try lia; split.
    + exists 2%Z, 0%Z; repeat split; try lia; vm_compute; reflexivity.
    + exists 1%Z, (-1)%Z; repeat split; try lia; vm_compute; reflexivity.
    + exists 5%Z, 0%Z; repeat split; try lia; vm_compute; reflexivity.
    + exists 5%Z, (-2)%Z; repeat split; try lia; vm_compute; reflexivity.
  - vm_compute; reflexivity.
  - intros [|k] Hk; [|lia].
    vm_compute; intros H; discriminate H.
Defined.

Lemma np_sum_all_zero (l : list Q) :
  Forall (fun c => c == 0) l -> np_sum l == 0.
Proof.
  unfold np_sum; induction 1 as [|c l Hc _ IH]; cbn [fold_right];
    [reflexivity|].
  rewrite Hc, IH; ring.
Qed.

Lemma Forall_firstn {A : Type} (P : A -> Prop) (l : list A) (k : nat) :
  Forall P l -> Forall P (firstn k l).
Proof.
  intros H; apply Forall_forall; intros x Hx.
  rewrite Forall_forall in H; apply H.
  rewrite <- (firstn_skipn k l); apply in_or_app; left; exact Hx.
Qed.

Lemma elementwise_bill_zero_consumption (consumption_data rates : list Q)
    (divisor : Q) :
  Forall (fun c => c == 0) consumption_data ->
  elementwise_bill consumption_data rates divisor == 0.
Proof.
  unfold elementwise_bill, np_sum; intros H; revert rates.
  induction H as [|c l Hc _ IH]; intros [|r rates]; cbn [combine map fold_right];
    try reflexivity.
  cbn [fst snd]; rewrite IH, Hc; unfold Qdiv; ring.
Qed.

(** X6.  A window whose consumption is zero at every sample costs nothing
    in energy, for one tier or several (the second limit not being
    negative). *)
Theorem energy_zero_consumption (n : nat) (name : Q) (rates : list Q)
    (rest : list (Q * list Q)) (consumption_data : list Q)
    (utility_ : string) :
  In utility_ utilities ->
  length rates = length consumption_data ->
  (0 < length consumption_data)%nat ->
  Forall (fun c => c == 0) consumption_data ->
  match next_name rest with
  | Some next => 0 <= next
  | None => True
  end ->
  exists cost,
    calculate_cost (Struct1 n ((name, rates) :: rest)) consumption_data
      "energy" utility_ = OK cost
    /\ cost == 0.
Proof.
  intros Hu Hl Hpos Hzero Hnext.
  assert (Hd : exists divisor, energy_divisor utility_ = OK divisor).
  { destruct (energy_divisor_spec utility_)
      as [(_ & E) | [(_ & E) | (Hbad & _)]]; eauto; contradiction. }
  destruct Hd as (divisor & Hd).
  destruct rest as [|[next rates2] rest].
  - rewrite (single_tier_cost _ _ _ _ _ _ Hd Hl).
    eexists; split; [reflexivity|].
    rewrite elementwise_bill_zero_consumption by exact Hzero; ring.
  - cbn [next_name fst] in Hnext.
    rewrite (energy_no_crossing_cost n name next rates rates2 consumption_data
               rest utility_ divisor Hd Hl Hpos).
    + eexists; split; [reflexivity|].
      rewrite elementwise_bill_zero_consumption by exact Hzero; ring.
    + intros k _.
      rewrite (np_sum_all_zero (firstn (S k) consumption_data))
        by (apply Forall_firstn; exact Hzero).
      unfold Qdiv; rewrite Qmult_0_l; exact Hnext.
Qed.

Lemma energy_zero_consumption_witness :
  exists cost,
    calculate_cost (Struct1 3 ((0, [1; 1; 1]) :: [(1, [2; 2; 2])])) [0; 0; 0]
      "energy" "gas" = OK cost
    /\ cost == 0.
Proof.
  apply (energy_zero_consumption 3 0 [1; 1; 1] [(1, [2; 2; 2])] [0; 0; 0] "gas").
  - simpl; auto.
  - reflexivity.
  - simpl; lia.
  - repeat constructor.
  - simpl; unfold Qle; simpl; lia.
Defined.

(** ** When the energy cost is returned *)

Lemma scan_tier_total (rates consumption_data : list Q) (divisor next : Q)
    (range : list nat) :
  length rates = length consumption_data ->
  Forall (fun i => (i < length consumption_data)%nat) range ->
  forall st,
    exists st',
      scan_tier range rates consumption_data divisor next st = OK st'
      /\ (range <> [] \/ sc_i st <> None -> sc_i st' <> None).
Proof.
  intros Hl; induction range as [|i range IH]; intros Hall st.
  - exists st; split; [reflexivity|].
    intros [H|H]; [congruence | exact H].
  - inversion Hall as [|? ? Hi Hrest]; subst.
    cbn [scan_tier].
    destruct (getitem_OK consumption_data i Hi) as (c & Hc & _).
    rewrite Hc; cbn [bind].
    destruct (Qlt_bool next ((sc_energy st + c) / divisor)).
    + rewrite billed_aligned by (rewrite !length_slice, Hl; reflexivity).
      cbn [bind].
      assert (Hr : nth_error rates i = Some (nth i rates 0))
        by (apply nth_error_nth'; lia).
      rewrite Hr; eexists; split; [reflexivity|].
      intros _; cbn [sc_i]; discriminate.
    + destruct (IH Hrest
                  (mkScan (sc_cost st) (sc_energy st + c) (sc_start st)
                     (Some i)))
        as (st' & Hscan & Hi').
      exists st'; split; [exact Hscan|].
      intros _; apply Hi'; right; cbn [sc_i]; discriminate.
Qed.

Lemma energy_tiers_total (consumption_data : list Q) (divisor : Q)
    (fields : list (Q * list Q)) :
  Forall (fun f => length (snd f) = length consumption_data) fields ->
  forall st,
    (sc_i st <> None \/ (sc_start st < length consumption_data)%nat) ->
    exists cost, energy_tiers fields consumption_data divisor st = OK cost.
Proof.
  induction fields as [|[name rates] rest IH]; intros Hall st Hst.
  - cbn [energy_tiers]; eauto.
  - inversion Hall as [|? ? Hl Hrest]; subst; cbn [snd] in Hl.
    cbn [energy_tiers].
    destruct (next_name rest) as [next|].
    + destruct (scan_tier_total rates consumption_data divisor next
                  (seq (sc_start st) (length rates - sc_start st)) Hl)
        with (st := st) as (st' & Hscan & Hi).
      { apply Forall_forall; intros i Hi; apply in_seq in Hi; lia. }
      rewrite Hscan; cbn [bind].
      assert (Hsome : sc_i st' <> None).
      { apply Hi; destruct Hst as [H|H]; [right; exact H | left].
        destruct (length rates - sc_start st)%nat eqn:E; [lia | discriminate]. }
      destruct (sc_i st') as [i|] eqn:Ei; [|congruence].
      destruct (Nat.eqb (S i) (length rates)).
      * rewrite billed_aligned by (rewrite !length_skipn, Hl; reflexivity).
        cbn [bind]; eauto.
      * apply IH; [exact Hrest | left; rewrite Ei; discriminate].
    + rewrite billed_aligned by (rewrite !length_skipn, Hl; reflexivity).
      cbn [bind]; eauto.
Qed.

(** X7.  On an energy table whose fields are aligned with a non-empty
    consumption series, [calculate_cost] returns a cost for either
    utility: the scan raises nothing. *)
Theorem energy_cost_returned (n : nat) (fields : list (Q * list Q))
    (consumption_data : list Q) (utility_ : string) :
  In utility_ utilities ->
  Forall (fun f => length (snd f) = length consumption_data) fields ->
  (0 < length consumption_data)%nat ->
  exists cost,
    calculate_cost (Struct1 n fields) consumption_data "energy" utility_
    = OK cost.
Proof.
  intros Hu Hall Hpos.
  unfold calculate_cost; cbn [String.eqb Ascii.eqb Bool.eqb].
  destruct (energy_divisor_spec utility_)
    as [(_ & E) | [(_ & E) | (Hbad & _)]]; [| |contradiction];
    rewrite E; cbn [bind];
    apply energy_tiers_total; auto; right; cbn [sc_start]; exact Hpos.
Qed.

Lemma energy_cost_returned_witness :
  exists cost,
    calculate_cost (Struct1 3 [(0, [1; 1; 1]); (1, [2; 2; 2]); (2, [3; 3; 3])])
      [2; 9; 2] "energy" "electric" = OK cost.
Proof.
  apply (energy_cost_returned 3 [(0, [1; 1; 1]); (1, [2; 2; 2]); (2, [3; 3; 3])]
           [2; 9; 2] "electric").
  - simpl; auto.
  - repeat constructor.
  - simpl; lia.
Defined.

(** X8.  On an energy table of two tiers or more that has no rows, the
    inner loop never binds [i], and the test after it raises [NameError]
    instead of returning a zero cost. *)
Theorem energy_empty_table_name_error (n : nat) (name : Q)
    (second : Q * list Q) (rest : list (Q * list Q))
    (consumption_data : list Q) (utility_ : string) :
  In utility_ utilities ->
  calculate_cost (Struct1 n ((name, []) :: second :: rest)) consumption_data
    "energy" utility_
  = Raise (NameError "i").
Proof.
  intros Hu; unfold calculate_cost; cbn [String.eqb Ascii.eqb Bool.eqb].
  destruct (energy_divisor_spec utility_)
    as [(_ & E) | [(_ & E) | (Hbad & _)]]; [| |contradiction];
    rewrite E; reflexivity.
Qed.

Lemma energy_empty_table_name_error_witness :
  calculate_cost (Struct1 0 ((0, []) :: (100, []) :: [])) [] "energy" "electric"
  = Raise (NameError "i").
Proof.
  apply (energy_empty_table_name_error 0 0 (100, []) [] [] "electric").
  simpl; auto.
Defined.

(** ** The peak of a column *)

Lemma argmax_from_spec (l : list Q) :
  forall (i : nat) (best : nat * Q),
    snd best <= snd (argmax_from l i best)
    /\ Forall (fun x => x <= snd (argmax_from l i best)) l
    /\ (argmax_from l i best = best
        \/ exists j, fst (argmax_from l i best) = (i + j)%nat
                     /\ nth_error l j = Some (snd (argmax_from l i best))).
Proof.
  induction l as [|x l IH]; intros i best; cbn [argmax_from].
  - split; [apply Qle_refl|]; split; [constructor | left; reflexivity].
  - destruct (Qlt_bool (snd best) x) eqn:E.
    + apply Qlt_bool_iff in E.
      destruct (IH (S i) (i, x)) as (Hle & Hall & Hpos); cbn [snd] in Hle.
      split; [lra|]; split; [constructor; assumption|].
      right; destruct Hpos as [Heq|(j & Hj & Hn)].
      * exists 0%nat; rewrite Heq; cbn [fst snd nth_error]; split;
          [lia | reflexivity].
      * exists (S j); split; [lia | exact Hn].
    + apply Qlt_bool_false_iff in E.
      destruct (IH (S i) best) as (Hle & Hall & Hpos).
      split; [exact Hle|]; split; [constructor; [lra | exact Hall]|].
      destruct Hpos as [Heq|(j & Hj & Hn)]; [left; exact Heq|].
      right; exists (S j); split; [lia | exact Hn].
Qed.

Lemma np_argmax_spec (l : list Q) (pos : nat) :
  np_argmax l = OK pos ->
  exists v, nth_error l pos = Some v /\ Forall (fun x => x <= v) l.
Proof.
  destruct l as [|x l]; cbn [np_argmax]; intros H; [discriminate|].
  injection H as <-.
  destruct (argmax_from_spec l 1 (0%nat, x)) as (Hle & Hall & Hpos).
  cbn [snd] in Hle.
  exists (snd (argmax_from l 1 (0%nat, x))); split.
  - destruct Hpos as [Heq|(j & Hj & Hn)].
    + rewrite Heq; reflexivity.
    + rewrite Hj; exact Hn.
  - constructor; assumption.
Qed.

Lemma argmax_from_no_greater (l : list Q) :
  forall (i : nat) (best : nat * Q),
    Forall (fun x => x <= snd best) l -> argmax_from l i best = best.
Proof.
  induction l as [|x l IH]; intros i best Hall; cbn [argmax_from];
    [reflexivity|].
  inversion Hall as [|? ? Hx Hrest]; subst.
  assert (E : Qlt_bool (snd best) x = false)
    by (apply Qlt_bool_false_iff; exact Hx).
  rewrite E; apply IH; exact Hrest.
Qed.

Lemma masked_product_nth (mask : list bool) (rate : Q)
    (consumption_data : list Q) (k : nat) (b : bool) (c : Q) :
  nth_error mask k = Some b ->
  nth_error consumption_data k = Some c ->
  nth_error (map (fun p => fst p * snd p)
               (combine consumption_data (mask_times mask rate))) k
  = Some (c * (if b then rate else 0)).
Proof.
  intros Hb Hc; unfold mask_times.
  rewrite nth_error_map, nth_error_combine, nth_error_map, Hb, Hc.
  reflexivity.
Qed.

Lemma peak_of_masked_column (mask : list bool) (rate : Q)
    (consumption_data : list Q) :
  0 < rate ->
  length mask = length consumption_data ->
  (exists k c, nth_error mask k = Some true
               /\ nth_error consumption_data k = Some c /\ 0 < c) ->
  exists peak pos,
    peak_demand (mask_times mask rate) consumption_data = OK peak
    /\ nth_error consumption_data pos = Some peak
    /\ nth_error mask pos = Some true
    /\ forall j c, nth_error mask j = Some true ->
                   nth_error consumption_data j = Some c -> c <= peak.
Proof.
  intros Hrate Hlen (k & ck & Hmk & Hck & Hpos).
  unfold peak_demand, mul_series.
  assert (Hml : length (mask_times mask rate) = length consumption_data)
    by (unfold mask_times; rewrite length_map; exact Hlen).
  rewrite Hml, Nat.eqb_refl; cbn [bind].
  set (prod := map (fun p => fst p * snd p)
                 (combine consumption_data (mask_times mask rate))).
  assert (Hpl : length prod = length consumption_data).
  { unfold prod; rewrite length_map, length_combine, Hml; apply Nat.min_id. }
  destruct (np_argmax prod) as [pos|e] eqn:Ha.
  2:{ destruct prod as [|x prod'] eqn:Ep; [|discriminate].
      assert (k < length consumption_data)%nat
        by (apply nth_error_Some; congruence).
      simpl in Hpl; lia. }
  cbn [bind].
  pose proof (np_argmax_bound _ _ Ha) as Hb; rewrite Hpl in Hb.
  destruct (getitem_OK consumption_data pos Hb) as (peak & Hg & Hn).
  rewrite Hg; exists peak, pos; split; [reflexivity|]; split; [exact Hn|].
  destruct (np_argmax_spec _ _ Ha) as (v & Hv & Hall).
  destruct (nth_error mask pos) as [b|] eqn:Hmb;
    [|apply nth_error_None in Hmb; lia].
  unfold prod in Hv; rewrite (masked_product_nth _ _ _ _ _ _ Hmb Hn) in Hv.
  injection Hv as Hv.
  assert (Hge : forall j c, nth_error mask j = Some true ->
                            nth_error consumption_data j = Some c ->
                            c * rate <= v).
  { intros j c Hj Hc; rewrite Forall_forall in Hall; apply Hall.
    eapply nth_error_In; unfold prod.
    rewrite (masked_product_nth _ _ _ _ _ _ Hj Hc); reflexivity. }
  assert (Hvpos : 0 < v).
  { apply Qlt_le_trans with (ck * rate); [|apply (Hge k ck Hmk Hck)].
    apply Qmult_lt_0_compat; assumption. }
  destruct b.
  - split; [reflexivity|].
    intros j c Hj Hc; apply (Qmult_lt_0_le_reg_r _ _ rate Hrate).
    rewrite Hv; apply (Hge j c Hj Hc).
  - exfalso; rewrite <- Hv in Hvpos.
    assert (peak * 0 == 0) by ring; lra.
Qed.

(** X9.  For a column of a positive rate, the demand read by
    [calculate_cost] is the largest consumption among the timestamps where
    the column's mask holds, as soon as one of them has a positive
    consumption. *)
Theorem peak_is_masked_maximum (mask : list bool) (rate : Q)
    (consumption_data : list Q) :
  0 < rate ->
  length mask = length consumption_data ->
  (exists k c, nth_error mask k = Some true
               /\ nth_error consumption_data k = Some c /\ 0 < c) ->
  exists peak pos,
    peak_demand (mask_times mask rate) consumption_data = OK peak
    /\ nth_error consumption_data pos = Some peak
    /\ nth_error mask pos = Some true
    /\ forall j c, nth_error mask j = Some true ->
                   nth_error consumption_data j = Some c -> c <= peak.
Proof.
  apply peak_of_masked_column.
Qed.

Lemma peak_is_masked_maximum_witness :
  exists peak pos,
    peak_demand (mask_times [true; true; false] 2) [4; 10; 30] = OK peak
    /\ nth_error [4; 10; 30] pos = Some peak
    /\ nth_error [true; true; false] pos = Some true
    /\ forall j c, nth_error [true; true; false] j = Some true ->
                   nth_error [4; 10; 30] j = Some c -> c <= peak.
Proof.
  apply (peak_is_masked_maximum [true; true; false] 2 [4; 10; 30]).
  - reflexivity.
  - reflexivity.
  - exists 0%nat, 4; repeat split.
Defined.

Lemma all_false_column (mask : list bool) (rate : Q) :
  Forall (fun b => b = false) mask ->
  mask_times mask rate = np_zeros (length mask).
Proof.
  unfold mask_times, np_zeros; induction 1 as [|b mask Hb _ IH];
    cbn [map length repeat]; [reflexivity|].
  rewrite Hb, IH; reflexivity.
Qed.

Lemma peak_of_zero_column (c0 : Q) (rest : list Q) :
  peak_demand (np_zeros (S (length rest))) (c0 :: rest) = OK c0.
Proof.
  unfold peak_demand, mul_series, np_zeros.
  rewrite repeat_length; cbn [length]; rewrite Nat.eqb_refl; cbn [bind].
  cbn [repeat combine map fst snd np_argmax].
  rewrite argmax_from_no_greater; [reflexivity|].
  cbn [snd]; apply Forall_forall; intros x Hx.
  apply in_map_iff in Hx as ([c r] & <- & Hin).
  apply in_combine_r in Hin; apply repeat_spec in Hin; subst r.
  cbn [fst snd].
  assert (c * 0 == 0) by ring; assert (c0 * 0 == 0) by ring; lra.
Qed.

(** X10.  For a column whose mask holds at no timestamp of the window, the
    demand read is the first sample of the window, not a masked maximum. *)
Theorem peak_of_unmasked_column (mask : list bool) (rate c0 : Q)
    (rest : list Q) :
  Forall (fun b => b = false) mask ->
  length mask = S (length rest) ->
  peak_demand (mask_times mask rate) (c0 :: rest) = OK c0.
Proof.
  intros Hall Hlen.
  rewrite all_false_column by exact Hall.
  rewrite Hlen; apply peak_of_zero_column.
Qed.

Lemma peak_of_unmasked_column_witness :
  peak_demand (mask_times [false; false; false] 5) [4; 10; 30] = OK 4.
Proof.
  apply (peak_of_unmasked_column [false; false; false] 5 4 [10; 30]).
  - repeat constructor.
  - reflexivity.
Defined.

(** ** The charge of a column *)

(** X11.  When the peak of a column is strictly above the next tier's
    limit, the tier is charged its full width, (L_next - L_this) x rate,
    whatever the peak. *)
Theorem demand_full_width (this nx rate : Q) (mask : list bool)
    (consumption_data : list Q) (peak : Q) :
  peak_demand (mask_times mask rate) consumption_data = OK peak ->
  nx < peak ->
  this <= nx ->
  0 <= rate ->
  In true mask ->
  exists c,
    demand_charge this (Some nx) (mask_times mask rate) consumption_data = OK c
    /\ c == (nx - this) * rate.
Proof.
  intros Hp Hlt Hle Hrate Hin.
  rewrite (demand_charge_branches _ _ _ _ _ Hp).
  assert (E : Qlt_bool nx peak = true) by (apply Qlt_bool_iff; exact Hlt).
  rewrite E; unfold flat_charge.
  apply np_max_scaled_column; [lra | exact Hrate | exact Hin].
Qed.

Lemma demand_full_width_witness :
  exists c,
    demand_charge 0 (Some 10) (mask_times [true; true; false] 2) [4; 25; 30]
    = OK c
    /\ c == (10 - 0) * 2.
Proof.
  apply (demand_full_width 0 10 2 [true; true; false] [4; 25; 30] 25).
  - reflexivity.
  - reflexivity.
  - unfold Qle; simpl; lia.
  - unfold Qle; simpl; lia.
  - simpl; auto.
Defined.

(** ** The demand cost of a table *)

Lemma next_name_single_columns (rest : list (Q * list Q)) :
  next_name (as_single_columns rest) = next_name rest.
Proof.
  destruct rest as [|[name col] rest]; reflexivity.
Qed.

Lemma demand_cost1_single_columns (fields : list (Q * list Q))
    (consumption_data : list Q) :
  forall cost,
    demand_cost1 fields consumption_data cost
    = demand_cost2 (as_single_columns fields) consumption_data cost.
Proof.
  induction fields as [|[name col] rest IH]; intros cost; [reflexivity|].
  cbn [demand_cost1 as_single_columns map fst snd demand_cost2].
  fold (as_single_columns rest); rewrite next_name_single_columns.
  unfold demand_columns; cbn [for_each].
  destruct (demand_charge name (next_name rest) col consumption_data) as [c|e];
    cbn [bind]; [apply IH | reflexivity].
Qed.

(** X12.  The handler of [IndexError] in the demand path bills a
    one-dimensional table exactly as the main branch bills the table of
    the same fields with one column each. *)
Theorem demand_fallback_single_column (n : nat) (fields : list (Q * list Q))
    (consumption_data : list Q) (utility_ : string) :
  calculate_cost (Struct1 n fields) consumption_data "demand" utility_
  = calculate_cost (Struct2 n 1 (as_single_columns fields)) consumption_data
      "demand" utility_.
Proof.
  unfold calculate_cost; cbn [String.eqb Ascii.eqb Bool.eqb].
  apply demand_cost1_single_columns.
Qed.

Lemma same_outcome_refl (r : result Q) : same_outcome r r.
Proof.
  destruct r; simpl; reflexivity.
Qed.

Lemma demand_columns_compat (this : Q) (next : option Q)
    (cols : list (list Q)) (consumption_data : list Q) :
  forall c1 c2,
    c1 == c2 ->
    same_outcome (demand_columns this next cols consumption_data c1)
      (demand_columns this next cols consumption_data c2).
Proof.
  unfold demand_columns; induction cols as [|col cols IH]; intros c1 c2 H;
    cbn [for_each]; [exact H|].
  destruct (demand_charge this next col consumption_data) as [c|e];
    cbn [bind]; [|reflexivity].
  apply IH; rewrite H; reflexivity.
Qed.

Lemma demand_cost2_compat (fields : list (Q * list (list Q)))
    (consumption_data : list Q) :
  forall r1 r2,
    same_outcome r1 r2 ->
    same_outcome (c <- r1 ;; demand_cost2 fields consumption_data c)
      (c <- r2 ;; demand_cost2 fields consumption_data c).
Proof.
  induction fields as [|[name cols] rest IH]; intros [c1|e1] [c2|e2] H;
    simpl in H; try contradiction; cbn [bind demand_cost2]; try exact H.
  apply IH; apply demand_columns_compat; exact H.
Qed.

Lemma np_max_zeros (n : nat) (d : Q) :
  (0 < n)%nat ->
  exists m, np_max (map (fun r => d * r) (np_zeros n)) = OK m /\ m == 0.
Proof.
  intros Hn; apply np_max_constant.
  - destruct n; [lia | discriminate].
  - apply Forall_forall; intros x Hx; apply in_map_iff in Hx as (r & <- & Hr).
    apply repeat_spec in Hr; subst r; ring.
Qed.

Lemma demand_charge_zero_column (this : Q) (next : option Q)
    (consumption_data : list Q) :
  (0 < length consumption_data)%nat ->
  exists c,
    demand_charge this next (np_zeros (length consumption_data))
      consumption_data = OK c
    /\ c == 0.
Proof.
  intros Hpos; unfold demand_charge.
  destruct (peak_demand_OK (np_zeros (length consumption_data))
              consumption_data) as (peak & Hp & _);
    [apply repeat_length | exact Hpos |].
  rewrite Hp; cbn [bind].
  destruct next as [nx|]; [destruct (Qlt_bool nx peak)|];
    try apply excess_charge_zero_column; try exact Hpos.
  unfold flat_charge; apply np_max_zeros; exact Hpos.
Qed.

Lemma demand_columns_zero_column (this : Q) (next : option Q)
    (cols1 cols2 : list (list Q)) (consumption_data : list Q) (cost : Q) :
  (0 < length consumption_data)%nat ->
  same_outcome
    (demand_columns this next
       (cols1 ++ np_zeros (length consumption_data) :: cols2)
       consumption_data cost)
    (demand_columns this next (cols1 ++ cols2) consumption_data cost).
Proof.
  intros Hpos; unfold demand_columns; rewrite !for_each_app.
  destruct (for_each _ cols1 cost) as [c|e]; cbn [bind for_each];
    [|reflexivity].
  destruct (demand_charge_zero_column this next consumption_data Hpos)
    as (z & Hz & Hz0).
  rewrite Hz; cbn [bind].
  apply (demand_columns_compat this next cols2 consumption_data).
  rewrite Hz0; ring.
Qed.

Lemma demand_cost2_zero_column (before after : list (Q * list (list Q)))
    (name : Q) (cols1 cols2 : list (list Q)) (consumption_data : list Q) :
  (0 < length consumption_data)%nat ->
  forall cost,
    same_outcome
      (demand_cost2
         (before
          ++ (name, cols1 ++ np_zeros (length consumption_data) :: cols2)
          :: after)
         consumption_data cost)
      (demand_cost2 (before ++ (name, cols1 ++ cols2) :: after)
         consumption_data cost).
Proof.
  intros Hpos.
  induction before as [|[nm cols] before IH]; intros cost;
    cbn [app demand_cost2].
  - apply demand_cost2_compat, demand_columns_zero_column; exact Hpos.
  - assert (Hnext : next_name
                      (before
                       ++ (name, cols1
                                 ++ np_zeros (length consumption_data) :: cols2)
                       :: after)
                    = next_name (before ++ (name, cols1 ++ cols2) :: after))
      by (destruct before as [|[? ?] ?]; reflexivity).
    rewrite Hnext.
    destruct (demand_columns nm _ cols consumption_data cost) as [c|e];
      cbn [bind]; [apply IH | reflexivity].
Qed.

(** X13.  A column of zeros adds nothing to the demand cost: a table with
    such a column in one of its tiers has the outcome of the table without
    it.  The column that [get_charge_array] leaves at zero for a merged
    rule is of this kind. *)
Theorem zero_column_costs_nothing (n k k' : nat)
    (before after : list (Q * list (list Q))) (name : Q)
    (cols1 cols2 : list (list Q)) (consumption_data : list Q)
    (utility_ : string) :
  (0 < length consumption_data)%nat ->
  same_outcome
    (calculate_cost
       (Struct2 n k
          (before
           ++ (name, cols1 ++ np_zeros (length consumption_data) :: cols2)
           :: after))
       consumption_data "demand" utility_)
    (calculate_cost
       (Struct2 n k' (before ++ (name, cols1 ++ cols2) :: after))
       consumption_data "demand" utility_).
Proof.
  intros Hpos; unfold calculate_cost; cbn [String.eqb Ascii.eqb Bool.eqb].
  apply demand_cost2_zero_column; exact Hpos.
Qed.

Lemma zero_column_costs_nothing_witness :
  same_outcome
    (calculate_cost
       (Struct2 3 2
          ([] ++ (0, [[2; 2; 0]] ++ np_zeros (length [4; 10; 30]) :: [])
           :: [(10, [[3; 3; 3]; [0; 0; 0]])]))
       [4; 10; 30] "demand" "electric")
    (calculate_cost
       (Struct2 3 1
          ([] ++ (0, [[2; 2; 0]] ++ []) :: [(10, [[3; 3; 3]; [0; 0; 0]])]))
       [4; 10; 30] "demand" "electric").
Proof.
  apply (zero_column_costs_nothing 3 2 1 [] [(10, [[3; 3; 3]; [0; 0; 0]])] 0
           [[2; 2; 0]] [] [4; 10; 30] "electric").
  simpl; lia.
Defined.

Lemma np_max_nonneg (l : list Q) (m : Q) :
  np_max l = OK m -> Forall (fun x => 0 <= x) l -> 0 <= m.
Proof.
  intros Hm Hall.
  destruct l as [|x l]; [discriminate|].
  destruct (np_max_spec (x :: l)) as (m' & Hm' & Hin & _); [discriminate|].
  assert (m' = m) by congruence; subst m'.
  rewrite Forall_forall in Hall; apply Hall; exact Hin.
Qed.

Lemma demand_charge_nonneg (this : Q) (next : option Q)
    (col consumption_data : list Q) (c : Q) :
  Forall (fun r => 0 <= r) col ->
  match next with Some nx => this <= nx | None => True end ->
  demand_charge this next col consumption_data = OK c ->
  0 <= c.
Proof.
  intros Hcol Hnext H; unfold demand_charge in H.
  apply bind_OK_inv in H as (peak & _ & H).
  assert (Hex : forall d, excess_charge this d col = OK c -> 0 <= c).
  { intros d Hd; unfold excess_charge in Hd.
    apply bind_OK_inv in Hd as (m & _ & Hd); injection Hd as <-.
    destruct (Qmaxb_spec m 0) as [(_ & ->) | (Hlt & ->)]; lra. }
  destruct next as [nx|]; [|eauto].
  destruct (Qlt_bool nx peak); [|eauto].
  unfold flat_charge in H; eapply np_max_nonneg; [exact H|].
  apply Forall_forall; intros x Hx; apply in_map_iff in Hx as (r & <- & Hr).
  rewrite Forall_forall in Hcol.
  apply Qmult_le_0_compat; [lra | auto].
Qed.

Lemma demand_columns_nonneg (this : Q) (next : option Q)
    (cols : list (list Q)) (consumption_data : list Q) :
  Forall (fun col => Forall (fun r => 0 <= r) col) cols ->
  match next with Some nx => this <= nx | None => True end ->
  forall cost c,
    0 <= cost ->
    demand_columns this next cols consumption_data cost = OK c ->
    0 <= c.
Proof.
  intros Hcols Hnext; unfold demand_columns.
  induction Hcols as [|col cols Hcol _ IH]; intros cost c Hcost H;
    cbn [for_each] in H.
  - injection H as <-; exact Hcost.
  - apply bind_OK_inv in H as (c1 & H1 & H).
    apply bind_OK_inv in H1 as (x & Hx & H1); injection H1 as <-.
    apply (IH (cost + x) c); [|exact H].
    pose proof (demand_charge_nonneg _ _ _ _ _ Hcol Hnext Hx); lra.
Qed.

Lemma demand_cost2_nonneg (fields : list (Q * list (list Q)))
    (consumption_data : list Q) :
  nonneg_entries fields ->
  ascending (map fst fields) ->
  forall cost c,
    0 <= cost ->
    demand_cost2 fields consumption_data cost = OK c ->
    0 <= c.
Proof.
  unfold nonneg_entries, ascending.
  induction fields as [|[name cols] rest IH]; intros Hnn Hasc cost c Hcost H;
    cbn [demand_cost2] in H.
  - injection H as <-; exact Hcost.
  - inversion Hnn as [|? ? Hcols Hrest]; subst; cbn [snd] in Hcols.
    cbn [map fst] in Hasc; inversion Hasc as [|? ? Hs Hlt]; subst.
    apply bind_OK_inv in H as (c1 & H1 & H).
    apply (IH Hrest Hs c1 c); [|exact H].
    eapply demand_columns_nonneg; [exact Hcols | | exact Hcost | exact H1].
    destruct rest as [|[nx cols'] rest]; cbn [next_name fst]; [exact I|].
    inversion Hlt; subst; cbn [fst] in *; lra.
Qed.

(** X14.  On a demand table whose rates are not negative and whose tier
    limits ascend, a cost that is returned is not negative. *)
Theorem demand_cost_nonnegative (n k : nat) (fields : list (Q * list (list Q)))
    (consumption_data : list Q) (utility_ : string) (cost : Q) :
  nonneg_entries fields ->
  ascending (map fst fields) ->
  calculate_cost (Struct2 n k fields) consumption_data "demand" utility_
  = OK cost ->
  0 <= cost.
Proof.
  intros Hnn Hasc H.
  unfold calculate_cost in H; cbn [String.eqb Ascii.eqb Bool.eqb] in H.
  eapply demand_cost2_nonneg; eauto; apply Qle_refl.
Qed.

Lemma demand_cost_nonnegative_witness :
  0 <= match calculate_cost
               (Struct2 3 1 [(0, [[2; 2; 0]]); (10, [[3; 3; 3]])])
               [4; 12; 30] "demand" "electric" with
       | OK cost => cost
       | Raise _ => 0
       end.
Proof.
  apply (demand_cost_nonnegative 3 1 [(0, [[2; 2; 0]]); (10, [[3; 3; 3]])]
           [4; 12; 30] "electric").
  - repeat constructor; unfold Qle; simpl; lia.
  - repeat constructor.
  - vm_compute; reflexivity.
Defined.

Lemma demand_charge_total (this : Q) (next : option Q)
    (col consumption_data : list Q) :
  length col = length consumption_data ->
  (0 < length consumption_data)%nat ->
  exists c, demand_charge this next col consumption_data = OK c.
Proof.
  intros Hl Hpos; unfold demand_charge.
  destruct (peak_demand_OK col consumption_data Hl Hpos) as (peak & Hp & _).
  rewrite Hp; cbn [bind].
  assert (Hne : forall d, map (fun r => d * r) col <> []).
  { intros d; destruct col; [simpl in Hl; lia | discriminate]. }
  assert (Hex : exists c, excess_charge this peak col = OK c).
  { unfold excess_charge.
    destruct (np_max_spec _ (Hne (peak - this))) as (m & Hm & _).
    rewrite Hm; cbn [bind]; eauto. }
  destruct next as [nx|]; [|exact Hex].
  destruct (Qlt_bool nx peak); [|exact Hex].
  unfold flat_charge.
  destruct (np_max_spec _ (Hne (nx - this))) as (m & Hm & _); eauto.
Qed.

Lemma demand_cost2_total (fields : list (Q * list (list Q)))
    (consumption_data : list Q) :
  columns_aligned fields (length consumption_data) ->
  (0 < length consumption_data)%nat ->
  forall cost, exists c, demand_cost2 fields consumption_data cost = OK c.
Proof.
  unfold columns_aligned; intros Hal Hpos.
  induction Hal as [|[name cols] rest Hcols _ IH]; intros cost;
    cbn [demand_cost2]; [eauto|].
  cbn [snd] in Hcols.
  assert (Hc : forall cost,
             exists c,
               demand_columns name (next_name rest) cols consumption_data cost
               = OK c).
  { unfold demand_columns; clear IH cost.
    induction Hcols as [|col cols Hcol _ IHc]; intros cost; cbn [for_each];
      [eauto|].
    destruct (demand_charge_total name (next_name rest) col consumption_data
                Hcol Hpos) as (x & Hx).
    rewrite Hx; cbn [bind]; apply IHc. }
  destruct (Hc cost) as (c1 & H1); rewrite H1; cbn [bind]; apply IH.
Qed.

(** X15.  On a demand table whose columns are aligned with a non-empty
    consumption series, [calculate_cost] returns a cost. *)
Theorem demand_cost_returned (n k : nat) (fields : list (Q * list (list Q)))
    (consumption_data : list Q) (utility_ : string) :
  columns_aligned fields (length consumption_data) ->
  (0 < length consumption_data)%nat ->
  exists cost,
    calculate_cost (Struct2 n k fields) consumption_data "demand" utility_
    = OK cost.
Proof.
  intros Hal Hpos; unfold calculate_cost; cbn [String.eqb Ascii.eqb Bool.eqb].
  apply demand_cost2_total; assumption.
Qed.

Lemma demand_cost_returned_witness :
  exists cost,
    calculate_cost (Struct2 3 1 [(0, [[2; 2; 0]]); (10, [[3; 3; 3]])])
      [4; 12; 30] "demand" "water" = OK cost.
Proof.
  apply (demand_cost_returned 3 1 [(0, [[2; 2; 0]]); (10, [[3; 3; 3]])]
           [4; 12; 30] "water").
  - repeat constructor.
  - simpl; lia.
Defined.

(** ** The shape of a resolved table *)

Lemma mask_times_length (mask : list bool) (rate : Q) :
  length (mask_times mask rate) = length mask.
Proof.
  unfold mask_times; apply length_map.
Qed.

Lemma mask_or_length (a b : list bool) (n : nat) :
  length a = n -> length b = n -> length (mask_or a b) = n.
Proof.
  intros Ha Hb; unfold mask_or; rewrite length_map, length_combine; lia.
Qed.

Lemma set_column_columns (cols : list (list Q)) (i : nat) (v : list Q)
    (cols' : list (list Q)) (n : nat) :
  Forall (fun col : list Q => length col = n) cols ->
  length v = n ->
  set_column cols i v = OK cols' ->
  Forall (fun col : list Q => length col = n) cols'.
Proof.
  intros Hall Hv; unfold set_column.
  destruct (i <? length cols)%nat; [|discriminate].
  intros H; injection H as <-.
  apply Forall_app; split.
  - apply Forall_firstn; exact Hall.
  - constructor; [exact Hv|].
    apply Forall_forall; intros x Hx; rewrite Forall_forall in Hall.
    apply Hall; rewrite <- (firstn_skipn (S i) cols).
    apply in_or_app; right; exact Hx.
Qed.

Lemma seen_lookup_In (p : string) (seen : periods_seen_t) (v : nat * list bool) :
  seen_lookup p seen = Some v -> exists q, In (q, v) seen.
Proof.
  induction seen as [|[q v'] seen IH]; cbn [seen_lookup]; [discriminate|].
  destruct (String.eqb p q).
  - intros H; injection H as <-; exists q; left; reflexivity.
  - intros H; destruct (IH H) as (q' & Hq); exists q'; right; exact Hq.
Qed.

Lemma demand_rule_step_ok periods months weekdays hours base n st row st' :
  length months = n -> length weekdays = n -> length hours = n ->
  demand_state_ok n st ->
  demand_rule_step periods months weekdays hours base st row = OK st' ->
  demand_state_ok n st'.
Proof.
  intros Hm Hw Hh (Hcols & Hseen) H; unfold demand_rule_step in H.
  apply bind_OK_inv in H as (p & _ & H).
  pose proof (apply_charge_mask_length months weekdays hours (snd row) n
                Hm Hw Hh) as Hmask.
  destruct (seen_lookup p (snd st)) as [[col mask]|] eqn:Hl;
    apply bind_OK_inv in H as (cols & Hc & H); injection H as <-;
    split; cbn [fst snd].
  - apply seen_lookup_In in Hl as (q & Hq).
    rewrite Forall_forall in Hseen; pose proof (Hseen _ Hq) as Hml.
    cbn [snd] in Hml.
    eapply set_column_columns; [exact Hcols | | exact Hc].
    rewrite mask_times_length; apply mask_or_length; assumption.
  - exact Hseen.
  - eapply set_column_columns; [exact Hcols | | exact Hc].
    rewrite mask_times_length; exact Hmask.
  - constructor; [exact Hmask | exact Hseen].
Qed.

Lemma demand_buffer_shape nrows charges periods months weekdays hours limit
    data :
  length months = nrows -> length weekdays = nrows -> length hours = nrows ->
  tier_buffer true nrows charges periods months weekdays hours limit = OK data ->
  exists cols,
    data = Data2 nrows cols
    /\ length cols
       = length (filter (fun c => Qeq_bool (basic_charge_limit (snd c)) limit)
                   charges)
    /\ Forall (fun col : list Q => length col = nrows) cols.
Proof.
  intros Hm Hw Hh H; unfold tier_buffer in H.
  apply bind_OK_inv in H as (st & Hst & H); injection H as <-.
  exists (fst st); split; [reflexivity|]; split.
  - eapply (for_each_invariant
              (fun st => length (fst st) = length (filter _ charges)))
      in Hst; [exact Hst | | cbn [fst]; apply repeat_length].
    intros s r s' Hs Hstep.
    apply demand_rule_step_length in Hstep; congruence.
  - eapply (for_each_invariant (demand_state_ok nrows)) in Hst;
      [exact (proj1 Hst) | |].
    + intros s r s' Hs Hstep.
      apply (demand_rule_step_ok _ _ _ _ _ _ _ _ _ Hm Hw Hh Hs Hstep).
    + split; cbn [fst snd]; [|constructor].
      apply Forall_forall; intros col Hcol.
      apply repeat_spec in Hcol; subst col; apply repeat_length.
Qed.

Lemma energy_buffer_shape nrows charges periods months weekdays hours limit
    data :
  tier_buffer false nrows charges periods months weekdays hours limit = OK data ->
  exists v, data = Data1 v /\ length v = nrows.
Proof.
  intros H; pose proof (tier_buffer_size _ _ _ _ _ _ _ _ _ H) as Hs.
  unfold tier_buffer in H.
  apply bind_OK_inv in H as (v & _ & H); injection H as <-.
  exists v; split; [reflexivity | exact Hs].
Qed.

Lemma np_unique_nonempty (l : list Q) : l <> [] -> np_unique l <> [].
Proof.
  destruct l as [|x l]; [congruence|]; intros _ E.
  destruct (np_unique_covers x (x :: l)) as (z & Hz & _); [left; reflexivity|].
  rewrite E in Hz; exact Hz.
Qed.

Lemma energy_table_shape nrows charges periods months weekdays hours t :
  charges <> [] ->
  charge_table false nrows charges periods months weekdays hours = OK t ->
  exists fields,
    t = Struct1 nrows fields /\ fields <> [] /\ fields_aligned fields nrows.
Proof.
  intros Hne; unfold charge_table.
  assert (Hl : np_unique (map (fun c => basic_charge_limit (snd c)) charges)
               <> []).
  { apply np_unique_nonempty; destruct charges; [congruence | discriminate]. }
  destruct (np_unique _) as [|limit limits]; [congruence|]; clear Hl.
  cbn [for_each]; intros H.
  apply bind_OK_inv in H as (ca & Hstep & H).
  set (good := fun ca => exists fields,
                   ca = Struct1 nrows fields
                   /\ fields <> [] /\ fields_aligned fields nrows).
  assert (Hinv : forall ca limit ca',
             (ca = Plain [] \/ good ca) ->
             (data <- tier_buffer false nrows charges periods months weekdays
                        hours limit ;;
              add_field ca limit data) = OK ca' ->
             good ca').
  { intros ca0 limit0 ca' Hca Hs.
    apply bind_OK_inv in Hs as (data & Hbuf & Hadd).
    apply energy_buffer_shape in Hbuf as (v & -> & Hv).
    unfold add_field in Hadd.
    assert (Hfirst : good (Struct1 (length v) [(limit0, v)])).
    { rewrite Hv; eexists; split; [reflexivity|]; split; [discriminate|].
      constructor; [exact Hv | constructor]. }
    destruct Hca as [->|(fields & -> & Hnn & Hal)];
      cbn [size length Nat.eqb] in Hadd.
    - injection Hadd as <-; exact Hfirst.
    - destruct (Nat.eqb nrows 0); [injection Hadd as <-; exact Hfirst|].
      destruct (Nat.eqb (length v) nrows); [|discriminate].
      injection Hadd as <-; eexists; split; [reflexivity|]; split.
      + destruct fields; discriminate.
      + apply Forall_app; split; [exact Hal|].
        constructor; [exact Hv | constructor]. }
  apply (Hinv (Plain []) limit ca (or_introl eq_refl)) in Hstep.
  eapply (for_each_invariant good); [|exact Hstep | exact H].
  intros s x s' Hs Hb; eapply Hinv; [right; exact Hs | exact Hb].
Qed.

Lemma demand_table_shape nrows charges periods months weekdays hours t :
  length months = nrows -> length weekdays = nrows -> length hours = nrows ->
  charges <> [] ->
  charge_table true nrows charges periods months weekdays hours = OK t ->
  exists k fields,
    t = Struct2 nrows k fields
    /\ fields <> []
    /\ fields_of_width fields k
    /\ columns_aligned fields nrows.
Proof.
  intros Hm Hw Hh Hne; unfold charge_table.
  assert (Hl : np_unique (map (fun c => basic_charge_limit (snd c)) charges)
               <> []).
  { apply np_unique_nonempty; destruct charges; [congruence | discriminate]. }
  destruct (np_unique _) as [|limit limits]; [congruence|]; clear Hl.
  cbn [for_each]; intros H.
  apply bind_OK_inv in H as (ca & Hstep & H).
  set (good := fun ca => exists k fields,
                   ca = Struct2 nrows k fields
                   /\ fields <> []
                   /\ fields_of_width fields k
                   /\ columns_aligned fields nrows).
  assert (Hinv : forall ca limit ca',
             (ca = Plain [] \/ good ca) ->
             (data <- tier_buffer true nrows charges periods months weekdays
                        hours limit ;;
              add_field ca limit data) = OK ca' ->
             good ca').
  { intros ca0 limit0 ca' Hca Hs.
    apply bind_OK_inv in Hs as (data & Hbuf & Hadd).
    apply demand_buffer_shape in Hbuf as (cols & -> & _ & Hcols);
      try assumption.
    unfold add_field in Hadd.
    assert (Hfirst : good (Struct2 nrows (length cols) [(limit0, cols)])).
    { exists (length cols), [(limit0, cols)]; split; [reflexivity|].
      split; [discriminate|].
      split; constructor; try constructor; cbn [snd]; auto. }
    destruct Hca as [->|(k & fields & -> & Hnn & Hwid & Hal)];
      cbn [size length Nat.eqb] in Hadd.
    - injection Hadd as <-; exact Hfirst.
    - destruct (Nat.eqb (nrows * k) 0); [injection Hadd as <-; exact Hfirst|].
      rewrite Nat.eqb_refl in Hadd.
      destruct (Nat.eqb_spec (length cols) k) as [Hk|Hk].
      + injection Hadd as <-; exists k, (fields ++ [(limit0, cols)]).
        split; [reflexivity|]; split; [destruct fields; discriminate|].
        split; apply Forall_app; split; try assumption;
          constructor; try constructor; cbn [snd]; auto.
      + destruct cols as [|c [|c' cols]]; try discriminate.
        injection Hadd as <-; exists k, (fields ++ [(limit0, repeat c k)]).
        split; [reflexivity|]; split; [destruct fields; discriminate|].
        split; apply Forall_app; split; try assumption;
          constructor; try constructor; cbn [snd].
        * apply repeat_length.
        * inversion Hcols as [|? ? Hc _]; subst.
          apply Forall_forall; intros x Hx; apply repeat_spec in Hx; subst x.
          exact Hc. }
  apply (Hinv (Plain []) limit ca (or_introl eq_refl)) in Hstep.
  eapply (for_each_invariant good); [|exact Hstep | exact H].
  intros s x s' Hs Hb; eapply Hinv; [right; exact Hs | exact Hb].
Qed.

(** Outcome of a call that returns, for "energy" or "demand". *)
Lemma get_charge_array_returns (w : DataFrame) (rate_data : list Rule)
    (charge_type utility_ : string) (t : ndarray) :
  In charge_type cost_types ->
  get_charge_array w rate_data charge_type utility_ = OK t ->
  exists stamps hours,
    DateTime w = Some stamps
    /\ window_hours stamps (shape0 w / 96) = OK hours
    /\ length stamps = window_rows w
    /\ length hours = window_rows w
    /\ ((select_charges rate_data charge_type utility_ = []
         /\ t = zero_table charge_type (window_rows w))
        \/ (select_charges rate_data charge_type utility_ <> []
            /\ charge_table (String.eqb charge_type "demand") (window_rows w)
                 (select_charges rate_data charge_type utility_)
                 (map (fun c => period (snd c))
                    (select_charges rate_data charge_type utility_))
                 (map dt_month stamps) (map dt_weekday stamps) hours
               = OK t)).
Proof.
  intros Hct H; unfold get_charge_array, get_DateTime in H.
  assert (Hc : String.eqb charge_type "customer" = false)
    by (destruct Hct as [<-|[<-|[]]]; reflexivity).
  rewrite Hc in H.
  destruct (DateTime w) as [stamps|]; [|discriminate]; cbn [bind] in H.
  apply bind_OK_inv in H as (hours & Hh & H).
  exists stamps, hours; split; [reflexivity|]; split; [exact Hh|].
  destruct (window_hours_OK_inv _ _ _ Hh) as (Hs & Hhl).
  unfold window_rows; split; [lia|]; split; [lia|].
  destruct (select_charges rate_data charge_type utility_) as [|c charges]
    eqn:Hsel.
  - left; split; [reflexivity|].
    destruct Hct as [<-|[<-|[]]]; cbn in H; injection H as <-; reflexivity.
  - right; split; [discriminate|].
    destruct Hct as [<-|[<-|[]]]; exact H.
Qed.

(** X16.  The energy table returned for a window has at least one tier,
    and one entry per row of the window in each of its fields, be it the
    fallback or built from rules. *)
Theorem energy_table_aligned (w : DataFrame) (rate_data : list Rule)
    (utility_ : string) (t : ndarray) :
  get_charge_array w rate_data "energy" utility_ = OK t ->
  exists fields,
    t = Struct1 (window_rows w) fields
    /\ fields <> []
    /\ fields_aligned fields (window_rows w).
Proof.
  intros H.
  destruct (get_charge_array_returns w rate_data "energy" utility_ t)
    as (stamps & hours & _ & _ & _ & _ & [(_ & ->) | (Hne & Ht)]);
    [simpl; auto | exact H | |].
  - eexists; split; [reflexivity|]; split; [discriminate|].
    constructor; [apply repeat_length | constructor].
  - cbn [String.eqb Ascii.eqb Bool.eqb] in Ht.
    eapply energy_table_shape; eauto.
Qed.

Lemma energy_table_aligned_witness :
  exists fields,
    match get_charge_array example_window [energy_high; energy_low] "energy"
            "electric" with
    | OK t => t
    | Raise _ => Plain []
    end = Struct1 (window_rows example_window) fields
    /\ fields <> []
    /\ fields_aligned fields (window_rows example_window).
Proof.
  apply (energy_table_aligned example_window [energy_high; energy_low]
           "electric").
  vm_compute; reflexivity.
Defined.

(** X17.  The demand table returned for a window has at least one tier,
    the same number of columns in every tier, and one entry per row of the
    window in every column. *)
Theorem demand_table_aligned (w : DataFrame) (rate_data : list Rule)
    (utility_ : string) (t : ndarray) :
  get_charge_array w rate_data "demand" utility_ = OK t ->
  exists k fields,
    t = Struct2 (window_rows w) k fields
    /\ fields <> []
    /\ fields_of_width fields k
    /\ columns_aligned fields (window_rows w).
Proof.
  intros H.
  destruct (get_charge_array_returns w rate_data "demand" utility_ t)
    as (stamps & hours & _ & _ & Hs & Hh & [(_ & ->) | (Hne & Ht)]);
    [simpl; auto | exact H | |].
  - exists 1%nat; eexists; split; [reflexivity|]; split; [discriminate|].
    split; repeat constructor; apply repeat_length.
  - cbn [String.eqb Ascii.eqb Bool.eqb] in Ht.
    eapply demand_table_shape; [| | | exact Hne | exact Ht];
      rewrite ?length_map; assumption.
Qed.

Lemma demand_table_aligned_witness :
  exists k fields,
    match get_charge_array example_window
            [peak_first_half; peak_second_half; morning_high; afternoon_high]
            "demand" "electric" with
    | OK t => t
    | Raise _ => Plain []
    end = Struct2 (window_rows example_window) k fields
    /\ fields <> []
    /\ fields_of_width fields k
    /\ columns_aligned fields (window_rows example_window).
Proof.
  apply (demand_table_aligned example_window
           [peak_first_half; peak_second_half; morning_high; afternoon_high]
           "electric").
  vm_compute; reflexivity.
Defined.

Lemma resolving_then_costing (w : DataFrame) (rate_data : list Rule)
    (charge_type utility_ : string) (t : ndarray) (consumption_data : list Q) :
  In charge_type cost_types ->
  get_charge_array w rate_data charge_type utility_ = OK t ->
  length consumption_data = window_rows w ->
  (0 < window_rows w)%nat ->
  (charge_type = "energy"%string -> In utility_ utilities) ->
  exists cost,
    calculate_cost t consumption_data charge_type utility_ = OK cost.
Proof.
  intros Hct H Hlen Hpos Hu.
  destruct Hct as [<-|[<-|[]]].
  - destruct (get_charge_array_returns w rate_data "demand" utility_ t)
      as (stamps & hours & _ & _ & Hs & Hh & [(_ & ->) | (Hne & Ht)]);
      [simpl; auto | exact H | |].
    + unfold zero_table; cbn [String.eqb Ascii.eqb Bool.eqb].
      unfold calculate_cost; cbn [String.eqb Ascii.eqb Bool.eqb].
      apply demand_cost2_total; [|lia].
      rewrite Hlen; repeat constructor; apply repeat_length.
    + cbn [String.eqb Ascii.eqb Bool.eqb] in Ht.
      destruct (demand_table_shape _ _ _ _ _ _ _
                  ltac:(rewrite length_map; exact Hs)
                  ltac:(rewrite length_map; exact Hs) Hh Hne Ht)
        as (k & fields & -> & _ & _ & Hal).
      unfold calculate_cost; cbn [String.eqb Ascii.eqb Bool.eqb].
      apply demand_cost2_total; [rewrite Hlen; exact Hal | lia].
  - destruct (get_charge_array_returns w rate_data "energy" utility_ t)
      as (stamps & hours & _ & _ & Hs & Hh & [(_ & ->) | (Hne & Ht)]);
      [simpl; auto | exact H | |].
    + unfold zero_table; cbn [String.eqb Ascii.eqb Bool.eqb].
      unfold calculate_cost; cbn [String.eqb Ascii.eqb Bool.eqb].
      destruct (energy_divisor_spec utility_)
        as [(_ & E) | [(_ & E) | (Hbad & _)]];
        [| |exfalso; apply Hbad, Hu; reflexivity];
        rewrite E; cbn [bind];
        (apply energy_tiers_total;
         [repeat constructor; cbn [snd]; unfold np_zeros;
          rewrite repeat_length; lia
         | right; cbn [sc_start]; lia]).
    + cbn [String.eqb Ascii.eqb Bool.eqb] in Ht.
      destruct (energy_table_shape _ _ _ _ _ _ _ Hne Ht)
        as (fields & -> & _ & Hal).
      unfold calculate_cost; cbn [String.eqb Ascii.eqb Bool.eqb].
      destruct (energy_divisor_spec utility_)
        as [(_ & E) | [(_ & E) | (Hbad & _)]];
        [| |exfalso; apply Hbad, Hu; reflexivity];
        rewrite E; cbn [bind];
        (apply energy_tiers_total;
         [unfold fields_aligned in Hal; rewrite Hlen; exact Hal
         | right; cbn [sc_start]; lia]).
Qed.

(** X18.  Resolving and costing compose: for a window of whole days that
    is not empty and a consumption series of its length, the table
    [get_charge_array] returns for "demand" or "energy" is one on which
    [calculate_cost] returns a cost (for "energy", with a utility in
    {electric, gas}). *)
Theorem resolved_table_is_costed (w : DataFrame) (rate_data : list Rule)
    (charge_type utility_ : string) (t : ndarray) (consumption_data : list Q) :
  In charge_type cost_types ->
  get_charge_array w rate_data charge_type utility_ = OK t ->
  length consumption_data = window_rows w ->
  (0 < window_rows w)%nat ->
  (charge_type = "energy"%string -> In utility_ utilities) ->
  exists cost,
    calculate_cost t consumption_data charge_type utility_ = OK cost.
Proof.
  apply resolving_then_costing.
Qed.

Lemma resolved_table_is_costed_witness :
  exists cost,
    calculate_cost
      (match get_charge_array example_window [energy_high; energy_low]
               "energy" "electric" with
       | OK t => t
       | Raise _ => Plain []
       end)
      example_consumption "energy" "electric" = OK cost.
Proof.
  apply (resolved_table_is_costed example_window [energy_high; energy_low]
           "energy" "electric").
  - simpl; auto.
  - vm_compute; reflexivity.
  - reflexivity.
  - vm_compute; lia.
  - intros _; simpl; auto.
Defined.

(** ** The tiers of a demand table have one width *)

Lemma tier_rules_selected (rate_data : list Rule) (charge_type utility_ : string)
    (limit : Q) :
  map snd (filter (fun c => Qeq_bool (basic_charge_limit (snd c)) limit)
             (select_charges rate_data charge_type utility_))
  = tier_rules (matching_rules rate_data charge_type utility_) limit.
Proof.
  unfold tier_rules.
  rewrite (map_snd_filter (fun r => Qeq_bool (basic_charge_limit r) limit)).
  rewrite select_charges_rules; reflexivity.
Qed.

Lemma later_tiers_width nrows charges periods months weekdays hours
    (limits : list Q) :
  length months = nrows -> length weekdays = nrows -> length hours = nrows ->
  forall k fields t,
    (nrows * k <> 0)%nat ->
    for_each
      (fun charge_array limit =>
         data <- tier_buffer true nrows charges periods months weekdays hours
                   limit ;;
         add_field charge_array limit data)
      limits (Struct2 nrows k fields) = OK t ->
    (exists fields', t = Struct2 nrows k fields')
    /\ forall limit,
         In limit limits ->
         let m := length (filter (fun c => Qeq_bool (basic_charge_limit (snd c))
                                              limit) charges) in
         m = k \/ m = 1%nat.
Proof.
  intros Hm Hw Hh.
  induction limits as [|limit limits IH]; intros k fields t Hsz H;
    cbn [for_each] in H.
  - injection H as <-; split; [eauto | intros l []].
  - apply bind_OK_inv in H as (ca & Hstep & H).
    apply bind_OK_inv in Hstep as (data & Hbuf & Hadd).
    apply demand_buffer_shape in Hbuf as (cols & -> & Hlen & _);
      try assumption.
    unfold add_field in Hadd; cbn [size] in Hadd.
    destruct (Nat.eqb_spec (nrows * k) 0) as [E|_]; [contradiction|].
    rewrite Nat.eqb_refl in Hadd.
    assert (Hthis : length cols = k \/ length cols = 1%nat).
    { destruct (Nat.eqb_spec (length cols) k) as [E|_]; [left; exact E|].
      destruct cols as [|c [|c' cols]]; try discriminate; right; reflexivity. }
    assert (Hca : exists fields', ca = Struct2 nrows k fields').
    { destruct (Nat.eqb (length cols) k); [injection Hadd as <-; eauto|].
      destruct cols as [|c [|c' cols]]; try discriminate.
      injection Hadd as <-; eauto. }
    destruct Hca as (fields' & ->).
    destruct (IH k fields' t Hsz H) as (Ht & Hrest).
    split; [exact Ht|].
    intros l [<-|Hl]; [rewrite <- Hlen; exact Hthis | apply Hrest; exact Hl].
Qed.

Lemma demand_table_width nrows charges periods months weekdays hours t :
  length months = nrows -> length weekdays = nrows -> length hours = nrows ->
  (0 < nrows)%nat ->
  charges <> [] ->
  charge_table true nrows charges periods months weekdays hours = OK t ->
  let limits := np_unique (map (fun c => basic_charge_limit (snd c)) charges) in
  let count := fun limit =>
    length (filter (fun c => Qeq_bool (basic_charge_limit (snd c)) limit)
              charges) in
  exists fields,
    t = Struct2 nrows (count (hd 0 limits)) fields
    /\ forall limit, In limit limits ->
                     count limit = count (hd 0 limits) \/ count limit = 1%nat.
Proof.
  intros Hm Hw Hh Hpos Hne H limits count; subst limits; revert H.
  unfold charge_table.
  pose proof (fun y => np_unique_In y
                (map (fun c => basic_charge_limit (snd c)) charges)) as Hin.
  assert (Hl : np_unique (map (fun c => basic_charge_limit (snd c)) charges)
               <> []).
  { apply np_unique_nonempty; destruct charges; [congruence | discriminate]. }
  destruct (np_unique _) as [|limit limits]; [congruence|]; clear Hl.
  cbn [for_each hd]; intros H.
  apply bind_OK_inv in H as (ca & Hstep & H).
  apply bind_OK_inv in Hstep as (data & Hbuf & Hadd).
  apply demand_buffer_shape in Hbuf as (cols & -> & Hlen & _); try assumption.
  cbn [add_field size length Nat.eqb] in Hadd; injection Hadd as <-.
  fold (count limit) in Hlen; rewrite Hlen in H.
  assert (Hcount : (0 < count limit)%nat).
  { specialize (Hin limit (or_introl eq_refl)).
    apply in_map_iff in Hin as (c & Hc & Hcin).
    assert (Hf : In c (filter (fun c => Qeq_bool (basic_charge_limit (snd c))
                                          limit) charges)).
    { apply filter_In; split; [exact Hcin|].
      apply Qeq_bool_iff; rewrite Hc; reflexivity. }
    unfold count; destruct (filter _ charges); [contradiction | simpl; lia]. }
  destruct (later_tiers_width nrows charges periods months weekdays hours
              limits Hm Hw Hh (count limit) [(limit, cols)] t)
    as ((fields' & ->) & Hrest); [nia | exact H |].
  exists fields'; split; [reflexivity|].
  intros l [<-|Hl]; [left; reflexivity | apply Hrest; exact Hl].
Qed.

(** X19.  A demand table is returned only when every tier has as many
    rules as the lowest tier, or a single rule: the number of columns of
    the table is the number of rules of the lowest tier, and a tier of
    another size (but one) cannot be added to it. *)
Theorem demand_tiers_same_width (w : DataFrame) (rate_data : list Rule)
    (utility_ : string) (t : ndarray) :
  get_charge_array w rate_data "demand" utility_ = OK t ->
  matching_rules rate_data "demand" utility_ <> [] ->
  (0 < window_rows w)%nat ->
  let rules := matching_rules rate_data "demand" utility_ in
  let limits := np_unique (map basic_charge_limit rules) in
  exists fields,
    t = Struct2 (window_rows w) (rules_in_tier rules (hd 0 limits)) fields
    /\ forall limit,
         In limit limits ->
         rules_in_tier rules limit = rules_in_tier rules (hd 0 limits)
         \/ rules_in_tier rules limit = 1%nat.
Proof.
  intros H Hne Hpos rules limits; subst rules limits.
  destruct (get_charge_array_returns w rate_data "demand" utility_ t)
    as (stamps & hours & _ & _ & Hs & Hh & [(Hsel & _) | (Hsel & Ht)]);
    [simpl; auto | exact H | |].
  - exfalso; apply Hne; rewrite <- select_charges_rules, Hsel; reflexivity.
  - cbn [String.eqb Ascii.eqb Bool.eqb] in Ht.
    pose proof (demand_table_width _ _ _ _ _ _ _
                  ltac:(rewrite length_map; exact Hs)
                  ltac:(rewrite length_map; exact Hs) Hh Hpos Hsel Ht) as Hw.
    cbv zeta in Hw.
    assert (Hcount : forall limit,
               length (filter (fun c => Qeq_bool (basic_charge_limit (snd c))
                                          limit)
                         (select_charges rate_data "demand" utility_))
               = rules_in_tier (matching_rules rate_data "demand" utility_)
                   limit).
    { intros limit; unfold rules_in_tier.
      rewrite <- tier_rules_selected, length_map; reflexivity. }
    assert (Hlim : map (fun c => basic_charge_limit (snd c))
                     (select_charges rate_data "demand" utility_)
                   = map basic_charge_limit
                       (matching_rules rate_data "demand" utility_)).
    { rewrite <- select_charges_rules, map_map; reflexivity. }
    rewrite Hlim in Hw.
    destruct Hw as (fields & -> & Hall).
    exists fields; rewrite <- Hcount; split; [reflexivity|].
    intros limit Hl; rewrite <- !Hcount; apply Hall; exact Hl.
Qed.

Lemma demand_tiers_same_width_witness :
  let rules :=
    matching_rules
      [peak_first_half; peak_second_half; morning_high; afternoon_high]
      "demand" "electric" in
  let limits := np_unique (map basic_charge_limit rules) in
  exists fields,
    match get_charge_array example_window
            [peak_first_half; peak_second_half; morning_high; afternoon_high]
            "demand" "electric" with
    | OK t => t
    | Raise _ => Plain []
    end
    = Struct2 (window_rows example_window)
        (rules_in_tier rules (hd 0 limits)) fields
    /\ forall limit,
         In limit limits ->
         rules_in_tier rules limit = rules_in_tier rules (hd 0 limits)
         \/ rules_in_tier rules limit = 1%nat.
Proof.
  apply (demand_tiers_same_width example_window
           [peak_first_half; peak_second_half; morning_high; afternoon_high]
           "electric").
  - vm_compute; reflexivity.
  - vm_compute; discriminate.
  - vm_compute; lia.
Defined.

(** ** The rates of an energy table add up *)

Lemma energy_loop_sum (stamps : list Timestamp) (hours : list Q)
    (periods : list string) (base : nat) (l : list (nat * Rule)) :
  forall (data v : list Q),
    for_each (energy_rule_step periods (map dt_month stamps)
                (map dt_weekday stamps) hours base) l data = OK v ->
    forall k t h x,
      nth_error stamps k = Some t ->
      nth_error hours k = Some h ->
      nth_error data k = Some x ->
      exists y,
        nth_error v k = Some y
        /\ y == x + np_sum (map (fun c =>
                                   if applies (snd c) (dt_month t)
                                        (dt_weekday t) h
                                   then charge (snd c) else 0) l).
Proof.
  induction l as [|row l IH]; intros data v H k t h x Ht Hh Hx;
    cbn [for_each] in H.
  - injection H as <-; exists x; split; [exact Hx|].
    cbn [map np_sum fold_right]; ring.
  - apply bind_OK_inv in H as (data' & Hstep & H).
    unfold energy_rule_step in Hstep.
    apply bind_OK_inv in Hstep as (p & _ & Hadd).
    unfold np_iadd in Hadd.
    destruct (Nat.eqb _ _); [|discriminate]; injection Hadd as <-.
    destruct (IH _ _ H k t h
                (x + (if applies (snd row) (dt_month t) (dt_weekday t) h
                      then charge (snd row) else 0)) Ht Hh)
      as (y & Hy & Hval).
    + rewrite nth_error_map, nth_error_combine, Hx.
      unfold mask_times; rewrite nth_error_map.
      rewrite (apply_charge_mask_nth stamps hours (snd row) k t h Ht Hh).
      reflexivity.
    + exists y; split; [exact Hy|].
      rewrite Hval; cbn [map]; unfold np_sum; cbn [fold_right]; ring.
Qed.

Lemma energy_buffer_sum (stamps : list Timestamp) (ndays nrows : nat)
    (hours : list Q) (charges : list (nat * Rule)) (periods : list string)
    (limit : Q) (v : list Q) :
  window_hours stamps ndays = OK hours ->
  length stamps = nrows ->
  tier_buffer false nrows charges periods (map dt_month stamps)
    (map dt_weekday stamps) hours limit = OK (Data1 v) ->
  forall k t,
    nth_error stamps k = Some t ->
    exists x,
      nth_error v k = Some x
      /\ x == tier_rate (map snd charges) limit t k.
Proof.
  intros Hh Hlen H k t Ht; unfold tier_buffer in H.
  apply bind_OK_inv in H as (v' & Hloop & H); injection H as ->.
  assert (Hk : (k < nrows)%nat).
  { rewrite <- Hlen; apply nth_error_Some; rewrite Ht; discriminate. }
  destruct (energy_loop_sum _ _ _ _ _ _ _ Hloop k t (fractional_hour t k) 0 Ht)
    as (y & Hy & Hval).
  - exact (window_hours_nth _ _ _ _ _ Hh Ht).
  - unfold np_zeros; rewrite nth_error_repeat by exact Hk; reflexivity.
  - exists y; split; [exact Hy|].
    rewrite Hval, Qplus_0_l; unfold tier_rate, tier_rules.
    rewrite <- (map_snd_filter (fun r => Qeq_bool (basic_charge_limit r) limit)).
    rewrite map_map; reflexivity.
Qed.

Lemma energy_table_fields nrows charges periods months weekdays hours t :
  charge_table false nrows charges periods months weekdays hours = OK t ->
  forall key v,
    In (key, v) (struct1_fields t) ->
    tier_buffer false nrows charges periods months weekdays hours key
    = OK (Data1 v).
Proof.
  unfold charge_table.
  apply (for_each_invariant
           (fun ca => forall key v,
                In (key, v) (struct1_fields ca) ->
                tier_buffer false nrows charges periods months weekdays hours
                  key = OK (Data1 v))).
  - intros ca limit ca' Hca Hstep.
    apply bind_OK_inv in Hstep as (data & Hbuf & Hadd).
    destruct (energy_buffer_shape _ _ _ _ _ _ _ _ Hbuf) as (v0 & -> & _).
    unfold add_field in Hadd.
    destruct (Nat.eqb (size ca) 0).
    + injection Hadd as <-; cbn [struct1_fields].
      intros key v [E|[]]; injection E as <- <-; exact Hbuf.
    + destruct ca as [l|n fields|n k fields]; try discriminate.
      destruct (Nat.eqb (length v0) n); [|discriminate].
      injection Hadd as <-; cbn [struct1_fields] in *.
      intros key v Hin; apply in_app_or in Hin as [Hin|[E|[]]].
      * apply Hca; exact Hin.
      * injection E as <- <-; exact Hbuf.
  - intros key v [].
Qed.

(** X20.  In the energy table every tier holds, at each timestamp of the
    window, the sum of the rates of the tier's rules that apply there:
    overlapping rules of one tier add up, and a timestamp no rule covers
    has rate zero.  Without a matching rule the only key is 0 and its
    rates are zero, which is the same sum over no rule. *)
Theorem energy_rates_add_up (w : DataFrame) (rate_data : list Rule)
    (utility_ : string) (t : ndarray) (stamps : list Timestamp) :
  get_charge_array w rate_data "energy" utility_ = OK t ->
  DateTime w = Some stamps ->
  forall key v k ts,
    In (key, v) (struct1_fields t) ->
    nth_error stamps k = Some ts ->
    exists x,
      nth_error v k = Some x
      /\ x == tier_rate (matching_rules rate_data "energy" utility_) key ts k.
Proof.
  intros H Hdt key v k ts Hin Hts.
  destruct (get_charge_array_returns w rate_data "energy" utility_ t)
    as (stamps' & hours & Hdt' & Hh & Hs & Hhl & [(Hsel & Ht) | (Hsel & Ht)]);
    [simpl; auto | exact H | |];
    rewrite Hdt in Hdt'; injection Hdt' as <-.
  - subst t; cbn [zero_table String.eqb Ascii.eqb Bool.eqb struct1_fields] in Hin.
    destruct Hin as [E|[]]; injection E as <- <-.
    assert (Hk : (k < window_rows w)%nat).
    { rewrite <- Hs; apply nth_error_Some; rewrite Hts; discriminate. }
    exists 0; split.
    + unfold np_zeros; rewrite nth_error_repeat by exact Hk; reflexivity.
    + unfold tier_rate, tier_rules.
      rewrite <- select_charges_rules, Hsel; reflexivity.
  - cbn [String.eqb Ascii.eqb Bool.eqb] in Ht.
    pose proof (energy_table_fields _ _ _ _ _ _ _ Ht key v Hin) as Hbuf.
    destruct (energy_buffer_sum _ _ _ _ _ _ _ _ Hh Hs Hbuf k ts Hts)
      as (x & Hx & Hval).
    exists x; split; [exact Hx|].
    rewrite Hval, select_charges_rules; reflexivity.
Qed.

Lemma energy_rates_add_up_witness :
  let rules :=
    [energy_low;
     mkRule "electric" "energy" "peak" 0 1 12 8 20 0 6 (3 # 10);
     energy_high] in
  let v :=
    match get_charge_array example_window rules "energy" "electric" with
    | OK (Struct1 _ ((_, v) :: _)) => v
    | _ => []
    end in
  exists x,
    nth_error v 40 = Some x
    /\ x == tier_rate (matching_rules rules "energy" "electric") 0
              (mkTimestamp 3 2 10) 40.
Proof.
  intros rules v.
  apply (energy_rates_add_up example_window rules "electric"
           (match get_charge_array example_window rules "energy" "electric" with
            | OK t => t
            | Raise _ => Plain []
            end)
           (example_stamps 3) ltac:(vm_compute; reflexivity) eq_refl
           0 v 40 (mkTimestamp 3 2 10)).
  - vm_compute; left; reflexivity.
  - vm_compute; reflexivity.
Defined.

(** ** Windows and sheets [get_charge_array] refuses *)

(** X21.  A window whose number of rows is not a multiple of 96 is
    refused for every charge type but "customer", whatever the rules are:
    the quarter hours of [ndays] whole days cannot be added to the hours
    of the window, and this comes before the charge type is looked at.
    The window of a single row is left aside: numpy refuses it as well,
    as an output operand that cannot be broadcast. *)
Theorem partial_day_window_rejected (w : DataFrame) (rate_data : list Rule)
    (charge_type utility_ : string) (stamps : list Timestamp) :
  DateTime w = Some stamps ->
  length stamps = shape0 w ->
  (shape0 w mod 96 <> 0)%nat ->
  shape0 w <> 1%nat ->
  charge_type <> "customer"%string ->
  get_charge_array w rate_data charge_type utility_ = Raise shape_error.
Proof.
  intros Hdt Hlen Hmod _ Hct; unfold get_charge_array, get_DateTime.
  apply String.eqb_neq in Hct; rewrite Hct, Hdt; cbn [bind].
  destruct (window_hours stamps (shape0 w / 96)) as [hours|e] eqn:Hh.
  - apply window_hours_OK_inv in Hh as (Hs & _); exfalso; apply Hmod.
    rewrite <- Hlen, Hs, Nat.mul_comm; apply Nat.Div0.mod_mul.
  - apply window_hours_raise in Hh as (-> & _); reflexivity.
Qed.

Lemma partial_day_window_rejected_witness :
  get_charge_array
    (mkDataFrame 100
       (Some (map (fun k => mkTimestamp 3 2 (Z.of_nat (k / 4) mod 24))
                (seq 0 100))))
    [energy_low; energy_high] "energy" "electric"
  = Raise shape_error.
Proof.
  apply (partial_day_window_rejected
           (mkDataFrame 100
              (Some (map (fun k => mkTimestamp 3 2 (Z.of_nat (k / 4) mod 24))
                       (seq 0 100))))
           [energy_low; energy_high] "energy" "electric"
           (map (fun k => mkTimestamp 3 2 (Z.of_nat (k / 4) mod 24))
              (seq 0 100))).
  - reflexivity.
  - vm_compute; reflexivity.
  - vm_compute; discriminate.
  - vm_compute; discriminate.
  - discriminate.
Defined.

Lemma select_charges_separated (before mid after : list Rule) (r1 r2 : Rule)
    (charge_type utility_ : string) :
  matching_rules before charge_type utility_ = [] ->
  matching_rules mid charge_type utility_ = [] ->
  matching_rules after charge_type utility_ = [] ->
  type_ r1 = charge_type -> utility r1 = utility_ ->
  type_ r2 = charge_type -> utility r2 = utility_ ->
  select_charges (before ++ r1 :: mid ++ r2 :: after) charge_type utility_
  = [(length before, r1); (length before + S (length mid), r2)%nat].
Proof.
  intros Hb Hm Ha Ht1 Hu1 Ht2 Hu2.
  change (select_charges (before ++ r1 :: mid ++ r2 :: after) charge_type
            utility_)
    with (select_from 0 (before ++ [r1] ++ mid ++ [r2] ++ after) charge_type
            utility_).
  rewrite !select_from_app.
  rewrite (select_from_none _ before) by exact Hb.
  rewrite (select_from_none _ mid) by exact Hm.
  rewrite (select_from_none _ after) by exact Ha.
  rewrite !select_from_one by assumption.
  cbn [app length].
  replace (0 + length before + 1 + length mid)%nat
    with (length before + S (length mid))%nat by lia.
  reflexivity.
Qed.

Lemma separated_tier_raises (is_demand : bool) (n b i2 : nat) (r1 r2 : Rule)
    (months weekdays : list Z) (hours : list Q) (limit : Q) :
  length months = n -> length weekdays = n -> length hours = n ->
  (b + 2 <= i2)%nat ->
  basic_charge_limit r1 == limit -> basic_charge_limit r2 == limit ->
  tier_buffer is_demand n [(b, r1); (i2, r2)] [period r1; period r2]
    months weekdays hours limit
  = Raise (IndexError "index is out of bounds for axis 0").
Proof.
  intros Hm Hw Hh Hgap H1 H2; unfold tier_buffer.
  apply Qeq_bool_iff in H1, H2.
  cbn [filter snd]; rewrite H1, H2.
  cbn [map fst index_min fold_left length].
  replace (Nat.min b i2) with b by lia.
  assert (Hout : get_period [period r1; period r2] (i2 - b)
                 = Raise (IndexError "index is out of bounds for axis 0")).
  { unfold get_period.
    destruct (i2 - b)%nat as [|[|k]] eqn:E; [lia | lia |].
    destruct k; reflexivity. }
  destruct is_demand; cbn [for_each].
  - unfold demand_rule_step at 1; cbn [fst snd].
    rewrite Nat.sub_diag; cbn [get_period nth_error bind seen_lookup].
    cbn [set_column repeat length Nat.ltb Nat.leb firstn skipn app bind].
    unfold demand_rule_step; cbn [fst snd]; rewrite Hout; reflexivity.
  - unfold energy_rule_step at 1; cbn [fst snd].
    rewrite Nat.sub_diag; cbn [get_period nth_error bind].
    unfold np_iadd at 1.
    unfold mask_times at 1; rewrite length_map.
    rewrite (apply_charge_mask_length _ _ _ _ n Hm Hw Hh).
    unfold np_zeros at 1; rewrite repeat_length, Nat.eqb_refl; cbn [bind].
    unfold energy_rule_step; cbn [fst snd]; rewrite Hout; reflexivity.
Qed.

(** X22.  Two rules of one tier that are the only rules of their charge
    type and utility, with other rows of the sheet between them, cannot
    be resolved: the second rule's position is counted from the first
    rule's label, and falls outside the two selected periods. *)
Theorem separated_tier_rows_index_error (w : DataFrame)
    (before mid after : list Rule) (r1 r2 : Rule)
    (charge_type utility_ : string) :
  In charge_type cost_types ->
  timestamps_readable w ->
  matching_rules before charge_type utility_ = [] ->
  matching_rules mid charge_type utility_ = [] ->
  matching_rules after charge_type utility_ = [] ->
  mid <> [] ->
  type_ r1 = charge_type -> utility r1 = utility_ ->
  type_ r2 = charge_type -> utility r2 = utility_ ->
  basic_charge_limit r1 == basic_charge_limit r2 ->
  get_charge_array w (before ++ r1 :: mid ++ r2 :: after) charge_type utility_
  = Raise (IndexError "index is out of bounds for axis 0").
Proof.
  intros Hct (stamps & Hdt & Hlen) Hb Hm Ha Hmid Ht1 Hu1 Ht2 Hu2 Hlim.
  unfold get_charge_array, get_DateTime.
  rewrite (select_charges_separated before mid after r1 r2 charge_type utility_)
    by assumption.
  rewrite Hdt; cbn [bind map snd length Nat.eqb].
  destruct (window_hours_OK stamps (shape0 w / 96) Hlen) as (hours & -> & Hh).
  cbn [bind].
  assert (Hrows : length stamps = (shape0 w / 96 * 96)%nat) by lia.
  assert (Htab : forall is_demand,
             charge_table is_demand (shape0 w / 96 * 96)
               [(length before, r1);
                ((length before + S (length mid))%nat, r2)]
               [period r1; period r2]
               (map dt_month stamps) (map dt_weekday stamps) hours
             = Raise (IndexError "index is out of bounds for axis 0")).
  { intros is_demand; unfold charge_table; cbn [map snd].
    rewrite (np_unique_pair _ _ Hlim); cbn [for_each].
    rewrite separated_tier_raises;
      [reflexivity | rewrite length_map; lia | rewrite length_map; lia | lia
      | | exact Hlim | reflexivity].
    destruct mid; [congruence | cbn [length]; lia]. }
  destruct Hct as [<-|[<-|[]]]; cbn [String.eqb Ascii.eqb Bool.eqb];
    apply Htab.
Qed.

Lemma separated_tier_rows_index_error_witness :
  get_charge_array example_window
    ([] ++ peak_first_half :: [energy_low] ++ peak_second_half :: [])
    "demand" "electric"
  = Raise (IndexError "index is out of bounds for axis 0").
Proof.
  apply (separated_tier_rows_index_error example_window [] [energy_low] []
           peak_first_half peak_second_half "demand" "electric").
  - left; reflexivity.
  - exists (example_stamps 3); split; vm_compute; reflexivity.
  - reflexivity.
  - reflexivity.
  - reflexivity.
  - discriminate.
  - reflexivity.
  - reflexivity.
  - reflexivity.
  - reflexivity.
  - vm_compute; reflexivity.
Defined.

(** ** Three demand rules of one period *)

Lemma np_unique_triple (a b c : Q) :
  a == b -> b == c -> np_unique [a; b; c] = [c].
Proof.
  intros Hab Hbc; unfold np_unique; simpl.
  assert (E1 : Qlt_bool b c = false) by (apply Qlt_bool_false_iff; lra).
  assert (E2 : Qeq_bool b c = true) by (apply Qeq_bool_iff; exact Hbc).
  assert (E3 : Qlt_bool a c = false) by (apply Qlt_bool_false_iff; lra).
  assert (E4 : Qeq_bool a c = true) by (apply Qeq_bool_iff; lra).
  rewrite E1, E2; simpl; rewrite E3, E4; reflexivity.
Qed.

Lemma demand_triple_buffer (periods : list string) (months weekdays : list Z)
    (hours : list Q) (base n : nat) (r1 r2 r3 : Rule) :
  periods = [period r1; period r2; period r3] ->
  period r1 = period r2 -> period r2 = period r3 ->
  for_each (demand_rule_step periods months weekdays hours base)
    [(base, r1); (S base, r2); (S (S base), r3)]
    (repeat (np_zeros n) 3, [])
  = OK ([mask_times
           (mask_or (apply_charge_mask months weekdays hours r3)
                    (apply_charge_mask months weekdays hours r1))
           (charge r3);
         np_zeros n; np_zeros n],
        [(period r1, (0%nat, apply_charge_mask months weekdays hours r1))]).
Proof.
  intros -> Hp Hq; cbn [for_each].
  unfold demand_rule_step at 1; cbn [fst snd].
  rewrite Nat.sub_diag; cbn [get_period nth_error bind seen_lookup].
  cbn [set_column repeat length Nat.ltb Nat.leb firstn skipn app bind].
  unfold demand_rule_step at 1; cbn [fst snd].
  replace (S base - base)%nat with 1%nat by lia.
  cbn [get_period nth_error bind seen_lookup].
  rewrite <- Hp, String.eqb_refl.
  cbn [set_column length Nat.ltb Nat.leb firstn skipn app bind fst snd].
  unfold demand_rule_step; cbn [fst snd].
  replace (S (S base) - base)%nat with 2%nat by lia.
  cbn [get_period nth_error bind seen_lookup].
  rewrite <- Hq, <- Hp, String.eqb_refl.
  reflexivity.
Qed.

(** X23.  When the selected demand rules are three adjacent rows of the
    sheet with one period label and one tier limit, the times of the
    second rule are lost: the first column holds the rate of the third
    rule where the first or the third rule applies, whether or not the
    second applies there, and the two other columns are zero.  The mask
    recorded for a period is that of its first rule and is never
    updated. *)
Theorem third_rule_drops_second (w : DataFrame) (before after : list Rule)
    (r1 r2 r3 : Rule) (utility_ : string) (stamps : list Timestamp) :
  matching_rules before "demand" utility_ = [] ->
  matching_rules after "demand" utility_ = [] ->
  Forall (fun r => type_ r = "demand"%string /\ utility r = utility_)
    [r1; r2; r3] ->
  period r1 = period r2 -> period r2 = period r3 ->
  basic_charge_limit r1 == basic_charge_limit r2 ->
  basic_charge_limit r2 == basic_charge_limit r3 ->
  DateTime w = Some stamps ->
  length stamps = shape0 w ->
  (shape0 w mod 96 = 0)%nat ->
  exists merged,
    get_charge_array w (before ++ [r1; r2; r3] ++ after) "demand" utility_
    = OK (Struct2 (shape0 w) 3
            [(basic_charge_limit r3,
              [merged; np_zeros (shape0 w); np_zeros (shape0 w)])])
    /\ forall k t,
         nth_error stamps k = Some t ->
         nth_error merged k
         = Some (if applies r1 (dt_month t) (dt_weekday t)
                      (fractional_hour t k)
                    || applies r3 (dt_month t) (dt_weekday t)
                         (fractional_hour t k)
                 then charge r3 else 0).
Proof.
  intros Hb Ha Hrows Hp Hq Hl Hl' Hdt Hlen Hmod.
  assert (Hn : (shape0 w / 96 * 96)%nat = shape0 w).
  { pose proof (Nat.div_mod_eq (shape0 w) 96); lia. }
  destruct (window_hours_OK stamps (shape0 w / 96)) as (hours & Hh & Hhl);
    [lia|].
  set (m1 := apply_charge_mask (map dt_month stamps) (map dt_weekday stamps)
               hours r1).
  set (m3 := apply_charge_mask (map dt_month stamps) (map dt_weekday stamps)
               hours r3).
  exists (mask_times (mask_or m3 m1) (charge r3)).
  split.
  - unfold get_charge_array, get_DateTime.
    cbn [String.eqb Ascii.eqb Bool.eqb].
    rewrite Hdt; cbn [bind]; rewrite Hh; cbn [bind].
    rewrite (select_charges_block before [r1; r2; r3] after "demand" utility_)
      by assumption.
    cbn [length seq combine Nat.eqb map snd fst].
    unfold charge_table; cbn [map snd fst].
    rewrite (np_unique_triple _ _ _ Hl Hl'); cbn [for_each].
    unfold tier_buffer; cbn [filter snd].
    assert (E1 : Qeq_bool (basic_charge_limit r1) (basic_charge_limit r3)
                 = true)
      by (apply Qeq_bool_iff; rewrite Hl; exact Hl').
    assert (E2 : Qeq_bool (basic_charge_limit r2) (basic_charge_limit r3)
                 = true)
      by (apply Qeq_bool_iff; exact Hl').
    assert (E3 : Qeq_bool (basic_charge_limit r3) (basic_charge_limit r3)
                 = true)
      by (apply Qeq_bool_iff; reflexivity).
    rewrite E1, E2, E3; cbn [map fst length index_min fold_left].
    replace (Nat.min (Nat.min (length before) (S (length before)))
               (S (S (length before))))
      with (length before) by lia.
    rewrite (demand_triple_buffer _ _ _ _ _ _ r1 r2 r3 eq_refl Hp Hq).
    cbn [bind fst add_field size length Nat.eqb]; rewrite Hn; reflexivity.
  - intros k t Hk.
    pose proof (window_hours_nth _ _ _ _ _ Hh Hk) as Hhk.
    unfold mask_times; rewrite nth_error_map.
    rewrite (mask_or_nth m3 m1 k _ _
               (apply_charge_mask_nth stamps hours r3 k t _ Hk Hhk)
               (apply_charge_mask_nth stamps hours r1 k t _ Hk Hhk)).
    cbn [option_map]; rewrite orb_comm; reflexivity.
Qed.

Lemma third_rule_drops_second_witness :
  exists merged,
    get_charge_array example_window
      ([] ++ [peak_first_half;
              mkRule "electric" "demand" "peak" 0 1 12 0 6 0 6 7;
              peak_second_half] ++ [])
      "demand" "electric"
    = OK (Struct2 (shape0 example_window) 3
            [(basic_charge_limit peak_second_half,
              [merged; np_zeros (shape0 example_window);
               np_zeros (shape0 example_window)])])
    /\ forall k t,
         nth_error (example_stamps 3) k = Some t ->
         nth_error merged k
         = Some (if applies peak_first_half (dt_month t) (dt_weekday t)
                      (fractional_hour t k)
                    || applies peak_second_half (dt_month t) (dt_weekday t)
                         (fractional_hour t k)
                 then charge peak_second_half else 0).
Proof.
  apply (third_rule_drops_second example_window [] []
           peak_first_half
           (mkRule "electric" "demand" "peak" 0 1 12 0 6 0 6 7)
           peak_second_half "electric" (example_stamps 3)).
  - reflexivity.
  - reflexivity.
  - repeat constructor.
  - reflexivity.
  - reflexivity.
  - vm_compute; reflexivity.
  - vm_compute; reflexivity.
  - reflexivity.
  - vm_compute; reflexivity.
  - vm_compute; reflexivity.
Defined.

(** ** The empty window *)

Lemma add_field_first (ca : ndarray) (limit : Q) (data : tier_data) :
  size ca = 0%nat -> add_field ca limit data = add_field (Plain []) limit data.
Proof.
  intros H; unfold add_field; rewrite H; reflexivity.
Qed.

Lemma add_field_first_size (limit : Q) (data : tier_data) (t : ndarray) :
  add_field (Plain []) limit data = OK t -> size t = data_size data.
Proof.
  cbn [add_field size length Nat.eqb]; destruct data; intros H;
    injection H as <-; reflexivity.
Qed.

Lemma empty_table_last (is_demand : bool) charges periods months weekdays
    hours (limits : list Q) :
  limits <> [] ->
  forall ca t,
    size ca = 0%nat ->
    for_each
      (fun charge_array limit =>
         data <- tier_buffer is_demand 0 charges periods months weekdays hours
                   limit ;;
         add_field charge_array limit data)
      limits ca = OK t ->
    exists data,
      tier_buffer is_demand 0 charges periods months weekdays hours
        (last limits 0) = OK data
      /\ add_field (Plain []) (last limits 0) data = OK t.
Proof.
  induction limits as [|limit limits IH]; [congruence|]; intros _ ca t Hca H.
  cbn [for_each] in H.
  apply bind_OK_inv in H as (ca' & Hstep & H).
  apply bind_OK_inv in Hstep as (data & Hbuf & Hadd).
  rewrite add_field_first in Hadd by exact Hca.
  destruct limits as [|limit' limits].
  - cbn [for_each] in H; injection H as <-; exists data; split; assumption.
  - change (last (limit :: limit' :: limits) 0)
      with (last (limit' :: limits) 0).
    apply (IH ltac:(discriminate) ca' t); [|exact H].
    rewrite (add_field_first_size _ _ _ Hadd).
    rewrite (tier_buffer_size _ _ _ _ _ _ _ _ _ Hbuf).
    destruct is_demand; reflexivity.
Qed.

Lemma last_In {A : Type} (l : list A) (d : A) : l <> [] -> In (last l d) l.
Proof.
  induction l as [|x [|y l] IH]; [congruence | left; reflexivity |].
  intros _; right; apply IH; discriminate.
Qed.

Lemma tier_of_key_nonempty (charges : list (nat * Rule)) (limit : Q) :
  In limit (np_unique (map (fun c => basic_charge_limit (snd c)) charges)) ->
  filter (fun c => Qeq_bool (basic_charge_limit (snd c)) limit) charges <> [].
Proof.
  intros Hin E; apply np_unique_In, in_map_iff in Hin as (c & Hc & Hcin).
  assert (Hf : In c (filter (fun c => Qeq_bool (basic_charge_limit (snd c))
                                        limit) charges)).
  { apply filter_In; split; [exact Hcin|].
    apply Qeq_bool_iff; rewrite Hc; reflexivity. }
  rewrite E in Hf; exact Hf.
Qed.

Lemma empty_table (is_demand : bool) charges periods months weekdays hours t :
  charges <> [] ->
  charge_table is_demand 0 charges periods months weekdays hours = OK t ->
  let key := last (np_unique (map (fun c => basic_charge_limit (snd c))
                                charges)) 0 in
  In key (np_unique (map (fun c => basic_charge_limit (snd c)) charges))
  /\ exists data,
       tier_buffer is_demand 0 charges periods months weekdays hours key
       = OK data
       /\ add_field (Plain []) key data = OK t.
Proof.
  intros Hne H key; subst key.
  assert (Hl : np_unique (map (fun c => basic_charge_limit (snd c)) charges)
               <> []).
  { apply np_unique_nonempty; destruct charges; [congruence | discriminate]. }
  split; [apply last_In; exact Hl|].
  apply (empty_table_last is_demand charges periods months weekdays hours _ Hl
           (Plain []) t eq_refl H).
Qed.

(** X24.  For a window without rows and a sheet with rules of the charge
    type and the utility, the table returned for "demand" or "energy" has
    one tier only, the highest: every tier finds the table made so far of
    size zero and takes its place. *)
Theorem empty_window_keeps_last_tier (w : DataFrame) (rate_data : list Rule)
    (charge_type utility_ : string) (t : ndarray) :
  In charge_type cost_types ->
  get_charge_array w rate_data charge_type utility_ = OK t ->
  window_rows w = 0%nat ->
  matching_rules rate_data charge_type utility_ <> [] ->
  dtype_names t
  = Some [last (np_unique
                  (map basic_charge_limit
                     (matching_rules rate_data charge_type utility_))) 0].
Proof.
  intros Hct H Hrows Hne.
  destruct (get_charge_array_returns w rate_data charge_type utility_ t Hct H)
    as (stamps & hours & _ & _ & _ & _ & [(Hsel & _) | (Hsel & Ht)]).
  - exfalso; apply Hne; rewrite <- select_charges_rules, Hsel; reflexivity.
  - rewrite Hrows in Ht.
    apply (empty_table _ _ _ _ _ _ _ Hsel) in Ht as (_ & data & _ & Hadd).
    rewrite <- select_charges_rules, map_map.
    cbn [add_field size length Nat.eqb] in Hadd.
    destruct data; injection Hadd as <-; reflexivity.
Qed.

Lemma empty_window_keeps_last_tier_witness :
  dtype_names
    (match get_charge_array (mkDataFrame 0 (Some []))
             [energy_low; energy_high] "energy" "electric" with
     | OK t => t
     | Raise _ => Plain []
     end)
  = Some [last (np_unique
                  (map basic_charge_limit
                     (matching_rules [energy_low; energy_high] "energy"
                        "electric"))) 0].
Proof.
  apply (empty_window_keeps_last_tier (mkDataFrame 0 (Some []))
           [energy_low; energy_high] "energy" "electric").
  - right; left; reflexivity.
  - vm_compute; reflexivity.
  - reflexivity.
  - discriminate.
Defined.

(** X25.  A window without rows cannot be costed for demand: whatever the
    rules are, [calculate_cost] on the table resolved for it raises the
    [ValueError] of [argmax] on an empty sequence. *)
Theorem empty_window_demand_not_costed (w : DataFrame) (rate_data : list Rule)
    (utility_ cost_utility : string) (t : ndarray) (consumption_data : list Q) :
  get_charge_array w rate_data "demand" utility_ = OK t ->
  window_rows w = 0%nat ->
  length consumption_data = window_rows w ->
  calculate_cost t consumption_data "demand" cost_utility
  = Raise (ValueError "attempt to get argmax of an empty sequence").
Proof.
  intros H Hrows Hlen; rewrite Hrows in Hlen.
  destruct consumption_data; [clear Hlen | discriminate].
  destruct (get_charge_array_returns w rate_data "demand" utility_ t)
    as (stamps & hours & _ & _ & Hs & Hh & [(_ & ->) | (Hsel & Ht)]);
    [simpl; auto | exact H | |]; rewrite Hrows in *.
  - reflexivity.
  - cbn [String.eqb Ascii.eqb Bool.eqb] in Ht.
    apply (empty_table _ _ _ _ _ _ _ Hsel) in Ht as (Hkey & data & Hbuf & Hadd).
    pose proof (tier_of_key_nonempty _ _ Hkey) as Hcount.
    apply demand_buffer_shape in Hbuf as (cols & -> & Hlen & Hcols);
      [| rewrite length_map; exact Hs | rewrite length_map; exact Hs
       | exact Hh].
    cbn [add_field size length Nat.eqb] in Hadd; injection Hadd as <-.
    destruct cols as [|col cols].
    + exfalso; apply Hcount, length_zero_iff_nil; rewrite <- Hlen; reflexivity.
    + inversion Hcols as [|? ? Hcol _]; subst.
      apply length_zero_iff_nil in Hcol; subst col; reflexivity.
Qed.

Lemma empty_window_demand_not_costed_witness :
  calculate_cost
    (match get_charge_array (mkDataFrame 0 (Some []))
             [peak_first_half; morning_high] "demand" "electric" with
     | OK t => t
     | Raise _ => Plain []
     end)
    [] "demand" "electric"
  = Raise (ValueError "attempt to get argmax of an empty sequence").
Proof.
  apply (empty_window_demand_not_costed (mkDataFrame 0 (Some []))
           [peak_first_half; morning_high] "electric" "electric").
  - vm_compute; reflexivity.
  - reflexivity.
  - reflexivity.
Defined.

(** X26.  A window without rows costs nothing for energy: the table
    resolved for it has a single tier, so the scan that would leave [i]
    unbound is never entered, and the cost is zero for either utility. *)
Theorem empty_window_energy_costs_nothing (w : DataFrame)
    (rate_data : list Rule) (utility_ cost_utility : string) (t : ndarray)
    (consumption_data : list Q) :
  get_charge_array w rate_data "energy" utility_ = OK t ->
  window_rows w = 0%nat ->
  length consumption_data = window_rows w ->
  In cost_utility utilities ->
  exists cost,
    calculate_cost t consumption_data "energy" cost_utility = OK cost
    /\ cost == 0.
Proof.
  intros H Hrows Hlen Hu; rewrite Hrows in Hlen.
  destruct consumption_data; [clear Hlen | discriminate].
  assert (Hone : forall key,
             exists cost,
               calculate_cost (Struct1 0 [(key, [])]) [] "energy" cost_utility
               = OK cost /\ cost == 0).
  { intros key; unfold calculate_cost; cbn [String.eqb Ascii.eqb Bool.eqb].
    destruct (energy_divisor_spec cost_utility)
      as [(_ & E) | [(_ & E) | (Hbad & _)]]; [| |contradiction];
      rewrite E; eexists; (split; [reflexivity|]); reflexivity. }
  destruct (get_charge_array_returns w rate_data "energy" utility_ t)
    as (stamps & hours & _ & _ & Hs & Hh & [(_ & ->) | (Hsel & Ht)]);
    [simpl; auto | exact H | |]; rewrite Hrows in *.
  - apply Hone.
  - cbn [String.eqb Ascii.eqb Bool.eqb] in Ht.
    apply (empty_table _ _ _ _ _ _ _ Hsel) in Ht as (_ & data & Hbuf & Hadd).
    apply energy_buffer_shape in Hbuf as (v & -> & Hv).
    apply length_zero_iff_nil in Hv; subst v.
    cbn [add_field size length Nat.eqb] in Hadd; injection Hadd as <-.
    apply Hone.
Qed.

Lemma empty_window_energy_costs_nothing_witness :
  exists cost,
    calculate_cost
      (match get_charge_array (mkDataFrame 0 (Some []))
               [energy_low; energy_high] "energy" "electric" with
       | OK t => t
       | Raise _ => Plain []
       end)
      [] "energy" "electric" = OK cost
    /\ cost == 0.
Proof.
  apply (empty_window_energy_costs_nothing (mkDataFrame 0 (Some []))
           [energy_low; energy_high] "electric" "electric").
  - vm_compute; reflexivity.
  - reflexivity.
  - reflexivity.
  - left; reflexivity.
Defined.

(** ** The body of the month loop *)

Lemma month_costs_OK_inv (w : DataFrame) (elec gas : list Q)
    (rate_df : list Rule) (c : month_cost) :
  month_costs w elec gas rate_df = OK c ->
  exists ed ee ge gd,
    get_charge_array w rate_df "demand" "electric" = OK ed
    /\ get_charge_array w rate_df "energy" "electric" = OK ee
    /\ get_charge_array w rate_df "energy" "gas" = OK ge
    /\ get_charge_array w rate_df "demand" "gas" = OK gd
    /\ electric_customer c
       = np_sum (map charge (matching_rules rate_df "customer" "electric"))
    /\ gas_customer c
       = np_sum (map charge (matching_rules rate_df "customer" "gas"))
    /\ calculate_cost ed elec "demand" "electric" = OK (electric_demand c)
    /\ calculate_cost ee elec "energy" "electric" = OK (electric_energy c)
    /\ calculate_cost gd gas "demand" "gas" = OK (gas_demand c)
    /\ calculate_cost ge gas "energy" "gas" = OK (gas_energy c).
Proof.
  unfold month_costs; rewrite !get_charge_array_customer; cbn [bind].
  intros H.
  apply bind_OK_inv in H as (ed & Hed & H).
  apply bind_OK_inv in H as (ee & Hee & H).
  apply bind_OK_inv in H as (ge & Hge & H).
  apply bind_OK_inv in H as (gd & Hgd & H).
  cbn [np_sum_array bind] in H.
  apply bind_OK_inv in H as (c1 & H1 & H).
  apply bind_OK_inv in H as (c2 & H2 & H).
  apply bind_OK_inv in H as (c3 & H3 & H).
  apply bind_OK_inv in H as (c4 & H4 & H).
  injection H as <-; cbn.
  exists ed, ee, ge, gd; repeat split; assumption.
Qed.

(** X27.  Once the four rate tables of a month resolve, the body of the
    month loop returns its six costs: on a window of whole days that is
    not empty, with the two consumption columns of its length, neither
    the sums of the customer charges nor [calculate_cost] raise. *)
Theorem month_costs_returned (w : DataFrame) (elec gas : list Q)
    (rate_df : list Rule) :
  (forall charge_type utility_,
     In charge_type cost_types -> In utility_ utilities ->
     exists t, get_charge_array w rate_df charge_type utility_ = OK t) ->
  (0 < window_rows w)%nat ->
  length elec = window_rows w ->
  length gas = window_rows w ->
  exists c, month_costs w elec gas rate_df = OK c.
Proof.
  intros Hres Hpos Hel Hgas.
  destruct (Hres "demand" "electric")%string as (ed & Hed); [simpl; auto ..|].
  destruct (Hres "energy" "electric")%string as (ee & Hee); [simpl; auto ..|].
  destruct (Hres "energy" "gas")%string as (ge & Hge); [simpl; auto ..|].
  destruct (Hres "demand" "gas")%string as (gd & Hgd); [simpl; auto ..|].
  unfold month_costs; rewrite !get_charge_array_customer.
  rewrite Hed, Hee, Hge, Hgd; cbn [bind np_sum_array].
  destruct (resolving_then_costing w rate_df "demand" "electric" ed elec)
    as (c1 & ->); [simpl; auto | assumption .. | simpl; auto |].
  destruct (resolving_then_costing w rate_df "energy" "electric" ee elec)
    as (c2 & ->); [simpl; auto | assumption .. | simpl; auto |].
  destruct (resolving_then_costing w rate_df "demand" "gas" gd gas)
    as (c3 & ->); [simpl; auto | assumption .. | simpl; auto |].
  destruct (resolving_then_costing w rate_df "energy" "gas" ge gas)
    as (c4 & ->); [simpl; auto | assumption .. | simpl; auto |].
  cbn [bind]; eauto.
Qed.

Lemma month_costs_returned_witness :
  exists c,
    month_costs example_window example_consumption example_consumption
      [peak_first_half; peak_second_half; energy_low; energy_high] = OK c.
Proof.
  apply (month_costs_returned example_window example_consumption
           example_consumption
           [peak_first_half; peak_second_half; energy_low; energy_high]).
  - intros charge_type utility_ [<-|[<-|[]]] [<-|[<-|[]]];
      eexists; vm_compute; reflexivity.
  - vm_compute; lia.
  - reflexivity.
  - reflexivity.
Defined.

Lemma no_rule_of_utility (rate_df : list Rule) (charge_type utility_ : string) :
  Forall (fun r => utility r <> utility_) rate_df ->
  matching_rules rate_df charge_type utility_ = [].
Proof.
  intros Hall; unfold matching_rules.
  induction Hall as [|r l Hr _ IH]; [reflexivity|]; cbn [filter].
  apply String.eqb_neq in Hr; rewrite Hr, andb_false_r; exact IH.
Qed.

Lemma fallback_when_no_rule (w : DataFrame) (rate_data : list Rule)
    (charge_type utility_ : string) (t : ndarray) :
  In charge_type cost_types ->
  get_charge_array w rate_data charge_type utility_ = OK t ->
  matching_rules rate_data charge_type utility_ = [] ->
  t = zero_table charge_type (window_rows w).
Proof.
  intros Hct H Hnone.
  destruct (get_charge_array_returns w rate_data charge_type utility_ t Hct H)
    as (stamps & hours & _ & _ & _ & _ & [(_ & Ht) | (Hsel & _)]);
    [exact Ht|].
  exfalso; apply Hsel.
  apply (f_equal (@length _)) in Hnone.
  rewrite <- select_charges_rules, length_map in Hnone.
  apply length_zero_iff_nil; exact Hnone.
Qed.

Lemma zero_table_cost (charge_type utility_ : string)
    (consumption_data : list Q) (cost : Q) :
  In charge_type cost_types ->
  (0 < length consumption_data)%nat ->
  calculate_cost (zero_table charge_type (length consumption_data))
    consumption_data charge_type utility_ = OK cost ->
  cost == 0.
Proof.
  intros Hct Hpos.
  destruct Hct as [<-|[<-|[]]]; unfold zero_table, calculate_cost;
    cbn [String.eqb Ascii.eqb Bool.eqb].
  - cbn [demand_cost2 demand_columns for_each next_name].
    destruct (demand_charge_zero_column 0 None consumption_data Hpos)
      as (c & -> & Hc).
    cbn [bind]; intros H; injection H as <-; rewrite Hc; reflexivity.
  - intros H; apply bind_OK_inv in H as (divisor & _ & H).
    cbn [energy_tiers next_name sc_start sc_cost skipn] in H.
    rewrite billed_aligned in H by apply repeat_length.
    cbn [bind] in H; injection H as <-.
    rewrite elementwise_bill_zero_rates; reflexivity.
Qed.

(** X28.  A sheet without a rule for gas gives three gas costs of zero:
    when the body of the month loop returns for a window that is not
    empty, the customer, demand and energy costs of gas are 0, whatever
    the gas consumption is. *)
Theorem month_without_gas_rules (w : DataFrame) (elec gas : list Q)
    (rate_df : list Rule) (c : month_cost) :
  month_costs w elec gas rate_df = OK c ->
  Forall (fun r => utility r <> "gas"%string) rate_df ->
  (0 < window_rows w)%nat ->
  length gas = window_rows w ->
  gas_customer c == 0 /\ gas_demand c == 0 /\ gas_energy c == 0.
Proof.
  intros H Hall Hpos Hgas.
  apply month_costs_OK_inv in H
    as (ed & ee & ge & gd & _ & _ & Hge & Hgd & _ & Hcust & _ & _ & Hcd & Hce).
  rewrite <- Hgas in Hpos.
  split; [|split].
  - rewrite Hcust, (no_rule_of_utility rate_df "customer" "gas" Hall).
    reflexivity.
  - rewrite (fallback_when_no_rule w rate_df "demand" "gas" gd) in Hcd;
      [| simpl; auto | exact Hgd | apply no_rule_of_utility; exact Hall].
    rewrite <- Hgas in Hcd.
    apply (zero_table_cost "demand" "gas" gas); [simpl; auto | exact Hpos|].
    exact Hcd.
  - rewrite (fallback_when_no_rule w rate_df "energy" "gas" ge) in Hce;
      [| simpl; auto | exact Hge | apply no_rule_of_utility; exact Hall].
    rewrite <- Hgas in Hce.
    apply (zero_table_cost "energy" "gas" gas); [simpl; auto | exact Hpos|].
    exact Hce.
Qed.

Lemma month_without_gas_rules_witness :
  let c :=
    match month_costs example_window example_consumption example_consumption
            [peak_first_half; peak_second_half; energy_low; energy_high] with
    | OK c => c
    | Raise _ => mkMonthCost 1 1 1 1 1 1
    end in
  gas_customer c == 0 /\ gas_demand c == 0 /\ gas_energy c == 0.
Proof.
  apply (month_without_gas_rules example_window example_consumption
           example_consumption
           [peak_first_half; peak_second_half; energy_low; energy_high]).
  - vm_compute; reflexivity.
  - repeat constructor; discriminate.
  - vm_compute; lia.
  - reflexivity.
Defined.

(** ** The crossing sample, for every window *)

(** X29.  For two tiers of constant rates, the second positive, and a
    window whose running total passes the second limit at sample [i],
    the cost returned is the blended bill less the part of sample [i]
    above the limit at the second rate: it is strictly below the blended
    bill.  The running totals up to sample [i] are taken exact in
    binary64, so that [i] is also the sample at which the code's rounded
    total passes the limit. *)
Theorem energy_crossing_underbilled (name next r1 r2 : Q)
    (consumption_data : list Q) (utility_ : string) (divisor : Q) (i : nat) :
  energy_divisor utility_ = OK divisor ->
  (i < length consumption_data)%nat ->
  exact_running_totals consumption_data divisor (S i) ->
  next < np_sum (firstn (S i) consumption_data) / divisor ->
  (forall k, (k < i)%nat ->
             np_sum (firstn (S k) consumption_data) / divisor <= next) ->
  next < np_sum consumption_data / divisor ->
  0 < r2 ->
  exists cost,
    calculate_cost
      (Struct1 (length consumption_data)
         [(name, repeat r1 (length consumption_data));
          (next, repeat r2 (length consumption_data))])
      consumption_data "energy" utility_ = OK cost
    /\ cost == blended_bill consumption_data divisor next r1 r2
               - excess_at_crossing (repeat r2 (length consumption_data))
                   consumption_data divisor next i
    /\ cost < blended_bill consumption_data divisor next r1 r2.
Proof.
  intros Hd Hi _; apply crossing_underbills; assumption.
Qed.

Lemma energy_crossing_underbilled_witness :
  exists cost,
    calculate_cost
      (Struct1 (length [8; 12; 8])
         [(0, repeat (1 # 10) (length [8; 12; 8]));
          (4, repeat (2 # 10) (length [8; 12; 8]))])
      [8; 12; 8] "energy" "electric" = OK cost
    /\ cost == blended_bill [8; 12; 8] 4 4 (1 # 10) (2 # 10)
               - excess_at_crossing (repeat (2 # 10) (length [8; 12; 8]))
                   [8; 12; 8] 4 4 1
    /\ cost < blended_bill [8; 12; 8] 4 4 (1 # 10) (2 # 10).
Proof.
  apply (energy_crossing_underbilled 0 4 (1 # 10) (2 # 10) [8; 12; 8]
           "electric" 4 1).
  - reflexivity.
  - simpl; lia.
  - intros [|[|k]] Hk; try lia; split.
    + exists 8%Z, 0%Z; repeat split; try lia; vm_compute; reflexivity.
    + exists 2%Z, 0%Z; repeat split; try lia; vm_compute; reflexivity.
    + exists 20%Z, 0%Z; repeat split; try lia; vm_compute; reflexivity.
    + exists 5%Z, 0%Z; repeat split; try lia; vm_compute; reflexivity.
  - vm_compute; reflexivity.
  - intros [|k] Hk; [|lia].
    vm_compute; intros H; discriminate H.
  - vm_compute; reflexivity.
  - reflexivity.
Defined.

(** * The charge of a column within a table *)

(** ** What a column of a tier adds to the demand cost *)

Lemma outcome_plus_compat (d d' : Q) (r1 r2 : result Q) :
  d == d' -> outcome_plus d r1 r2 -> outcome_plus d' r1 r2.
Proof.
  intros Hd; destruct r1, r2; simpl; auto.
  intros H; rewrite H, Hd; reflexivity.
Qed.

Lemma demand_columns_shift (this : Q) (next : option Q)
    (cols : list (list Q)) (consumption_data : list Q) (d : Q) :
  forall a b,
    b == a + d ->
    outcome_plus d (demand_columns this next cols consumption_data a)
      (demand_columns this next cols consumption_data b).
Proof.
  unfold demand_columns; induction cols as [|col cols IH]; intros a b H;
    cbn [for_each]; [exact H|].
  destruct (demand_charge this next col consumption_data) as [c|e];
    cbn [bind]; [|reflexivity].
  apply IH; rewrite H; ring.
Qed.

Lemma demand_cost2_shift (fields : list (Q * list (list Q)))
    (consumption_data : list Q) (d : Q) :
  forall r1 r2,
    outcome_plus d r1 r2 ->
    outcome_plus d (c <- r1 ;; demand_cost2 fields consumption_data c)
      (c <- r2 ;; demand_cost2 fields consumption_data c).
Proof.
  induction fields as [|[name cols] rest IH]; intros [c1|e1] [c2|e2] H;
    simpl in H; try contradiction; cbn [bind demand_cost2]; try exact H.
  apply IH; apply demand_columns_shift; exact H.
Qed.

Lemma demand_columns_insert (this : Q) (next : option Q)
    (cols1 cols2 : list (list Q)) (col consumption_data : list Q)
    (cost c : Q) :
  demand_charge this next col consumption_data = OK c ->
  outcome_plus c
    (demand_columns this next (cols1 ++ cols2) consumption_data cost)
    (demand_columns this next (cols1 ++ col :: cols2) consumption_data cost).
Proof.
  intros Hc; unfold demand_columns; rewrite !for_each_app.
  destruct (for_each _ cols1 cost) as [a|e]; cbn [bind for_each];
    [|reflexivity].
  rewrite Hc; cbn [bind].
  apply (demand_columns_shift this next cols2 consumption_data c).
  reflexivity.
Qed.

Lemma demand_cost2_insert (before after : list (Q * list (list Q)))
    (name : Q) (cols1 cols2 : list (list Q)) (col consumption_data : list Q)
    (c : Q) :
  demand_charge name (next_name after) col consumption_data = OK c ->
  forall cost,
    outcome_plus c
      (demand_cost2 (before ++ (name, cols1 ++ cols2) :: after)
         consumption_data cost)
      (demand_cost2 (before ++ (name, cols1 ++ col :: cols2) :: after)
         consumption_data cost).
Proof.
  intros Hc.
  induction before as [|[nm cols] before IH]; intros cost;
    cbn [app demand_cost2].
  - apply demand_cost2_shift, demand_columns_insert; exact Hc.
  - assert (Hnext : next_name
                      (before ++ (name, cols1 ++ col :: cols2) :: after)
                    = next_name (before ++ (name, cols1 ++ cols2) :: after))
      by (destruct before as [|[? ?] ?]; reflexivity).
    rewrite Hnext.
    destruct (demand_columns nm _ cols consumption_data cost) as [a|e];
      cbn [bind]; [apply IH | reflexivity].
Qed.

(** ** The charge of a masked column *)

Lemma demand_charge_not_above (this nx rate : Q) (mask : list bool)
    (consumption_data : list Q) (p : Q) :
  peak_demand (mask_times mask rate) consumption_data = OK p ->
  p <= nx -> this <= p -> 0 <= rate -> In true mask ->
  exists c,
    demand_charge this (Some nx) (mask_times mask rate) consumption_data = OK c
    /\ c == (p - this) * rate.
Proof.
  intros Hp Hle Hthis Hrate Hin.
  rewrite (demand_charge_branches _ _ _ _ _ Hp).
  assert (E : Qlt_bool nx p = false) by (apply Qlt_bool_false_iff; exact Hle).
  rewrite E; unfold excess_charge.
  destruct (np_max_scaled_column (p - this) rate mask)
    as (m & Hm & Hv); [lra | exact Hrate | exact Hin |].
  rewrite Hm; cbn [bind]; eexists; split; [reflexivity|].
  assert (0 <= (p - this) * rate) by (apply Qmult_le_0_compat; lra).
  destruct (Qmaxb_spec m 0) as [(H0 & ->) | (H0 & ->)]; lra.
Qed.

Lemma demand_charge_above (this nx rate : Q) (mask : list bool)
    (consumption_data : list Q) (p : Q) :
  peak_demand (mask_times mask rate) consumption_data = OK p ->
  nx < p -> this <= nx -> 0 <= rate -> In true mask ->
  exists c,
    demand_charge this (Some nx) (mask_times mask rate) consumption_data = OK c
    /\ c == (nx - this) * rate.
Proof.
  intros Hp Hlt Hle Hrate Hin.
  rewrite (demand_charge_branches _ _ _ _ _ Hp).
  assert (E : Qlt_bool nx p = true) by (apply Qlt_bool_iff; exact Hlt).
  rewrite E; unfold flat_charge.
  apply np_max_scaled_column; [lra | exact Hrate | exact Hin].
Qed.

Lemma demand_charge_null_rate (this : Q) (next : option Q) (mask : list bool)
    (rate : Q) (consumption_data : list Q) :
  rate == 0 ->
  length mask = length consumption_data ->
  (0 < length consumption_data)%nat ->
  exists c,
    demand_charge this next (mask_times mask rate) consumption_data = OK c
    /\ c == 0.
Proof.
  intros Hrate Hlen Hpos.
  assert (Hml : length (mask_times mask rate) = length consumption_data)
    by (unfold mask_times; rewrite length_map; exact Hlen).
  destruct (peak_demand_OK _ _ Hml Hpos) as (p & Hp & _).
  rewrite (demand_charge_branches _ _ _ _ _ Hp).
  assert (Hnull : forall d,
             exists m,
               np_max (map (fun r => d * r) (mask_times mask rate)) = OK m
               /\ m == 0).
  { intros d; apply np_max_constant.
    - destruct mask; [simpl in Hlen; lia | discriminate].
    - apply Forall_forall; intros x Hx.
      apply in_map_iff in Hx as (r & <- & Hr).
      unfold mask_times in Hr; apply in_map_iff in Hr as ([|] & <- & _);
        [rewrite Hrate|]; ring. }
  assert (Hexcess : forall d,
             exists c,
               excess_charge this d (mask_times mask rate) = OK c /\ c == 0).
  { intros d; unfold excess_charge.
    destruct (Hnull (d - this)) as (m & -> & Hm); cbn [bind].
    eexists; split; [reflexivity|].
    destruct (Qmaxb_spec m 0) as [(_ & ->) | (_ & ->)];
      [reflexivity | exact Hm]. }
  destruct next as [nx|]; [destruct (Qlt_bool nx p)|]; try apply Hexcess.
  unfold flat_charge; apply Hnull.
Qed.

Lemma read_is_restricted_peak (mask : list bool) (rate : Q)
    (consumption_data : list Q) (peak : Q) :
  0 < rate ->
  length mask = length consumption_data ->
  restricted_peak mask consumption_data peak ->
  0 < peak ->
  exists p,
    peak_demand (mask_times mask rate) consumption_data = OK p /\ p == peak.
Proof.
  intros Hrate Hlen ((pos & Hmask & Hat) & Hmax) Hpos.
  destruct (peak_of_masked_column mask rate consumption_data Hrate Hlen)
    as (p & pos' & Hp & Hat' & Hmask' & Hmax'); [eauto|].
  exists p; split; [exact Hp|].
  apply Qle_antisym; eauto.
Qed.

Lemma masked_column_charge (this nx rate : Q) (mask : list bool)
    (consumption_data : list Q) (peak : Q) :
  restricted_peak mask consumption_data peak ->
  length mask = length consumption_data ->
  0 <= rate -> this <= nx -> 0 < peak ->
  (this <= peak -> peak <= nx ->
   exists c,
     demand_charge this (Some nx) (mask_times mask rate) consumption_data
     = OK c
     /\ c == (peak - this) * rate)
  /\ (nx < peak ->
      exists c,
        demand_charge this (Some nx) (mask_times mask rate) consumption_data
        = OK c
        /\ c == (nx - this) * rate).
Proof.
  intros Hpk Hlen Hrate Hle Hpos.
  assert (Hin : In true mask)
    by (destruct Hpk as ((pos & Hm & _) & _); eapply nth_error_In; eauto).
  assert (Hne : (0 < length consumption_data)%nat).
  { destruct Hpk as ((pos & _ & Hc) & _).
    assert (pos < length consumption_data)%nat
      by (apply nth_error_Some; congruence).
    lia. }
  destruct (Qlt_le_dec 0 rate) as [Hr|Hr].
  - destruct (read_is_restricted_peak mask rate consumption_data peak
                Hr Hlen Hpk Hpos) as (p & Hp & Heq).
    split.
    + intros Hthis Hbelow.
      destruct (demand_charge_not_above this nx rate mask consumption_data p
                  Hp) as (c & Hc & Hv);
        [lra | lra | exact Hrate | exact Hin |].
      exists c; split; [exact Hc|]; rewrite Hv, Heq; reflexivity.
    + intros Habove.
      apply (demand_charge_above this nx rate mask consumption_data p Hp);
        [lra | exact Hle | exact Hrate | exact Hin].
  - assert (Hr0 : rate == 0) by (apply Qle_antisym; assumption).
    destruct (demand_charge_null_rate this (Some nx) mask rate
                consumption_data Hr0 Hlen Hne) as (c & Hc & Hv).
    split; intros; exists c; (split; [exact Hc|]); rewrite Hv, Hr0; ring.
Qed.

(** C3.  In a demand table with tiers at [this] and [nx], limits that are
    not negative and ascend, a time-of-use column of the lower tier adds to
    the cost of the table (peak - L_this) x rate when the peak of the
    consumption over the timestamps of the column equals the next tier's
    limit, as it does for a peak below that limit; the flat full width
    (L_next - L_this) x rate is added when the peak is strictly above the
    next tier's limit.  The cost is compared with that of the table
    without the column, wherever the column and the tier stand in the
    table.  At the tie the two forms give the same number; the form that
    is evaluated there is the difference from the limit. *)
Theorem demand_tie_break (n k k' : nat)
    (before after : list (Q * list (list Q))) (this nx rate : Q)
    (cols1 cols2 cols' : list (list Q)) (mask : list bool)
    (consumption_data : list Q) (utility_ : string) (peak : Q) :
  restricted_peak mask consumption_data peak ->
  length mask = length consumption_data ->
  0 <= rate ->
  0 <= this ->
  this < nx ->
  let without :=
    calculate_cost
      (Struct2 n k' (before ++ (this, cols1 ++ cols2) :: (nx, cols') :: after))
      consumption_data "demand" utility_ in
  let billed :=
    calculate_cost
      (Struct2 n k
         (before
          ++ (this, cols1 ++ mask_times mask rate :: cols2)
          :: (nx, cols') :: after))
      consumption_data "demand" utility_ in
  (peak == nx -> outcome_plus ((peak - this) * rate) without billed)
  /\ (nx < peak -> outcome_plus ((nx - this) * rate) without billed)
  /\ (0 < peak -> this <= peak -> peak < nx ->
      outcome_plus ((peak - this) * rate) without billed)
  /\ (peak == nx -> 0 < rate ->
      exists p,
        peak_demand (mask_times mask rate) consumption_data = OK p
        /\ p == peak
        /\ demand_charge this (Some nx) (mask_times mask rate)
             consumption_data
           = excess_charge this p (mask_times mask rate)).
Proof.
  intros Hpk Hlen Hrate Hthis Hlt without billed; subst without billed.
  unfold calculate_cost; cbn [String.eqb Ascii.eqb Bool.eqb].
  assert (Hadd : forall v,
             (exists c,
                demand_charge this (Some nx) (mask_times mask rate)
                  consumption_data = OK c /\ c == v) ->
             outcome_plus v
               (demand_cost2
                  (before ++ (this, cols1 ++ cols2) :: (nx, cols') :: after)
                  consumption_data 0)
               (demand_cost2
                  (before
                   ++ (this, cols1 ++ mask_times mask rate :: cols2)
                   :: (nx, cols') :: after)
                  consumption_data 0)).
  { intros v (c & Hc & Hv).
    apply (outcome_plus_compat c v _ _ Hv).
    apply (demand_cost2_insert before ((nx, cols') :: after) this cols1 cols2
             (mask_times mask rate) consumption_data c Hc). }
  split; [|split; [|split]].
  - intros Htie; apply Hadd.
    apply (masked_column_charge this nx rate mask consumption_data peak);
      try assumption; lra.
  - intros Habove; apply Hadd.
    apply (masked_column_charge this nx rate mask consumption_data peak);
      try assumption; lra.
  - intros Hpos Hlow Hbelow; apply Hadd.
    apply (masked_column_charge this nx rate mask consumption_data peak);
      try assumption; lra.
  - intros Htie Hpos.
    destruct (read_is_restricted_peak mask rate consumption_data peak
                Hpos Hlen Hpk) as (p & Hp & Heq); [lra|].
    exists p; split; [exact Hp|]; split; [exact Heq|].
    rewrite (demand_charge_branches _ _ _ _ _ Hp).
    assert (E : Qlt_bool nx p = false) by (apply Qlt_bool_false_iff; lra).
    rewrite E; reflexivity.
Qed.

Lemma demand_tie_break_witness :
  let without :=
    calculate_cost
      (Struct2 3 0 ([] ++ (0, [] ++ []) :: (10, [[3; 3; 3]]) :: []))
      [4; 10; 30] "demand" "electric" in
  let billed :=
    calculate_cost
      (Struct2 3 1
         ([] ++ (0, [] ++ mask_times [true; true; false] 2 :: [])
          :: (10, [[3; 3; 3]]) :: []))
      [4; 10; 30] "demand" "electric" in
  (10 == 10 -> outcome_plus ((10 - 0) * 2) without billed)
  /\ (10 < 10 -> outcome_plus ((10 - 0) * 2) without billed)
  /\ (0 < 10 -> 0 <= 10 -> 10 < 10 ->
      outcome_plus ((10 - 0) * 2) without billed)
  /\ (10 == 10 -> 0 < 2 ->
      exists p,
        peak_demand (mask_times [true; true; false] 2) [4; 10; 30] = OK p
        /\ p == 10
        /\ demand_charge 0 (Some 10) (mask_times [true; true; false] 2)
             [4; 10; 30]
           = excess_charge 0 p (mask_times [true; true; false] 2)).
Proof.
  apply (demand_tie_break 3 1 0 [] [] 0 10 2 [] [] [[3; 3; 3]]
           [true; true; false] [4; 10; 30] "electric" 10).
  - split; [exists 1%nat; split; reflexivity|].
    intros [|[|[|[|j]]]] c Hm Hc; simpl in Hm, Hc; try discriminate;
      injection Hc as <-; unfold Qle; simpl; lia.
  - reflexivity.
  - unfold Qle; simpl; lia.
  - unfold Qle; simpl; lia.
  - reflexivity.
Defined.

(** * The masks in the returned tables *)

(** ** Labels of the selected rows *)

Lemma map_fst_labelled (rows : list Rule) (start : nat) :
  map fst (combine (seq start (length rows)) rows) = seq start (length rows).
Proof.
  revert start; induction rows as [|r l IH]; simpl; intros n; [reflexivity|].
  rewrite IH; reflexivity.
Qed.

Lemma NoDup_labels_filter (f : nat * Rule -> bool) (l : list (nat * Rule)) :
  NoDup (map fst l) -> NoDup (map fst (filter f l)).
Proof.
  induction l as [|x l IH]; cbn [filter map]; intros H; [constructor|].
  inversion H as [|? ? Hx Hl]; subst.
  destruct (f x); cbn [map]; [|apply IH; exact Hl].
  constructor; [|apply IH; exact Hl].
  intros Hin; apply Hx.
  apply in_map_iff in Hin as (y & Hy & Hyin).
  apply filter_In in Hyin as (Hyin & _).
  rewrite <- Hy; apply in_map; exact Hyin.
Qed.

Lemma select_charges_labels (rate_data : list Rule)
    (charge_type utility_ : string) :
  NoDup (map fst (select_charges rate_data charge_type utility_)).
Proof.
  unfold select_charges; do 2 apply NoDup_labels_filter.
  unfold index_rows; rewrite map_fst_labelled; apply seq_NoDup.
Qed.

Lemma fold_left_min_le (ls : list nat) :
  forall l,
    (fold_left Nat.min ls l <= l)%nat
    /\ forall x, In x ls -> (fold_left Nat.min ls l <= x)%nat.
Proof.
  induction ls as [|y ls IH]; intros l; cbn [fold_left].
  - split; [lia | intros x []].
  - destruct (IH (Nat.min l y)) as (H1 & H2); split; [lia|].
    intros x [<-|Hx]; [lia | apply H2; exact Hx].
Qed.

Lemma index_min_le (labels : list nat) (x : nat) :
  In x labels -> (index_min labels <= x)%nat.
Proof.
  destruct labels as [|l ls]; [intros []|]; cbn [index_min].
  destruct (fold_left_min_le ls l) as (H1 & H2).
  intros [<-|Hx]; [exact H1 | apply H2; exact Hx].
Qed.

(** ** The column a demand rule writes *)

Lemma set_column_nth (cols : list (list Q)) (i : nat) (v : list Q)
    (cols' : list (list Q)) :
  set_column cols i v = OK cols' ->
  nth_error cols' i = Some v
  /\ forall j, j <> i -> nth_error cols' j = nth_error cols j.
Proof.
  unfold set_column; destruct (Nat.ltb_spec i (length cols)) as [Hi|];
    [|discriminate].
  intros H; injection H as <-.
  assert (Hlen : length (firstn i cols) = i)
    by (rewrite length_firstn; lia).
  split.
  - rewrite nth_error_app2 by lia.
    rewrite Hlen, Nat.sub_diag; reflexivity.
  - intros j Hj; destruct (Nat.lt_ge_cases j i) as [Hlt|Hge].
    + rewrite nth_error_app1 by lia.
      rewrite nth_error_firstn.
      destruct (Nat.ltb_spec j i); [reflexivity | lia].
    + rewrite nth_error_app2 by lia.
      rewrite Hlen.
      destruct (j - i)%nat as [|m] eqn:E; [lia|].
      cbn [nth_error].
      change (match cols with [] => [] | _ :: l => skipn i l end)
        with (skipn (S i) cols).
      rewrite nth_error_skipn; f_equal; lia.
Qed.

Lemma seen_lookup_key (p : string) (seen : periods_seen_t)
    (v : nat * list bool) :
  seen_lookup p seen = Some v -> In p (map fst seen).
Proof.
  induction seen as [|[q v'] seen IH]; cbn [seen_lookup map fst];
    [discriminate|].
  destruct (String.eqb_spec p q) as [->|_]; [left; reflexivity|].
  intros H; right; apply IH; exact H.
Qed.

Lemma demand_loop_columns (periods : list string) (months weekdays : list Z)
    (hours : list Q) (base : nat) :
  NoDup periods ->
  forall todo done (st st' : list (list Q) * periods_seen_t),
    NoDup (map fst (done ++ todo)) ->
    (forall row, In row (done ++ todo) -> (base <= fst row)%nat) ->
    (forall p, In p (map fst (snd st)) ->
               exists row, In row done
                           /\ nth_error periods (fst row - base) = Some p) ->
    (forall row, In row done ->
                 nth_error (fst st) (fst row - base)
                 = Some (mask_times
                           (apply_charge_mask months weekdays hours (snd row))
                           (charge (snd row)))) ->
    for_each (demand_rule_step periods months weekdays hours base) todo st
    = OK st' ->
    forall row, In row (done ++ todo) ->
                nth_error (fst st') (fst row - base)
                = Some (mask_times
                          (apply_charge_mask months weekdays hours (snd row))
                          (charge (snd row))).
Proof.
  intros Hper; induction todo as [|row todo IH];
    intros done st st' Hlab Hbase Hkeys Hcols H.
  - cbn [for_each] in H; injection H as <-.
    rewrite app_nil_r; exact Hcols.
  - cbn [for_each] in H.
    apply bind_OK_inv in H as (st1 & Hstep & H).
    assert (Hother : forall row0, In row0 done ->
                       (fst row0 - base <> fst row - base)%nat).
    { intros row0 H0 E.
      assert (Hb0 : (base <= fst row0)%nat)
        by (apply Hbase, in_or_app; left; exact H0).
      assert (Hb : (base <= fst row)%nat)
        by (apply Hbase, in_or_app; right; left; reflexivity).
      rewrite map_app in Hlab; cbn [map] in Hlab.
      apply NoDup_remove_2 in Hlab; apply Hlab, in_or_app; left.
      replace (fst row) with (fst row0) by lia.
      apply in_map; exact H0. }
    unfold demand_rule_step in Hstep.
    apply bind_OK_inv in Hstep as (p & Hp & Hstep).
    cbv beta zeta in Hstep.
    unfold get_period in Hp.
    destruct (nth_error periods (fst row - base)) as [p'|] eqn:Hread;
      [injection Hp as ->|discriminate].
    match type of Hstep with
    | match ?c with _ => _ end = _ => destruct c as [[col m]|] eqn:Hseen
    end.
    + exfalso.
      apply seen_lookup_key, Hkeys in Hseen as (row0 & H0 & Hread0).
      apply (Hother row0 H0).
      apply (proj1 (NoDup_nth_error periods) Hper).
      * apply nth_error_Some; congruence.
      * congruence.
    + apply bind_OK_inv in Hstep as (cols1 & Hset & Hstep).
      injection Hstep as <-.
      apply set_column_nth in Hset as (Hnew & Hold).
      replace (done ++ row :: todo) with ((done ++ [row]) ++ todo)
        in * by (rewrite <- app_assoc; reflexivity).
      eapply (IH (done ++ [row])); [exact Hlab | exact Hbase | | | exact H].
      * cbn [snd map fst]; intros q [<-|Hq].
        -- exists row; split; [apply in_or_app; right; left; reflexivity|].
           exact Hread.
        -- destruct (Hkeys q Hq) as (row0 & H0 & Hr0).
           exists row0; split; [apply in_or_app; left; exact H0 | exact Hr0].
      * cbn [fst]; intros row1 H1.
        apply in_app_or in H1 as [H1|[<-|[]]]; [|exact Hnew].
        rewrite Hold by (apply Hother; exact H1).
        apply Hcols; exact H1.
Qed.

Lemma demand_buffer_columns nrows charges periods months weekdays hours limit
    cols :
  NoDup periods ->
  NoDup (map fst charges) ->
  tier_buffer true nrows charges periods months weekdays hours limit
  = OK (Data2 nrows cols) ->
  forall row,
    In row charges ->
    Qeq_bool (basic_charge_limit (snd row)) limit = true ->
    In (mask_times (apply_charge_mask months weekdays hours (snd row))
          (charge (snd row))) cols.
Proof.
  intros Hper Hlab H row Hrow Hlim; unfold tier_buffer in H.
  apply bind_OK_inv in H as (st & Hloop & H); injection H as <-.
  set (tier := filter (fun c => Qeq_bool (basic_charge_limit (snd c)) limit)
                 charges) in *.
  assert (Hin : In row tier) by (apply filter_In; split; assumption).
  eapply nth_error_In.
  apply (demand_loop_columns periods months weekdays hours
           (index_min (map fst tier)) Hper tier []
           (repeat (np_zeros nrows) (length tier), []) st);
    [| | | | exact Hloop | exact Hin]; cbn [app snd fst map].
  - apply NoDup_labels_filter; exact Hlab.
  - intros r Hr; apply index_min_le, in_map; exact Hr.
  - intros p [].
  - intros r [].
Qed.

(** ** The columns of a demand table *)

Lemma later_tiers_columns nrows charges periods months weekdays hours
    (limits : list Q) :
  length months = nrows -> length weekdays = nrows -> length hours = nrows ->
  NoDup periods ->
  NoDup (map fst charges) ->
  forall k fields t,
    (nrows * k <> 0)%nat ->
    for_each
      (fun charge_array limit =>
         data <- tier_buffer true nrows charges periods months weekdays hours
                   limit ;;
         add_field charge_array limit data)
      limits (Struct2 nrows k fields) = OK t ->
    exists fields',
      t = Struct2 nrows k (fields ++ fields')
      /\ map fst fields' = limits
      /\ forall key cols row,
           In (key, cols) fields' ->
           In row charges ->
           Qeq_bool (basic_charge_limit (snd row)) key = true ->
           In (mask_times (apply_charge_mask months weekdays hours (snd row))
                 (charge (snd row))) cols.
Proof.
  intros Hm Hw Hh Hper Hlab.
  induction limits as [|limit limits IH]; intros k fields t Hsz H;
    cbn [for_each] in H.
  - injection H as <-; exists []; rewrite app_nil_r.
    split; [reflexivity|]; split; [reflexivity | intros ? ? ? []].
  - apply bind_OK_inv in H as (ca & Hstep & H).
    apply bind_OK_inv in Hstep as (data & Hbuf & Hadd).
    destruct (demand_buffer_shape _ _ _ _ _ _ _ _ Hm Hw Hh Hbuf)
      as (cols0 & -> & _ & _).
    pose proof (demand_buffer_columns _ _ _ _ _ _ _ _ Hper Hlab Hbuf) as Hc0.
    unfold add_field in Hadd; cbn [size] in Hadd.
    destruct (Nat.eqb_spec (nrows * k) 0) as [E|_]; [contradiction|].
    rewrite Nat.eqb_refl in Hadd.
    assert (Hca : exists cols,
               ca = Struct2 nrows k (fields ++ [(limit, cols)])
               /\ forall c, In c cols0 -> In c cols).
    { destruct (Nat.eqb (length cols0) k).
      - injection Hadd as <-; exists cols0; split; [reflexivity | auto].
      - destruct cols0 as [|c0 [|c1 cols0]]; try discriminate.
        injection Hadd as <-; exists (repeat c0 k); split; [reflexivity|].
        intros c [<-|[]].
        destruct k; [lia | left; reflexivity]. }
    destruct Hca as (cols & -> & Hsub).
    destruct (IH k _ t Hsz H) as (fields' & -> & Hkeys & Hall).
    exists ((limit, cols) :: fields'); split; [|split].
    + rewrite <- app_assoc; reflexivity.
    + cbn [map fst]; rewrite Hkeys; reflexivity.
    + intros key cs row [E|Hin] Hrow Hlim.
      * injection E as <- <-; apply Hsub, Hc0; assumption.
      * eapply Hall; eassumption.
Qed.

Lemma demand_table_columns nrows charges periods months weekdays hours t :
  length months = nrows -> length weekdays = nrows -> length hours = nrows ->
  (0 < nrows)%nat ->
  NoDup periods ->
  NoDup (map fst charges) ->
  charge_table true nrows charges periods months weekdays hours = OK t ->
  forall row,
    In row charges ->
    exists key cols,
      In (key, cols) (struct2_fields t)
      /\ key == basic_charge_limit (snd row)
      /\ In (mask_times (apply_charge_mask months weekdays hours (snd row))
               (charge (snd row))) cols.
Proof.
  intros Hm Hw Hh Hpos Hper Hlab H row Hrow.
  destruct (np_unique_covers (basic_charge_limit (snd row))
              (map (fun c => basic_charge_limit (snd c)) charges))
    as (key & Hkey & Heq).
  { apply in_map_iff; exists row; split; [reflexivity | exact Hrow]. }
  assert (Hlim : Qeq_bool (basic_charge_limit (snd row)) key = true)
    by (apply Qeq_bool_iff; rewrite Heq; reflexivity).
  revert H Hkey; unfold charge_table.
  pose proof (fun y => tier_of_key_nonempty charges y) as Hcount.
  destruct (np_unique (map (fun c => basic_charge_limit (snd c)) charges))
    as [|limit limits]; [intros _ []|].
  cbn [for_each]; intros H Hkey.
  apply bind_OK_inv in H as (ca & Hstep & H).
  apply bind_OK_inv in Hstep as (data & Hbuf & Hadd).
  destruct (demand_buffer_shape _ _ _ _ _ _ _ _ Hm Hw Hh Hbuf)
    as (cols0 & -> & Hlen & _).
  pose proof (demand_buffer_columns _ _ _ _ _ _ _ _ Hper Hlab Hbuf) as Hc0.
  cbn [add_field size length Nat.eqb] in Hadd; injection Hadd as <-.
  assert (Hk : (nrows * length cols0 <> 0)%nat).
  { specialize (Hcount limit (or_introl eq_refl)).
    rewrite Hlen; destruct (filter _ charges); [congruence | simpl; lia]. }
  destruct (later_tiers_columns _ _ _ _ _ _ limits Hm Hw Hh Hper Hlab
              _ _ t Hk H) as (fields' & -> & Hkeys & Hall).
  cbn [struct2_fields app].
  destruct Hkey as [<-|Hkey].
  - exists limit, cols0; split; [left; reflexivity|]; split; [exact Heq|].
    apply Hc0; assumption.
  - rewrite <- Hkeys in Hkey.
    apply in_map_iff in Hkey as ([key' cols] & Hk' & Hin); cbn [fst] in Hk'.
    subst key'; exists key, cols; split; [right; exact Hin|].
    split; [exact Heq|]; eapply Hall; eassumption.
Qed.

(** ** What the columns of a demand table hold *)

Lemma set_column_Forall (P : list Q -> Prop) (cols : list (list Q)) (i : nat)
    (v : list Q) (cols' : list (list Q)) :
  Forall P cols -> P v -> set_column cols i v = OK cols' -> Forall P cols'.
Proof.
  intros Hall Hv; unfold set_column.
  destruct (i <? length cols)%nat; [|discriminate].
  intros H; injection H as <-.
  apply Forall_app; split.
  - apply Forall_firstn; exact Hall.
  - constructor; [exact Hv|].
    apply Forall_forall; intros x Hx; rewrite Forall_forall in Hall.
    apply Hall; rewrite <- (firstn_skipn (S i) cols).
    apply in_or_app; right; exact Hx.
Qed.

Lemma demand_loop_written (periods : list string) (months weekdays : list Z)
    (hours : list Q) (base n : nat) (rules : list Rule) :
  forall todo (st st' : list (list Q) * periods_seen_t),
    (forall row, In row todo -> In (snd row) rules) ->
    Forall (written_column months weekdays hours n rules) (fst st) ->
    (forall e, In e (snd st) ->
               exists r1, In r1 rules
                          /\ snd (snd e)
                             = apply_charge_mask months weekdays hours r1) ->
    for_each (demand_rule_step periods months weekdays hours base) todo st
    = OK st' ->
    Forall (written_column months weekdays hours n rules) (fst st').
Proof.
  induction todo as [|row todo IH]; intros st st' Hrules Hcols Hseen H;
    cbn [for_each] in H.
  - injection H as <-; exact Hcols.
  - apply bind_OK_inv in H as (st1 & Hstep & H).
    assert (Hrow : In (snd row) rules) by (apply Hrules; left; reflexivity).
    unfold demand_rule_step in Hstep.
    apply bind_OK_inv in Hstep as (p & _ & Hstep).
    cbv beta zeta in Hstep.
    match type of Hstep with
    | match ?c with _ => _ end = _ => destruct c as [[col m]|] eqn:Hlook
    end.
    + apply bind_OK_inv in Hstep as (cols1 & Hset & Hstep).
      injection Hstep as <-.
      apply seen_lookup_In in Hlook as (q & Hq).
      destruct (Hseen _ Hq) as (r1 & Hr1 & Hm); cbn [snd] in Hm; subst m.
      eapply IH; [intros r Hr; apply Hrules; right; exact Hr | | | exact H].
      * cbn [fst]; eapply set_column_Forall; [exact Hcols | | exact Hset].
        right; right; exists (snd row), r1; auto.
      * exact Hseen.
    + apply bind_OK_inv in Hstep as (cols1 & Hset & Hstep).
      injection Hstep as <-.
      eapply IH; [intros r Hr; apply Hrules; right; exact Hr | | | exact H].
      * cbn [fst]; eapply set_column_Forall; [exact Hcols | | exact Hset].
        right; left; exists (snd row); auto.
      * cbn [snd]; intros e [<-|He]; [|apply Hseen; exact He].
        exists (snd row); split; [exact Hrow | reflexivity].
Qed.

Lemma demand_buffer_written nrows charges periods months weekdays hours limit
    cols :
  tier_buffer true nrows charges periods months weekdays hours limit
  = OK (Data2 nrows cols) ->
  Forall (written_column months weekdays hours nrows
            (map snd (filter (fun c => Qeq_bool (basic_charge_limit (snd c))
                                          limit) charges)))
    cols.
Proof.
  intros H; unfold tier_buffer in H.
  apply bind_OK_inv in H as (st & Hloop & H); injection H as <-.
  eapply demand_loop_written; [| | | exact Hloop]; cbn [fst snd].
  - intros row Hrow; apply in_map; exact Hrow.
  - apply Forall_forall; intros col Hcol.
    apply repeat_spec in Hcol; left; exact Hcol.
  - intros e [].
Qed.

Lemma later_tiers_written nrows charges periods months weekdays hours
    (limits : list Q) :
  length months = nrows -> length weekdays = nrows -> length hours = nrows ->
  forall k fields t,
    (nrows * k <> 0)%nat ->
    for_each
      (fun charge_array limit =>
         data <- tier_buffer true nrows charges periods months weekdays hours
                   limit ;;
         add_field charge_array limit data)
      limits (Struct2 nrows k fields) = OK t ->
    exists fields',
      t = Struct2 nrows k (fields ++ fields')
      /\ forall key cols,
           In (key, cols) fields' ->
           Forall (written_column months weekdays hours nrows
                     (map snd
                        (filter (fun c => Qeq_bool (basic_charge_limit (snd c))
                                            key) charges)))
             cols.
Proof.
  intros Hm Hw Hh.
  induction limits as [|limit limits IH]; intros k fields t Hsz H;
    cbn [for_each] in H.
  - injection H as <-; exists []; rewrite app_nil_r.
    split; [reflexivity | intros ? ? []].
  - apply bind_OK_inv in H as (ca & Hstep & H).
    apply bind_OK_inv in Hstep as (data & Hbuf & Hadd).
    destruct (demand_buffer_shape _ _ _ _ _ _ _ _ Hm Hw Hh Hbuf)
      as (cols0 & -> & _ & _).
    pose proof (demand_buffer_written _ _ _ _ _ _ _ _ Hbuf) as Hc0.
    unfold add_field in Hadd; cbn [size] in Hadd.
    destruct (Nat.eqb_spec (nrows * k) 0) as [E|_]; [contradiction|].
    rewrite Nat.eqb_refl in Hadd.
    assert (Hca : exists cols,
               ca = Struct2 nrows k (fields ++ [(limit, cols)])
               /\ forall c, In c cols -> In c cols0).
    { destruct (Nat.eqb (length cols0) k).
      - injection Hadd as <-; exists cols0; split; [reflexivity | auto].
      - destruct cols0 as [|c0 [|c1 cols0]]; try discriminate.
        injection Hadd as <-; exists (repeat c0 k); split; [reflexivity|].
        intros c Hc; apply repeat_spec in Hc; left; symmetry; exact Hc. }
    destruct Hca as (cols & -> & Hsub).
    destruct (IH k _ t Hsz H) as (fields' & -> & Hall).
    exists ((limit, cols) :: fields'); split.
    + rewrite <- app_assoc; reflexivity.
    + intros key cs [E|Hin].
      * injection E as <- <-.
        apply Forall_forall; intros c Hc.
        rewrite Forall_forall in Hc0; apply Hc0, Hsub; exact Hc.
      * apply Hall; exact Hin.
Qed.

Lemma demand_table_written nrows charges periods months weekdays hours t :
  length months = nrows -> length weekdays = nrows -> length hours = nrows ->
  (0 < nrows)%nat ->
  charge_table true nrows charges periods months weekdays hours = OK t ->
  forall key cols,
    In (key, cols) (struct2_fields t) ->
    Forall (written_column months weekdays hours nrows
              (map snd
                 (filter (fun c => Qeq_bool (basic_charge_limit (snd c)) key)
                    charges)))
      cols.
Proof.
  intros Hm Hw Hh Hpos; unfold charge_table.
  pose proof (fun y => tier_of_key_nonempty charges y) as Hcount.
  destruct (np_unique (map (fun c => basic_charge_limit (snd c)) charges))
    as [|limit limits].
  - cbn [for_each]; intros H; injection H as <-; intros ? ? [].
  - cbn [for_each]; intros H.
    apply bind_OK_inv in H as (ca & Hstep & H).
    apply bind_OK_inv in Hstep as (data & Hbuf & Hadd).
    destruct (demand_buffer_shape _ _ _ _ _ _ _ _ Hm Hw Hh Hbuf)
      as (cols0 & -> & Hlen & _).
    pose proof (demand_buffer_written _ _ _ _ _ _ _ _ Hbuf) as Hc0.
    cbn [add_field size length Nat.eqb] in Hadd; injection Hadd as <-.
    assert (Hk : (nrows * length cols0 <> 0)%nat).
    { specialize (Hcount limit (or_introl eq_refl)).
      rewrite Hlen; destruct (filter _ charges); [congruence | simpl; lia]. }
    destruct (later_tiers_written _ _ _ _ _ _ limits Hm Hw Hh _ _ t Hk H)
      as (fields' & -> & Hall).
    cbn [struct2_fields app]; intros key cols [E|Hin].
    + injection E as <- <-; exact Hc0.
    + apply Hall; exact Hin.
Qed.

Lemma written_column_entries (stamps : list Timestamp) (ndays : nat)
    (hours : list Q) (rules : list Rule) (col : list Q) :
  window_hours stamps ndays = OK hours ->
  written_column (map dt_month stamps) (map dt_weekday stamps) hours
    (length stamps) rules col ->
  (forall k ts, nth_error stamps k = Some ts -> nth_error col k = Some 0)
  \/ (exists r r1,
        In r rules /\ In r1 rules
        /\ forall k ts,
             nth_error stamps k = Some ts ->
             nth_error col k
             = Some (if applies r (dt_month ts) (dt_weekday ts)
                          (fractional_hour ts k)
                        || applies r1 (dt_month ts) (dt_weekday ts)
                             (fractional_hour ts k)
                     then charge r else 0)).
Proof.
  intros Hh [->|[(r & Hr & ->)|(r & r1 & Hr & Hr1 & ->)]].
  - left; intros k ts Hts; unfold np_zeros.
    apply nth_error_repeat, nth_error_Some; congruence.
  - right; exists r, r; repeat split; try exact Hr.
    intros k ts Hts.
    pose proof (window_hours_nth _ _ _ _ _ Hh Hts) as Hhk.
    unfold mask_times; rewrite nth_error_map.
    rewrite (apply_charge_mask_nth stamps hours r k ts _ Hts Hhk).
    cbn [option_map]; rewrite orb_diag; reflexivity.
  - right; exists r, r1; repeat split; try assumption.
    intros k ts Hts.
    pose proof (window_hours_nth _ _ _ _ _ Hh Hts) as Hhk.
    unfold mask_times; rewrite nth_error_map.
    rewrite (mask_or_nth _ _ k _ _
               (apply_charge_mask_nth stamps hours r k ts _ Hts Hhk)
               (apply_charge_mask_nth stamps hours r1 k ts _ Hts Hhk)).
    reflexivity.
Qed.

(** ** The entries of an energy table *)

Lemma energy_entries_sum (w : DataFrame) (rate_data : list Rule)
    (utility_ : string) (t : ndarray) (stamps : list Timestamp) :
  get_charge_array w rate_data "energy" utility_ = OK t ->
  DateTime w = Some stamps ->
  forall key v k ts,
    In (key, v) (struct1_fields t) ->
    nth_error stamps k = Some ts ->
    exists x,
      nth_error v k = Some x
      /\ x == tier_rate (matching_rules rate_data "energy" utility_) key ts k.
Proof.
  intros H Hdt key v k ts Hin Hts.
  destruct (get_charge_array_returns w rate_data "energy" utility_ t)
    as (stamps' & hours & Hdt' & Hh & Hs & Hhl & [(Hsel & Ht) | (Hsel & Ht)]);
    [simpl; auto | exact H | |];
    rewrite Hdt in Hdt'; injection Hdt' as <-.
  - subst t; cbn [zero_table String.eqb Ascii.eqb Bool.eqb struct1_fields] in Hin.
    destruct Hin as [E|[]]; injection E as <- <-.
    assert (Hk : (k < window_rows w)%nat).
    { rewrite <- Hs; apply nth_error_Some; rewrite Hts; discriminate. }
    exists 0; split.
    + unfold np_zeros; rewrite nth_error_repeat by exact Hk; reflexivity.
    + unfold tier_rate, tier_rules.
      rewrite <- select_charges_rules, Hsel; reflexivity.
  - cbn [String.eqb Ascii.eqb Bool.eqb] in Ht.
    pose proof (energy_table_fields _ _ _ _ _ _ _ Ht key v Hin) as Hbuf.
    destruct (energy_buffer_sum _ _ _ _ _ _ _ _ Hh Hs Hbuf k ts Hts)
      as (x & Hx & Hval).
    exists x; split; [exact Hx|].
    rewrite Hval, select_charges_rules; reflexivity.
Qed.

Lemma fractional_hour_below_24 (t : Timestamp) (k : nat) :
  (0 <= dt_hour t <= 23)%Z -> fractional_hour t k < 24.
Proof.
  intros Hhour; unfold fractional_hour.
  assert (Hq : (k mod 4 < 4)%nat) by (apply Nat.mod_upper_bound; lia).
  assert (H1 : inject_Z (dt_hour t) <= 23).
  { unfold Qle; cbn [inject_Z Qnum Qden]; lia. }
  assert (H2 : inject_Z (Z.of_nat (k mod 4)) <= 3).
  { unfold Qle; cbn [inject_Z Qnum Qden]; lia. }
  unfold Qdiv; change (/ 4) with (1 # 4).
  generalize dependent (inject_Z (dt_hour t)).
  generalize dependent (inject_Z (Z.of_nat (k mod 4))).
  intros; lra.
Qed.

(** C6.  The rates of the returned tables are those of the rules at the
    timestamps where the six range tests hold.  For energy, the entry of a
    tier at a timestamp is the sum, over the rules of the tier, of the
    charge of each rule whose tests hold there.  For demand, each rule of
    a selection with distinct period labels has a column in the field of
    its tier that holds the charge of the rule where its tests hold and
    zero elsewhere; and in every sheet a column of a tier is zero, or
    holds the charge of a rule of the tier where the tests of that rule,
    or of a second rule of the tier joined to it, hold.  The tests are:
    month in [month_start, month_end], weekday in
    [weekday_start, weekday_end], and fractional hour (hour of day plus
    the quarter-hour step) in [hour_start, hour_end), the start included
    and the end excluded; a timestamp whose fractional hour is the rule's
    [hour_end] is outside, and since the fractional hour of a day stops at
    23.75 a rule with [hour_end] = 24 passes the upper test at every step
    of the day. *)
Theorem applicability_mask (w : DataFrame) (rate_data : list Rule)
    (utility_ : string) (stamps : list Timestamp) :
  DateTime w = Some stamps ->
  (0 < window_rows w)%nat ->
  (forall t key v k ts,
     get_charge_array w rate_data "energy" utility_ = OK t ->
     In (key, v) (struct1_fields t) ->
     nth_error stamps k = Some ts ->
     exists x,
       nth_error v k = Some x
       /\ x == tier_rate (matching_rules rate_data "energy" utility_) key ts k)
  /\ (forall t r,
        get_charge_array w rate_data "demand" utility_ = OK t ->
        NoDup (map period (matching_rules rate_data "demand" utility_)) ->
        In r (matching_rules rate_data "demand" utility_) ->
        exists key cols col,
          In (key, cols) (struct2_fields t)
          /\ key == basic_charge_limit r
          /\ In col cols
          /\ forall k ts, nth_error stamps k = Some ts ->
                          nth_error col k = Some (rule_rate r ts k))
  /\ (forall t key cols col,
        get_charge_array w rate_data "demand" utility_ = OK t ->
        In (key, cols) (struct2_fields t) ->
        In col cols ->
        (forall k ts, nth_error stamps k = Some ts -> nth_error col k = Some 0)
        \/ (exists r r1,
              In r (tier_rules (matching_rules rate_data "demand" utility_)
                      key)
              /\ In r1 (tier_rules (matching_rules rate_data "demand" utility_)
                          key)
              /\ forall k ts,
                   nth_error stamps k = Some ts ->
                   nth_error col k
                   = Some (if applies r (dt_month ts) (dt_weekday ts)
                                (fractional_hour ts k)
                              || applies r1 (dt_month ts) (dt_weekday ts)
                                   (fractional_hour ts k)
                           then charge r else 0)))
  /\ (forall r ts k,
        (applies r (dt_month ts) (dt_weekday ts) (fractional_hour ts k) = true
         <-> (month_start r <= dt_month ts <= month_end r)%Z
             /\ (weekday_start r <= dt_weekday ts <= weekday_end r)%Z
             /\ hour_start r <= fractional_hour ts k
             /\ fractional_hour ts k < hour_end r)
        /\ (fractional_hour ts k == hour_end r ->
            applies r (dt_month ts) (dt_weekday ts) (fractional_hour ts k)
            = false)
        /\ (hour_end r == 24 -> (0 <= dt_hour ts <= 23)%Z ->
            (applies r (dt_month ts) (dt_weekday ts) (fractional_hour ts k)
             = true
             <-> (month_start r <= dt_month ts <= month_end r)%Z
                 /\ (weekday_start r <= dt_weekday ts <= weekday_end r)%Z
                 /\ hour_start r <= fractional_hour ts k))).
Proof.
  intros Hdt Hpos; split; [|split; [|split]].
  - intros t key v k ts H Hin Hts.
    eapply energy_entries_sum; eassumption.
  - intros t r H Hper Hr.
    destruct (get_charge_array_returns w rate_data "demand" utility_ t)
      as (stamps' & hours & Hdt' & Hh & Hs & Hhl & [(Hsel & _) | (Hsel & Ht)]);
      [simpl; auto | exact H | |];
      rewrite Hdt in Hdt'; injection Hdt' as <-.
    + exfalso; rewrite <- select_charges_rules, Hsel in Hr; exact Hr.
    + cbn [String.eqb Ascii.eqb Bool.eqb] in Ht.
      rewrite <- select_charges_rules in Hr.
      apply in_map_iff in Hr as (row & <- & Hrow).
      destruct (demand_table_columns _ _ _ _ _ _ _
                  ltac:(rewrite length_map; exact Hs)
                  ltac:(rewrite length_map; exact Hs) Hhl Hpos
                  ltac:(rewrite <- select_charges_rules, map_map in Hper;
                        exact Hper)
                  (select_charges_labels rate_data "demand" utility_)
                  Ht row Hrow) as (key & cols & Hin & Hkey & Hcol).
      exists key, cols; eexists; split; [exact Hin|]; split; [exact Hkey|].
      split; [exact Hcol|].
      intros k ts Hts.
      pose proof (window_hours_nth _ _ _ _ _ Hh Hts) as Hhk.
      unfold mask_times; rewrite nth_error_map.
      rewrite (apply_charge_mask_nth stamps hours (snd row) k ts _ Hts Hhk).
      reflexivity.
  - intros t key cols col H Hin Hcol.
    destruct (get_charge_array_returns w rate_data "demand" utility_ t)
      as (stamps' & hours & Hdt' & Hh & Hs & Hhl & [(_ & Ht) | (Hsel & Ht)]);
      [simpl; auto | exact H | |];
      rewrite Hdt in Hdt'; injection Hdt' as <-.
    + subst t.
      cbn [zero_table String.eqb Ascii.eqb Bool.eqb struct2_fields] in Hin.
      destruct Hin as [E|[]]; injection E as <- <-.
      destruct Hcol as [<-|[]].
      left; intros k ts Hts; unfold np_zeros.
      apply nth_error_repeat; rewrite <- Hs.
      apply nth_error_Some; congruence.
    + cbn [String.eqb Ascii.eqb Bool.eqb] in Ht.
      pose proof (demand_table_written _ _ _ _ _ _ _
                    ltac:(rewrite length_map; exact Hs)
                    ltac:(rewrite length_map; exact Hs) Hhl Hpos Ht
                    key cols Hin) as Hall.
      rewrite Forall_forall in Hall; specialize (Hall col Hcol).
      rewrite tier_rules_selected, <- Hs in Hall.
      apply (written_column_entries stamps (shape0 w / 96) hours _ col Hh Hall).
  - intros r ts k; split; [apply applies_iff|]; split.
    + intros Heq.
      destruct (applies _ _ _ _) eqn:E; [|reflexivity].
      apply applies_iff in E; lra.
    + intros H24 Hhour; rewrite applies_iff.
      pose proof (fractional_hour_below_24 ts k Hhour) as Hfrac.
      split; [tauto|].
      intros (Hm & Hw & Hs); repeat split; try tauto; lra.
Qed.

Lemma applicability_mask_witness :
  let rate_data := [morning_high; afternoon_high; energy_low; energy_high] in
  ((exists t, get_charge_array example_window rate_data "energy" "electric"
              = OK t)
   /\ (exists t, get_charge_array example_window rate_data "demand" "electric"
                 = OK t)
   /\ NoDup (map period (matching_rules rate_data "demand" "electric")))
  /\
  (forall t key v k ts,
     get_charge_array example_window rate_data "energy" "electric" = OK t ->
     In (key, v) (struct1_fields t) ->
     nth_error (example_stamps 3) k = Some ts ->
     exists x,
       nth_error v k = Some x
       /\ x == tier_rate (matching_rules rate_data "energy" "electric") key ts k)
  /\ (forall t r,
        get_charge_array example_window rate_data "demand" "electric" = OK t ->
        NoDup (map period (matching_rules rate_data "demand" "electric")) ->
        In r (matching_rules rate_data "demand" "electric") ->
        exists key cols col,
          In (key, cols) (struct2_fields t)
          /\ key == basic_charge_limit r
          /\ In col cols
          /\ forall k ts, nth_error (example_stamps 3) k = Some ts ->
                          nth_error col k = Some (rule_rate r ts k))
  /\ (forall t key cols col,
        get_charge_array example_window rate_data "demand" "electric" = OK t ->
        In (key, cols) (struct2_fields t) ->
        In col cols ->
        (forall k ts, nth_error (example_stamps 3) k = Some ts -> nth_error col k = Some 0)
        \/ (exists r r1,
              In r (tier_rules (matching_rules rate_data "demand" "electric")
                      key)
              /\ In r1 (tier_rules (matching_rules rate_data "demand" "electric")
                          key)
              /\ forall k ts,
                   nth_error (example_stamps 3) k = Some ts ->
                   nth_error col k
                   = Some (if applies r (dt_month ts) (dt_weekday ts)
                                (fractional_hour ts k)
                              || applies r1 (dt_month ts) (dt_weekday ts)
                                   (fractional_hour ts k)
                           then charge r else 0)))
  /\ (forall r ts k,
        (applies r (dt_month ts) (dt_weekday ts) (fractional_hour ts k) = true
         <-> (month_start r <= dt_month ts <= month_end r)%Z
             /\ (weekday_start r <= dt_weekday ts <= weekday_end r)%Z
             /\ hour_start r <= fractional_hour ts k
             /\ fractional_hour ts k < hour_end r)
        /\ (fractional_hour ts k == hour_end r ->
            applies r (dt_month ts) (dt_weekday ts) (fractional_hour ts k)
            = false)
        /\ (hour_end r == 24 -> (0 <= dt_hour ts <= 23)%Z ->
            (applies r (dt_month ts) (dt_weekday ts) (fractional_hour ts k)
             = true
             <-> (month_start r <= dt_month ts <= month_end r)%Z
                 /\ (weekday_start r <= dt_weekday ts <= weekday_end r)%Z
                 /\ hour_start r <= fractional_hour ts k))).
Proof.
  intros rate_data; split.
  { split; [eexists; vm_compute; reflexivity|].
    split; [eexists; vm_compute; reflexivity|].
    repeat constructor; simpl; intuition discriminate. }
  apply (applicability_mask example_window rate_data "electric"
           (example_stamps 3)).
  - reflexivity.
  - vm_compute; lia.
Defined.
